(** * FWP_MKT: order configuration and submission pipeline

    A shallow embedding of [src/components/ShippingForm.tsx] (pricing,
    coupon handling, draft persistence, validation and submission) and of
    [src/services/googleSheetService.ts] (best-effort delivery to the
    spreadsheet endpoint), with the properties of the specification stated
    and proved over it.

    Conventions of the embedding:
    - a JavaScript string is the list of its UTF-16 code units;
    - a JavaScript number, a measurement or an amount of money alike, is
      an IEEE-754 binary64 value ([number]); its arithmetic rounds the
      exact result to the nearest value;
    - a React handler is a function from the state of the render it closes
      over to the state after all its setters have been applied;
    - [localStorage], the [onSubmit] callback, the network and the console
      are explicit components of a world that is threaded through. *)

From Stdlib Require Import ZArith NArith QArith Qround Qabs Qpower Qreduction Qcanon.
From Stdlib Require Import List String Ascii Bool Lia Lqa.
From stdpp Require Import base decidable option list gmap strings.
Import ListNotations.

Local Close Scope Q_scope.
Local Open Scope Z_scope.
Local Open Scope list_scope.

(* ===================================================================== *)
(** * Part I. JavaScript values used by the two source files             *)
(* ===================================================================== *)

Module JS.

(** ** Strings *)

(** A string value: its UTF-16 code units. *)
Definition jsstring : Type := list N.

(** Decoding of the UTF-8 bytes of a literal of this file into code units
    (code points above U+FFFF become a surrogate pair). *)
Fixpoint utf8_units (bs : list N) : jsstring :=
  match bs with
  | [] => []
  | b :: r =>
      if (b <? 128)%N then b :: utf8_units r
      else if (b <? 224)%N then
        match r with
        | c :: r1 => ((b - 192) * 64 + (c - 128))%N :: utf8_units r1
        | [] => [b]
        end
      else if (b <? 240)%N then
        match r with
        | c :: d :: r2 =>
            ((b - 224) * 4096 + (c - 128) * 64 + (d - 128))%N :: utf8_units r2
        | _ => [b]
        end
      else
        match r with
        | c :: d :: e :: r3 =>
            let cp := ((b - 240) * 262144 + (c - 128) * 4096
                       + (d - 128) * 64 + (e - 128) - 65536)%N in
            (55296 + cp / 1024)%N :: (56320 + cp mod 1024)%N :: utf8_units r3
        | _ => [b]
        end
  end.

Definition u16 (s : string) : jsstring :=
  utf8_units (map N_of_ascii (list_ascii_of_string s)).

(** [a === b] on strings. *)
Definition str_eqb (a b : jsstring) : bool := bool_decide (a = b).

(** Truthiness of a string: every string but the empty one. *)
Definition truthy (s : jsstring) : bool :=
  match s with [] => false | _ :: _ => true end.

(** [WhiteSpace] and [LineTerminator] of ECMAScript, the code units that
    [String.prototype.trim], [Number] and [parseFloat] skip. *)
Definition is_space (c : N) : bool :=
  existsb (N.eqb c)
    [9; 10; 11; 12; 13; 32; 160; 5760; 8232; 8233; 8239; 8287; 12288; 65279]%N
  || ((8192 <=? c)%N && (c <=? 8202)%N).

Fixpoint trimStart (s : jsstring) : jsstring :=
  match s with
  | c :: r => if is_space c then trimStart r else s
  | [] => []
  end.

Definition trimEnd (s : jsstring) : jsstring := rev (trimStart (rev s)).

(** [s.trim()] *)
Definition trim (s : jsstring) : jsstring := trimEnd (trimStart s).

(** The class [\d] of a regular expression without the [u] and [v] flags
    in the way the sources use it: the ten ASCII digits. *)
Definition is_digit (c : N) : bool := (48 <=? c)%N && (c <=? 57)%N.

(** [s.replace(/\D/g, '')] (and the equivalent [/[^\d]/g]) *)
Definition strip_non_digits (s : jsstring) : jsstring := List.filter is_digit s.

(** [s.slice(i, j)] and [s.slice(i)] for indices within [0 .. 2^53]. *)
Definition slice (i j : nat) (s : jsstring) : jsstring := take (j - i) (drop i s).
Definition slice_from (i : nat) (s : jsstring) : jsstring := drop i s.

(** [s.startsWith(p)] *)
Fixpoint startsWith (p s : jsstring) : bool :=
  match p, s with
  | [], _ => true
  | a :: p', b :: s' => (a =? b)%N && startsWith p' s'
  | _ :: _, [] => false
  end.

(** [s.includes(p)] *)
Fixpoint includes (p s : jsstring) : bool :=
  startsWith p s ||
  match s with
  | [] => false
  | _ :: s' => includes p s'
  end.

(** [s.split(sep)] for a separator that is not empty. [skip] counts the
    code units of a separator just recognised that are still to be passed
    over; [cur] is the piece being collected, last code unit first. *)
Fixpoint split_go (sep : jsstring) (skip : nat) (cur : jsstring) (s : jsstring)
  : list jsstring :=
  match s with
  | [] => [rev cur]
  | c :: s' =>
      match skip with
      | S k => split_go sep k cur s'
      | O =>
          if startsWith sep s
          then rev cur :: split_go sep (length sep - 1) [] s'
          else split_go sep O (c :: cur) s'
      end
  end.

Definition split (sep s : jsstring) : list jsstring :=
  match sep with
  | [] => map (fun c => [c]) s
  | _ :: _ => split_go sep O [] s
  end.

(** ** Numbers *)

(** A number value. The two zeros are not told apart: no operation of the
    sources distinguishes them. *)
Inductive number : Type :=
| NaN
| Inf (negative : bool)
| Fin (q : Q).

Definition isNaN (x : number) : bool :=
  match x with NaN => true | _ => false end.

(** Order of two numbers; [None] when one of them is [NaN], in which case
    every relational operator answers [false]. *)
Definition num_compare (x y : number) : option comparison :=
  match x, y with
  | NaN, _ | _, NaN => None
  | Inf true, Inf true => Some Eq
  | Inf true, _ => Some Lt
  | _, Inf true => Some Gt
  | Inf false, Inf false => Some Eq
  | Inf false, _ => Some Gt
  | _, Inf false => Some Lt
  | Fin a, Fin b => Some (Qcompare a b)
  end.

Definition num_ge (x y : number) : bool :=
  match num_compare x y with Some Gt | Some Eq => true | _ => false end.
Definition num_le (x y : number) : bool :=
  match num_compare x y with Some Lt | Some Eq => true | _ => false end.
Definition num_gt (x y : number) : bool :=
  match num_compare x y with Some Gt => true | _ => false end.

Definition of_Z (z : Z) : number := Fin (inject_Z z).

(** [2^e] for any integer [e]. *)
Definition pow2 (e : Z) : Q :=
  if (0 <=? e) then inject_Z (2 ^ e) else Qmake 1 (Z.to_pos (2 ^ (- e))).

(** Nearest integer to a rational that is not negative, ties to even. *)
Definition round_half_even (q : Q) : Z :=
  let f := Qfloor q in
  match Qcompare (Qminus q (inject_Z f)) (Qmake 1 2) with
  | Lt => f
  | Gt => f + 1
  | Eq => if Z.even f then f else f + 1
  end.

(** Rounding of an exact value to binary64 (round to nearest, ties to
    even, gradual underflow, overflow to infinity). *)
Definition binary64 (q : Q) : number :=
  match Qnum q with
  | 0 => Fin (inject_Z 0)
  | _ =>
      let a := Qabs q in
      let e0 := Z.log2 (Z.abs (Qnum q)) - Z.log2 (Zpos (Qden q)) in
      let e := if Qle_bool (pow2 e0) a then e0 else e0 - 1 in
      let p := Z.max e (-1022) - 52 in
      let m := round_half_even (Qdiv a (pow2 p)) in
      let v := Qmult (inject_Z m) (pow2 p) in
      if Qle_bool (pow2 1024) v then Inf (Qnum q <? 0)
      else Fin (Qred (if Qnum q <? 0 then Qopp v else v))
  end.

(** The two quantities [binary64] derives from a value that is not zero:
    the power of two at or below its magnitude, and the power of two its
    significand counts in. *)
Definition exponent (q : Q) : Z :=
  let e0 := Z.log2 (Z.abs (Qnum q)) - Z.log2 (Zpos (Qden q)) in
  if Qle_bool (pow2 e0) (Qabs q) then e0 else e0 - 1.

Definition quantum (q : Q) : Z := Z.max (exponent q) (-1022) - 52.

(** A value of the number type proper: one that the rounding leaves as it
    is. *)
Definition is_double (x : number) : Prop :=
  match x with
  | Fin q => binary64 q = Fin q
  | _ => True
  end.

(** ** Arithmetic *)

(** [-x] *)
Definition num_neg (x : number) : number :=
  match x with
  | NaN => NaN
  | Inf negative => Inf (negb negative)
  | Fin q => Fin (Qopp q)
  end.

(** [x + y]: the exact sum, rounded. *)
Definition num_add (x y : number) : number :=
  match x, y with
  | NaN, _ | _, NaN => NaN
  | Inf a, Inf b => if Bool.eqb a b then Inf a else NaN
  | Inf a, Fin _ => Inf a
  | Fin _, Inf b => Inf b
  | Fin a, Fin b => binary64 (Qplus a b)
  end.

(** [x - y] *)
Definition num_sub (x y : number) : number := num_add x (num_neg y).

(** [x < y] *)
Definition num_lt (x y : number) : bool :=
  match num_compare x y with Some Lt => true | _ => false end.

(** [Math.max(x, y)] *)
Definition Math_max (x y : number) : number :=
  if isNaN x || isNaN y then NaN
  else if num_ge x y then x else y.

(** Value of a run of digits in a given radix. *)
Definition digit_value (c : N) : Z :=
  if is_digit c then Z.of_N c - 48
  else if (97 <=? c)%N && (c <=? 102)%N then Z.of_N c - 87
  else Z.of_N c - 55.

Definition digits_value (radix : Z) (ds : jsstring) : Z :=
  fold_left (fun acc c => acc * radix + digit_value c) ds 0.

(** [m * 10^e] *)
Definition decimal (m e : Z) : Q :=
  if (0 <=? e) then inject_Z (m * 10 ^ e) else Qmake m (Z.to_pos (10 ^ (- e))).

(** The run of digits a text starts with, and what follows it. *)
Fixpoint span_digits (s : jsstring) : jsstring * jsstring :=
  match s with
  | c :: r =>
      if is_digit c then let '(ds, rest) := span_digits r in (c :: ds, rest)
      else ([], s)
  | [] => ([], [])
  end.

(** [ExponentPart], optional: the exponent read and what follows it. An
    [e] that no digit follows is not part of the literal. *)
Definition scan_exponent (s : jsstring) : Z * jsstring :=
  match s with
  | c :: r =>
      if (c =? 101)%N || (c =? 69)%N then
        let '(sg, r1) :=
          match r with
          | 43%N :: r' => (1, r')
          | 45%N :: r' => (-1, r')
          | _ => (1, r)
          end in
        let '(ds, r2) := span_digits r1 in
        match ds with
        | [] => (0, s)
        | _ :: _ => (sg * digits_value 10 ds, r2)
        end
      else (0, s)
  | [] => (0, s)
  end.

(** Longest prefix that is a [StrUnsignedDecimalLiteral]: its value before
    rounding ([None] for [Infinity]) and the rest of the text. *)
Definition scan_unsigned (s : jsstring) : option (option Q * jsstring) :=
  if startsWith (u16 "Infinity") s then Some (None, drop 8 s)
  else
    let '(ip, r1) := span_digits s in
    match r1 with
    | 46%N :: r2 =>
        let '(fp, r3) := span_digits r2 in
        match ip, fp with
        | [], [] => None
        | _, _ =>
            let '(e, r4) := scan_exponent r3 in
            let m := digits_value 10 (ip ++ fp) in
            Some (Some (decimal m (e - Z.of_nat (length fp))), r4)
        end
    | _ =>
        match ip with
        | [] => None
        | _ :: _ =>
            let '(e, r4) := scan_exponent r1 in
            Some (Some (decimal (digits_value 10 ip) e), r4)
        end
    end.

(** Longest prefix that is a [StrDecimalLiteral], as a number. *)
Definition scan_decimal (s : jsstring) : option (number * jsstring) :=
  let '(neg, r) :=
    match s with
    | 43%N :: r' => (false, r')
    | 45%N :: r' => (true, r')
    | _ => (false, s)
    end in
  match scan_unsigned r with
  | Some (None, rest) => Some (Inf neg, rest)
  | Some (Some q, rest) => Some (binary64 (if neg then Qopp q else q), rest)
  | None => None
  end.

(** [parseFloat(s)] *)
Definition parseFloat (s : jsstring) : number :=
  match scan_decimal (trimStart s) with
  | Some (v, _) => v
  | None => NaN
  end.

(** [NonDecimalIntegerLiteral]: [0x], [0o] and [0b] literals. *)
Definition scan_radix (s : jsstring) : option number :=
  match s with
  | 48%N :: c :: ds =>
      let in_radix (ok : N -> bool) (radix : Z) :=
        match ds with
        | [] => None
        | _ :: _ =>
            if forallb ok ds then Some (binary64 (inject_Z (digits_value radix ds)))
            else None
        end in
      if (c =? 120)%N || (c =? 88)%N then
        in_radix (fun d => is_digit d || ((97 <=? d)%N && (d <=? 102)%N)
                           || ((65 <=? d)%N && (d <=? 70)%N)) 16
      else if (c =? 111)%N || (c =? 79)%N then
        in_radix (fun d => (48 <=? d)%N && (d <=? 55)%N) 8
      else if (c =? 98)%N || (c =? 66)%N then
        in_radix (fun d => (48 <=? d)%N && (d <=? 49)%N) 2
      else None
  | _ => None
  end.

(** [Number(s)] on a string: [StringToNumber]. *)
Definition Number (s : jsstring) : number :=
  match trim s with
  | [] => Fin (inject_Z 0)
  | t =>
      match scan_radix t with
      | Some v => v
      | None =>
          match scan_decimal t with
          | Some (v, []) => v
          | _ => NaN
          end
      end
  end.

End JS.

Import JS.

(** ** Plain objects *)

(** An object used as a record of string-keyed properties: the properties
    in creation order. *)
Module Obj.

Definition t (V : Type) : Type := list (string * V).

(** [o[k]]; [None] is [undefined]. *)
Fixpoint get {V} (k : string) (o : t V) : option V :=
  match o with
  | [] => None
  | (k', v) :: o' => if String.eqb k k' then Some v else get k o'
  end.

(** [o[k] = v]: an existing property keeps its place, a new one goes last. *)
Fixpoint set {V} (k : string) (v : V) (o : t V) : t V :=
  match o with
  | [] => [(k, v)]
  | (k', v') :: o' =>
      if String.eqb k k' then (k, v) :: o' else (k', v') :: set k v o'
  end.

(** [delete o[k]] *)
Fixpoint delete {V} (k : string) (o : t V) : t V :=
  match o with
  | [] => []
  | (k', v') :: o' =>
      if String.eqb k k' then o' else (k', v') :: delete k o'
  end.

(** A property name that is an array index: the canonical decimal
    spelling of an integer below [2^32 - 1]. *)
Definition array_index (k : string) : option N :=
  let cs := map N_of_ascii (list_ascii_of_string k) in
  match cs with
  | [] => None
  | c :: r =>
      if forallb is_digit cs && (negb (c =? 48)%N || bool_decide (r = [])) then
        let n := Z.to_N (digits_value 10 cs) in
        if (n <? 4294967295)%N then Some n else None
      else None
  end.

Fixpoint insert_index (e : N * string) (l : list (N * string)) : list (N * string) :=
  match l with
  | [] => [e]
  | e' :: l' => if (fst e <=? fst e')%N then e :: l else e' :: insert_index e l'
  end.

(** [Object.keys(o)]: the array indices in ascending order, then the other
    names in creation order. *)
Definition keys {V} (o : t V) : list string :=
  let names := map fst o in
  let index_of k :=
    match array_index k with Some n => [(n, k)] | None => [] end in
  let is_name k :=
    match array_index k with Some _ => false | None => true end in
  map snd (fold_right insert_index [] (flat_map index_of names))
  ++ List.filter is_name names.

End Obj.

(** ** JSON values and [localStorage] *)

#[local] Unset Elimination Schemes.
Inductive json : Type :=
| JNull
| JBool (b : bool)
| JNum (q : Q)
| JStr (s : jsstring)
| JArr (items : list json)
| JObj (props : Obj.t json).
#[local] Set Elimination Schemes.

(** The text kept under a key of [localStorage], seen through
    [JSON.parse]: the value it denotes, or a text that [JSON.parse]
    rejects (the empty text is one). [JSON.stringify] of a value of the
    kinds the form writes denotes that value. *)
Inductive stored : Type :=
| Text (j : json)
| Garbled.

(** Truthiness of a value read from a parsed draft ([None] is
    [undefined]). *)
Definition json_truthy (v : option json) : bool :=
  match v with
  | None | Some JNull | Some (JBool false) | Some (JStr []) => false
  | Some (JNum q) => negb (Qeq_bool q (inject_Z 0))
  | Some _ => true
  end.

(* ===================================================================== *)
(** * Part II. The shipping form ([ShippingForm.tsx])                    *)
(* ===================================================================== *)

Module Form.

(** ** Data *)

Inductive StrategyType : Type := standard | custom.

(** [PricingStrategy] of [../types], by the fields the form reads. *)
Record PricingStrategy : Type := {
  type : StrategyType;
  basePrice : number;
  shippingCost : number;
  sizeThreshold : number;
  surcharge : number
}.

(** [COUPON_CONFIG] of [../config/coupons], by the fields the form reads. *)
Module CouponConfig.
Record t : Type := {
  code : jsstring;
  discountAmount : number;
  eventName : jsstring;
  isEnabled : bool
}.
End CouponConfig.

(** The value of the [appliedCoupon] state when it is not [null]. *)
Module AppliedCoupon.
Record t : Type := { code : jsstring; amount : number }.
End AppliedCoupon.

(** [ShippingDetails] of [../types]: the argument of [onSubmit]. [None]
    in the two coupon fields is [undefined]. *)
Module ShippingDetails.
Record t : Type := {
  realName : jsstring;
  phone : jsstring;
  storeCode : jsstring;
  storeName : jsstring;
  socialId : jsstring;
  wristSize : jsstring;
  addPurificationBag : bool;
  preferredColors : list jsstring;
  couponCode : option jsstring;
  discountAmount : option number;
  totalPrice : number
}.
End ShippingDetails.

(** The seven refs of the component. *)
Inductive Ref : Type :=
| nameRef | phoneRef | storeCodeRef | storeNameRef | socialRef | wristRef
| agreementRef.

(** The elements of the rendered form that carry a ref: the [input] that
    shows a cell ([value={cell}]), named by the cell, and the [div] of the
    purchase terms, which holds the agreement box. *)
Inductive Element : Type :=
| Input (cell : string)
| TermsPanel.

(** [ref.current] while the form is mounted: the element the JSX attaches
    each ref to. Both branches of the wrist-size markup attach [wristRef]
    to the input that shows [wristSize]. *)
Definition current (r : Ref) : Element :=
  match r with
  | nameRef => Input "realName"
  | phoneRef => Input "phone"
  | storeCodeRef => Input "storeCode"
  | storeNameRef => Input "storeName"
  | socialRef => Input "socialId"
  | wristRef => Input "wristSize"
  | agreementRef => TermsPanel
  end.

(** [element instanceof HTMLInputElement] *)
Definition isInputElement (e : Element) : bool :=
  match e with Input _ => true | TermsPanel => false end.

(** The [useState] cells of the component that the handlers of this
    development read or write. *)
Record FormState : Type := {
  realName : jsstring;
  phone : jsstring;
  storeCode : jsstring;
  storeName : jsstring;
  socialId : jsstring;
  wristSize : jsstring;
  isCustomSize : bool;
  addPurificationBag : bool;
  preferredColors : list jsstring;
  couponInput : jsstring;
  appliedCoupon : option AppliedCoupon.t;
  couponError : jsstring;
  agreed : bool;
  errors : Obj.t jsstring;
  shakingField : option string
}.

(** What the form does to its surroundings. *)
Record World : Type := {
  localStorage : gmap string stored;
  onSubmit : list ShippingDetails.t;   (* the calls of the callback, oldest first *)
  scrollIntoView : list Element;       (* the elements scrolled to, oldest first *)
  focus : list Element                 (* the elements focused, oldest first *)
}.

Definition STORAGE_KEY : string := "fwp_shipping_draft_v1".
Definition PURIFICATION_BAG_COST : number := of_Z 200.

(** ** State setters *)

Definition setPhone (v : jsstring) (st : FormState) : FormState :=
  {| realName := realName st; phone := v; storeCode := storeCode st;
     storeName := storeName st; socialId := socialId st; wristSize := wristSize st;
     isCustomSize := isCustomSize st; addPurificationBag := addPurificationBag st;
     preferredColors := preferredColors st; couponInput := couponInput st;
     appliedCoupon := appliedCoupon st; couponError := couponError st;
     agreed := agreed st; errors := errors st; shakingField := shakingField st |}.

Definition setWristSize (v : jsstring) (st : FormState) : FormState :=
  {| realName := realName st; phone := phone st; storeCode := storeCode st;
     storeName := storeName st; socialId := socialId st; wristSize := v;
     isCustomSize := isCustomSize st; addPurificationBag := addPurificationBag st;
     preferredColors := preferredColors st; couponInput := couponInput st;
     appliedCoupon := appliedCoupon st; couponError := couponError st;
     agreed := agreed st; errors := errors st; shakingField := shakingField st |}.

Definition setCouponInput (v : jsstring) (st : FormState) : FormState :=
  {| realName := realName st; phone := phone st; storeCode := storeCode st;
     storeName := storeName st; socialId := socialId st; wristSize := wristSize st;
     isCustomSize := isCustomSize st; addPurificationBag := addPurificationBag st;
     preferredColors := preferredColors st; couponInput := v;
     appliedCoupon := appliedCoupon st; couponError := couponError st;
     agreed := agreed st; errors := errors st; shakingField := shakingField st |}.

Definition setAgreed (v : bool) (st : FormState) : FormState :=
  {| realName := realName st; phone := phone st; storeCode := storeCode st;
     storeName := storeName st; socialId := socialId st; wristSize := wristSize st;
     isCustomSize := isCustomSize st; addPurificationBag := addPurificationBag st;
     preferredColors := preferredColors st; couponInput := couponInput st;
     appliedCoupon := appliedCoupon st; couponError := couponError st;
     agreed := v; errors := errors st; shakingField := shakingField st |}.

Definition setAppliedCoupon (v : option AppliedCoupon.t) (st : FormState) : FormState :=
  {| realName := realName st; phone := phone st; storeCode := storeCode st;
     storeName := storeName st; socialId := socialId st; wristSize := wristSize st;
     isCustomSize := isCustomSize st; addPurificationBag := addPurificationBag st;
     preferredColors := preferredColors st; couponInput := couponInput st;
     appliedCoupon := v; couponError := couponError st;
     agreed := agreed st; errors := errors st; shakingField := shakingField st |}.

Definition setCouponError (v : jsstring) (st : FormState) : FormState :=
  {| realName := realName st; phone := phone st; storeCode := storeCode st;
     storeName := storeName st; socialId := socialId st; wristSize := wristSize st;
     isCustomSize := isCustomSize st; addPurificationBag := addPurificationBag st;
     preferredColors := preferredColors st; couponInput := couponInput st;
     appliedCoupon := appliedCoupon st; couponError := v;
     agreed := agreed st; errors := errors st; shakingField := shakingField st |}.

Definition setErrors (v : Obj.t jsstring) (st : FormState) : FormState :=
  {| realName := realName st; phone := phone st; storeCode := storeCode st;
     storeName := storeName st; socialId := socialId st; wristSize := wristSize st;
     isCustomSize := isCustomSize st; addPurificationBag := addPurificationBag st;
     preferredColors := preferredColors st; couponInput := couponInput st;
     appliedCoupon := appliedCoupon st; couponError := couponError st;
     agreed := agreed st; errors := v; shakingField := shakingField st |}.

Definition setShakingField (v : option string) (st : FormState) : FormState :=
  {| realName := realName st; phone := phone st; storeCode := storeCode st;
     storeName := storeName st; socialId := socialId st; wristSize := wristSize st;
     isCustomSize := isCustomSize st; addPurificationBag := addPurificationBag st;
     preferredColors := preferredColors st; couponInput := couponInput st;
     appliedCoupon := appliedCoupon st; couponError := couponError st;
     agreed := agreed st; errors := errors st; shakingField := v |}.

(** ** Pricing (the values recomputed on every render) *)

Section Pricing.

Variable pricingStrategy : PricingStrategy.

Definition isStandard : bool :=
  match type pricingStrategy with standard => true | custom => false end.

Definition isSurchargeApplicable (st : FormState) : bool :=
  if isStandard then isCustomSize st
  else negb (str_eqb (wristSize st) [])
       && negb (isNaN (Number (wristSize st)))
       && num_ge (Number (wristSize st)) (sizeThreshold pricingStrategy).

Definition baseTotal (st : FormState) : number :=
  num_add
    (num_add
       (num_add (basePrice pricingStrategy) (shippingCost pricingStrategy))
       (if isSurchargeApplicable st then surcharge pricingStrategy else of_Z 0))
    (if addPurificationBag st then PURIFICATION_BAG_COST else of_Z 0).

Definition discount (st : FormState) : number :=
  match appliedCoupon st with
  | Some c => AppliedCoupon.amount c
  | None => of_Z 0
  end.

Definition totalPrice (st : FormState) : number :=
  Math_max (of_Z 0) (num_sub (baseTotal st) (discount st)).

End Pricing.

(** ** Draft persistence *)

(** The object literal of the auto-save effect. *)
Definition draft (st : FormState) : json :=
  JObj [ ("realName"%string, JStr (realName st));
         ("phone"%string, JStr (phone st));
         ("storeCode"%string, JStr (storeCode st));
         ("storeName"%string, JStr (storeName st));
         ("socialId"%string, JStr (socialId st));
         ("wristSize"%string, JStr (wristSize st));
         ("addPurificationBag"%string, JBool (addPurificationBag st));
         ("preferredColors"%string, JArr (map JStr (preferredColors st))) ].

(** [clearError(field)], a functional update of [errors]. *)
Definition clearError (field : string) (st : FormState) : FormState :=
  match Obj.get field (errors st) with
  | Some (_ :: _) => setErrors (Obj.delete field (errors st)) st
  | _ => st
  end.

Definition clearErrorIf (c : bool) (field : string) (st : FormState) : FormState :=
  if c then clearError field st else st.

(** The auto-save effect, run after a render in which one of its
    dependencies changed. *)
Definition autoSave (st : FormState) (w : World) : FormState * World :=
  let w' :=
    {| localStorage := <[STORAGE_KEY := Text (draft st)]> (localStorage w);
       onSubmit := onSubmit w; scrollIntoView := scrollIntoView w; focus := focus w |} in
  let st1 := clearErrorIf (truthy (realName st)) "realName" st in
  let st2 := clearErrorIf (truthy (phone st)) "phone" st1 in
  let st3 := clearErrorIf (truthy (storeCode st)) "storeCode" st2 in
  let st4 := clearErrorIf (truthy (storeName st)) "storeName" st3 in
  let st5 := clearErrorIf (truthy (socialId st)) "socialId" st4 in
  let st6 := clearErrorIf (truthy (wristSize st)) "wristSize" st5 in
  let st7 := clearErrorIf (agreed st) "agreement" st6 in
  (st7, w').

(** The dependency array of the auto-save effect. *)
Definition deps (st : FormState)
  : jsstring * jsstring * jsstring * jsstring * jsstring * jsstring
    * bool * list jsstring * bool :=
  (realName st, phone st, storeCode st, storeName st, socialId st, wristSize st,
   addPurificationBag st, preferredColors st, agreed st).

(** The render that follows a handler, for as long as the form stays
    mounted: the auto-save effect runs when a dependency differs from the
    render before. Strings and booleans are compared by value. The array
    [preferredColors] is compared by identity; the one handler that sets
    it, [toggleColor], always changes its content, so that comparing the
    contents of two consecutive renders tells the same. *)
Definition renderAfter (before after : FormState) (w : World) : FormState * World :=
  if bool_decide (deps before = deps after) then (after, w)
  else autoSave after w.

(** Why a mount does not yield a state of the form. *)
Inductive MountFailure : Type :=
| ThrowsTypeError   (* a property of [null] is read *)
| IllTyped.         (* a cell would hold a value outside its declared type *)

(** [initialDraft]: the parsed entry, or [{}] when the entry is absent,
    empty or rejected by [JSON.parse]. *)
Definition initialDraft (w : World) : json :=
  match localStorage w !! STORAGE_KEY with
  | Some (Text j) => j
  | Some Garbled | None => JObj []
  end.

(** [initialDraft.k]. Reading a property of [null] throws; a primitive or
    an array has none of the eight names. *)
Definition prop (j : json) (k : string) : MountFailure + option json :=
  match j with
  | JNull => inl ThrowsTypeError
  | JObj ps => inr (Obj.get k ps)
  | _ => inr None
  end.

(** [v || ''] for a cell that holds a string. *)
Definition string_or (dflt : jsstring) (v : option json) : MountFailure + jsstring :=
  if json_truthy v then
    match v with
    | Some (JStr s) => inr s
    | _ => inl IllTyped
    end
  else inr dflt.

(** [v || false] for a cell that holds a boolean. *)
Definition bool_or_false (v : option json) : MountFailure + bool :=
  if json_truthy v then
    match v with
    | Some (JBool b) => inr b
    | _ => inl IllTyped
    end
  else inr false.

Definition as_strings (items : list json) : option (list jsstring) :=
  mapM (fun j => match j with JStr s => Some s | _ => None end) items.

(** [v || []] for a cell that holds an array of strings. *)
Definition strings_or_empty (v : option json) : MountFailure + list jsstring :=
  if json_truthy v then
    match v with
    | Some (JArr items) =>
        match as_strings items with
        | Some l => inr l
        | None => inl IllTyped
        end
    | _ => inl IllTyped
    end
  else inr [].

(** [v === s] for a string [s]. *)
Definition is_string (s : jsstring) (v : option json) : bool :=
  match v with
  | Some (JStr t) => str_eqb t s
  | _ => false
  end.

Definition bindM {A B} (m : MountFailure + A) (k : A -> MountFailure + B)
  : MountFailure + B :=
  match m with
  | inl e => inl e
  | inr a => k a
  end.

Notation "'do' x <- m ; k" := (bindM m (fun x => k))
  (at level 10, x name, m at level 100, k at level 200).

(** The initial values of the cells at mount. *)
Definition mount (pricingStrategy : PricingStrategy) (w : World)
  : MountFailure + FormState :=
  let d := initialDraft w in
  do v_realName <- prop d "realName";
  do s_realName <- string_or [] v_realName;
  do v_phone <- prop d "phone";
  do s_phone <- string_or [] v_phone;
  do v_storeCode <- prop d "storeCode";
  do s_storeCode <- string_or [] v_storeCode;
  do v_storeName <- prop d "storeName";
  do s_storeName <- string_or [] v_storeName;
  do v_socialId <- prop d "socialId";
  do s_socialId <- string_or [] v_socialId;
  do v_wristSize <- prop d "wristSize";
  do s_wristSize <-
    string_or (if isStandard pricingStrategy then u16 "14" else []) v_wristSize;
  let custom_size :=
    isStandard pricingStrategy && json_truthy v_wristSize
    && negb (is_string (u16 "14") v_wristSize) in
  do v_bag <- prop d "addPurificationBag";
  do b_bag <- bool_or_false v_bag;
  do v_colors <- prop d "preferredColors";
  do l_colors <- strings_or_empty v_colors;
  inr {| realName := s_realName; phone := s_phone; storeCode := s_storeCode;
         storeName := s_storeName; socialId := s_socialId; wristSize := s_wristSize;
         isCustomSize := custom_size; addPurificationBag := b_bag;
         preferredColors := l_colors;
         couponInput := []; appliedCoupon := None; couponError := [];
         agreed := false; errors := []; shakingField := None |}.

(** ** Coupon *)

Section Coupon.

(** [String.prototype.toUpperCase]: the Unicode case mapping of the
    engine, which nothing below depends on. *)
Variable toUpperCase : jsstring -> jsstring.
Variable COUPON_CONFIG : CouponConfig.t.

Definition couponsDisabledMessage : jsstring := u16 "目前無進行中的優惠活動".
Definition invalidCouponMessage : jsstring := u16 "優惠碼無效或已過期".

Definition handleApplyCoupon (st : FormState) : FormState :=
  let st := setCouponError [] st in
  if negb (truthy (trim (couponInput st))) then st
  else if negb (CouponConfig.isEnabled COUPON_CONFIG) then
    setCouponError couponsDisabledMessage st
  else if str_eqb (toUpperCase (trim (couponInput st)))
                  (toUpperCase (CouponConfig.code COUPON_CONFIG)) then
    setCouponError []
      (setAppliedCoupon
         (Some {| AppliedCoupon.code := CouponConfig.code COUPON_CONFIG;
                  AppliedCoupon.amount := CouponConfig.discountAmount COUPON_CONFIG |})
         st)
  else
    setAppliedCoupon None (setCouponError invalidCouponMessage st).

End Coupon.

(** ** Validation and submission *)

(** [/^09\d{8}$/.test(s)] *)
Definition test_mobile (s : jsstring) : bool :=
  match s with
  | c0 :: c1 :: r =>
      (c0 =? 48)%N && (c1 =? 57)%N && (length r =? 8)%nat && forallb is_digit r
  | _ => false
  end.

(** [/^\d{6}$/.test(s)] *)
Definition test_six_digits (s : jsstring) : bool :=
  (length s =? 6)%nat && forallb is_digit s.

(** The template literal that rebuilds the phone number with dashes. *)
Definition dashed (cleanPhone : jsstring) : jsstring :=
  slice 0 4 cleanPhone ++ u16 "-" ++ slice 4 7 cleanPhone ++ u16 "-"
  ++ slice_from 7 cleanPhone.

(** The conditions under which each rule records an error. *)
Definition realName_fails (st : FormState) : bool := negb (truthy (trim (realName st))).
Definition phone_fails (st : FormState) : bool :=
  negb (test_mobile (strip_non_digits (phone st))).
Definition storeCode_fails (st : FormState) : bool := negb (test_six_digits (storeCode st)).
Definition storeName_fails (st : FormState) : bool := negb (truthy (trim (storeName st))).
Definition socialId_fails (st : FormState) : bool := negb (truthy (trim (socialId st))).
Definition wristSize_fails (st : FormState) : bool :=
  let sizeNum := parseFloat (wristSize st) in
  negb (truthy (wristSize st)) || isNaN sizeNum
  || num_le sizeNum (of_Z 0) || num_gt sizeNum (of_Z 30).
Definition agreement_fails (st : FormState) : bool := negb (agreed st).

Definition set_if (c : bool) (k : string) (msg : string) (o : Obj.t jsstring)
  : Obj.t jsstring :=
  if c then Obj.set k (u16 msg) o else o.

(** [newErrors] as it stands when [setErrors] is reached. *)
Definition newErrors (st : FormState) : Obj.t jsstring :=
  let e := [] in
  let e := set_if (realName_fails st) "realName" "請填寫真實姓名，以利取貨核對" e in
  let e := set_if (phone_fails st) "phone" "請輸入有效的 10 碼手機號碼 (09開頭)" e in
  let e := set_if (storeCode_fails st) "storeCode" "7-11 店號需為 6 碼數字" e in
  let e := set_if (storeName_fails st) "storeName" "請輸入店名" e in
  let e := set_if (socialId_fails st) "socialId" "請填寫 IG 或 FB 帳號" e in
  let e := set_if (wristSize_fails st) "wristSize" "請輸入有效的手圍 (cm)" e in
  let e := set_if (agreement_fails st) "agreement" "請先閱讀並勾選同意購買須知" e in
  e.

(** [finalPhone] *)
Definition finalPhone (st : FormState) : jsstring :=
  if phone_fails st then phone st else dashed (strip_non_digits (phone st)).

(** The [refs] table of the error branch. *)
Definition refs : Obj.t Ref :=
  [ ("realName"%string, nameRef); ("phone"%string, phoneRef);
    ("storeCode"%string, storeCodeRef); ("storeName"%string, storeNameRef);
    ("socialId"%string, socialRef); ("wristSize"%string, wristRef);
    ("agreement"%string, agreementRef) ].

(** The record handed to [onSubmit]. *)
Definition details (pricingStrategy : PricingStrategy) (st : FormState)
  : ShippingDetails.t :=
  {| ShippingDetails.realName := trim (realName st);
     ShippingDetails.phone := finalPhone st;
     ShippingDetails.storeCode := storeCode st;
     ShippingDetails.storeName := trim (storeName st);
     ShippingDetails.socialId := trim (socialId st);
     ShippingDetails.wristSize := wristSize st;
     ShippingDetails.addPurificationBag := addPurificationBag st;
     ShippingDetails.preferredColors := preferredColors st;
     ShippingDetails.couponCode :=
       match appliedCoupon st with
       | Some c => Some (AppliedCoupon.code c)
       | None => None
       end;
     ShippingDetails.discountAmount :=
       match appliedCoupon st with
       | Some c => Some (AppliedCoupon.amount c)
       | None => None
       end;
     ShippingDetails.totalPrice := totalPrice pricingStrategy st |}.

(** [validateAndSubmit]. Every element that carries a ref is rendered for
    as long as the form is mounted, so [targetRef.current] is never
    [null]; the timer that resets [shakingField] half a second later is
    left out. *)
Definition validateAndSubmit (pricingStrategy : PricingStrategy)
    (st : FormState) (w : World) : FormState * World :=
  let st1 := if phone_fails st then st else setPhone (finalPhone st) st in
  let st2 := setErrors (newErrors st) st1 in
  match Obj.keys (newErrors st) with
  | firstField :: _ =>
      let st3 := setShakingField (Some firstField) st2 in
      match Obj.get firstField refs with
      | Some targetRef =>
          let element := current targetRef in
          (st3,
           {| localStorage := localStorage w;
              onSubmit := onSubmit w;
              scrollIntoView := scrollIntoView w ++ [element];
              focus := focus w ++ (if isInputElement element then [element] else []) |})
      | None => (st3, w)
      end
  | [] =>
      (st2,
       {| localStorage := delete STORAGE_KEY (localStorage w);
          onSubmit := onSubmit w ++ [details pricingStrategy st];
          scrollIntoView := scrollIntoView w;
          focus := focus w |})
  end.

End Form.

(* ===================================================================== *)
(** * Part III. Delivery to the spreadsheet ([googleSheetService.ts])    *)
(* ===================================================================== *)

Module Sheet.

(** A thrown value: an [Error] object, by the two properties a handler
    reads. *)
Record JSError : Type := { name : jsstring; message : jsstring }.

(** How an awaited operation ends. A promise that never settles is not
    represented. *)
Inductive Completion (A : Type) : Type :=
| Normal (a : A)
| Throw (e : JSError).
Arguments Normal {A} a.
Arguments Throw {A} e.

(** The object literal [payload]: the entry [imageBase64] and the 27 other
    entries, which are computed from the record without any effect. *)
Record Payload (Fields : Type) : Type := {
  fields : Fields;
  imageBase64 : jsstring
}.
Arguments fields {Fields} p.
Arguments imageBase64 {Fields} p.

(** One call of [fetch]: the script URL that the cache-busting query is
    appended to, and the body before [JSON.stringify]. *)
Record Request (Fields : Type) : Type := {
  url : jsstring;
  body : Payload Fields
}.
Arguments url {Fields} r.
Arguments body {Fields} r.

(** The [status] of the object [sendRequest] returns. *)
Inductive Status : Type := sent | cors_blocked.

(** The lines written to the console. *)
Inductive Console : Type :=
| LogSyncing
| LogUrlDetected
| LogCompressing
| WarnCompressionFailed (e : JSError)
| LogPayloadCheck
| LogPayloadSize
| LogRequestSent
| ErrorSend (e : JSError)
| WarnCors
| LogSyncResult (result : Status)
| WarnRetrying (e : JSError)
| LogRetryCompleted
| ErrorBothFailed (e : JSError)
| LogCheckManually.

(** The surroundings of one call: the requests handed to [fetch] and the
    console, oldest first. *)
Record Net (Fields : Type) : Type := {
  requests : list (Request Fields);
  console : list Console
}.
Arguments requests {Fields} n.
Arguments console {Fields} n.

Section Gateway.

(** [CustomerRecord] of [../types], by what the image handling reads. *)
Variable CustomerRecord : Type.
Variable generatedImageUrl : CustomerRecord -> option jsstring.

(** The entries of the payload other than [imageBase64]. *)
Variable Fields : Type.
Variable flatten : CustomerRecord -> Fields.

(** [compressBase64Image] of [./imageUtils], awaited. *)
Variable compressBase64Image : jsstring -> Q -> Completion jsstring.

(** The network: how the [n]-th call of [fetch] (counting from 0) ends for
    a given request. *)
Variable network : nat -> Request Fields -> Completion unit.

(** Sequential code with effects on [Net] that may throw. *)
Definition M (A : Type) : Type := Net Fields -> Completion A * Net Fields.

Definition ret {A} (a : A) : M A := fun n => (Normal a, n).

Definition bind {A B} (m : M A) (k : A -> M B) : M B :=
  fun n =>
    match m n with
    | (Normal a, n') => k a n'
    | (Throw e, n') => (Throw e, n')
    end.

Definition throw {A} (e : JSError) : M A := fun n => (Throw e, n).

(** [try { body } catch (e) { handler }]: the effects of the body up to
    the throw are kept. *)
Definition try_catch {A} (body : M A) (handler : JSError -> M A) : M A :=
  fun n =>
    match body n with
    | (Normal a, n') => (Normal a, n')
    | (Throw e, n') => handler e n'
    end.

(** [await p] for a promise whose outcome is known. *)
Definition await {A} (c : Completion A) : M A := fun n => (c, n).

Definition log (line : Console) : M unit :=
  fun n => (Normal tt, {| requests := requests n; console := console n ++ [line] |}).

Definition fetch (r : Request Fields) : M unit :=
  fun n =>
    (network (length (requests n)) r,
     {| requests := requests n ++ [r]; console := console n |}).

Notation "'do' x <- m ; k" := (bind m (fun x => k))
  (at level 10, x name, m at level 100, k at level 200).

(** [error.name === 'TypeError' && error.message.includes('CORS')] *)
Definition isCorsError (e : JSError) : bool :=
  str_eqb (name e) (u16 "TypeError") && includes (u16 "CORS") (message e).

Definition sendRequest (scriptUrl : jsstring) (data : Payload Fields) : M Status :=
  do _ <- log LogPayloadSize;
  try_catch
    (do _ <- fetch {| url := scriptUrl; body := data |};
     do _ <- log LogRequestSent;
     ret sent)
    (fun error =>
       do _ <- log (ErrorSend error);
       if isCorsError error then
         do _ <- log WarnCors;
         ret cors_blocked
       else throw error).

(** [s.split('base64,')[1]], read where [s.includes('base64,')] holds. *)
Definition after_base64 (s : jsstring) : jsstring :=
  default [] (split (u16 "base64,") s !! 1%nat).

(** The computation of [cleanBase64]. *)
Definition cleanBase64 (record : CustomerRecord) : M jsstring :=
  match generatedImageUrl record with
  | Some imageUrl =>
      if truthy imageUrl then
        if startsWith (u16 "http") imageUrl then
          do _ <- log LogUrlDetected;
          ret []
        else
          try_catch
            (do _ <- log LogCompressing;
             do compressedDataUrl <- await (compressBase64Image imageUrl (Qmake 6 10));
             if includes (u16 "base64,") compressedDataUrl
             then ret (after_base64 compressedDataUrl)
             else ret [])
            (fun e =>
               do _ <- log (WarnCompressionFailed e);
               if includes (u16 "base64,") imageUrl
               then ret (after_base64 imageUrl)
               else ret [])
      else ret []
  | None => ret []
  end.

Definition syncToGoogleSheet (record : CustomerRecord) (scriptUrl : jsstring) : M unit :=
  if negb (truthy scriptUrl) then ret tt
  else
    do _ <- log LogSyncing;
    do image <- cleanBase64 record;
    let payload := {| fields := flatten record; imageBase64 := image |} in
    do _ <- log LogPayloadCheck;
    try_catch
      (do result <- sendRequest scriptUrl payload;
       log (LogSyncResult result))
      (fun error =>
         do _ <- log (WarnRetrying error);
         try_catch
           (let textOnlyPayload := {| fields := fields payload; imageBase64 := [] |} in
            do _ <- sendRequest scriptUrl textOnlyPayload;
            log LogRetryCompleted)
           (fun retryError =>
              do _ <- log (ErrorBothFailed retryError);
              log LogCheckManually)).

End Gateway.

Arguments ret {Fields A} a _.
Arguments bind {Fields A B} m k _.
Arguments throw {Fields A} e _.
Arguments try_catch {Fields A} body handler _.
Arguments await {Fields A} c _.
Arguments log {Fields} line _.
Arguments fetch {Fields} network r _.
Arguments sendRequest {Fields} network scriptUrl data _.
Arguments cleanBase64 {CustomerRecord} generatedImageUrl {Fields} compressBase64Image
  record _.
Arguments syncToGoogleSheet {CustomerRecord} generatedImageUrl {Fields} flatten
  compressBase64Image network record scriptUrl _.

End Sheet.

(* ===================================================================== *)
(** * Part III, continued. The other handlers of the form                *)
(* ===================================================================== *)

Module Handlers.

Import Form.

(** ** More setters *)

Definition setStoreCode (v : jsstring) (st : FormState) : FormState :=
  {| realName := realName st; phone := phone st; storeCode := v;
     storeName := storeName st; socialId := socialId st; wristSize := wristSize st;
     isCustomSize := isCustomSize st; addPurificationBag := addPurificationBag st;
     preferredColors := preferredColors st; couponInput := couponInput st;
     appliedCoupon := appliedCoupon st; couponError := couponError st;
     agreed := agreed st; errors := errors st; shakingField := shakingField st |}.

Definition setStoreName (v : jsstring) (st : FormState) : FormState :=
  {| realName := realName st; phone := phone st; storeCode := storeCode st;
     storeName := v; socialId := socialId st; wristSize := wristSize st;
     isCustomSize := isCustomSize st; addPurificationBag := addPurificationBag st;
     preferredColors := preferredColors st; couponInput := couponInput st;
     appliedCoupon := appliedCoupon st; couponError := couponError st;
     agreed := agreed st; errors := errors st; shakingField := shakingField st |}.

Definition setIsCustomSize (v : bool) (st : FormState) : FormState :=
  {| realName := realName st; phone := phone st; storeCode := storeCode st;
     storeName := storeName st; socialId := socialId st; wristSize := wristSize st;
     isCustomSize := v; addPurificationBag := addPurificationBag st;
     preferredColors := preferredColors st; couponInput := couponInput st;
     appliedCoupon := appliedCoupon st; couponError := couponError st;
     agreed := agreed st; errors := errors st; shakingField := shakingField st |}.

Definition setPreferredColors (v : list jsstring) (st : FormState) : FormState :=
  {| realName := realName st; phone := phone st; storeCode := storeCode st;
     storeName := storeName st; socialId := socialId st; wristSize := wristSize st;
     isCustomSize := isCustomSize st; addPurificationBag := addPurificationBag st;
     preferredColors := v; couponInput := couponInput st;
     appliedCoupon := appliedCoupon st; couponError := couponError st;
     agreed := agreed st; errors := errors st; shakingField := shakingField st |}.

(** ** Phone *)

(** The text [handlePhoneChange] derives from a value that is not shorter
    than the cell. *)
Definition formatPhone (val : jsstring) : jsstring :=
  let rawValue := strip_non_digits val in
  let truncated := slice 0 10 rawValue in
  if (7 <? length truncated)%nat then
    slice 0 4 truncated ++ u16 "-" ++ slice 4 7 truncated ++ u16 "-"
    ++ slice_from 7 truncated
  else if (4 <? length truncated)%nat then
    slice 0 4 truncated ++ u16 "-" ++ slice_from 4 truncated
  else truncated.

Definition handlePhoneChange (val : jsstring) (st : FormState) : FormState :=
  if (length val <? length (phone st))%nat then setPhone val st
  else setPhone (formatPhone val) st.

(** ** Wrist size *)

(** [s.replace(/cm/i, '')]: the first [c] or [C] that an [m] or [M]
    follows goes, with it. *)
Fixpoint remove_first_cm (s : jsstring) : jsstring :=
  match s with
  | [] => []
  | c :: r =>
      match r with
      | m :: r' =>
          if ((c =? 99)%N || (c =? 67)%N) && ((m =? 109)%N || (m =? 77)%N)
          then r'
          else c :: remove_first_cm r
      | [] => [c]
      end
  end.

(** The class [[\d.]]. *)
Definition is_digit_or_dot (c : N) : bool := is_digit c || (c =? 46)%N.

(** [s.replace(/[^\d.]/g, '')] *)
Definition keep_digits_and_dots (s : jsstring) : jsstring :=
  List.filter is_digit_or_dot s.

Definition handleWristSizeChange (value : jsstring) (st : FormState) : FormState :=
  let val := keep_digits_and_dots (remove_first_cm value) in
  let parts := split (u16 ".") val in
  if (2 <? length parts)%nat then st
  else setWristSize val st.

(** The [onChange] of the custom-size checkbox of the standard mode. *)
Definition handleCustomSizeToggle (checked : bool) (st : FormState) : FormState :=
  let st := setIsCustomSize checked st in
  if negb checked then setWristSize (u16 "14") st
  else setWristSize [] st.

(** ** Colours *)

(** [a.includes(x)] on an array of strings. *)
Definition array_includes (x : jsstring) (a : list jsstring) : bool :=
  existsb (str_eqb x) a.

Definition toggleColor (color : jsstring) (st : FormState) : FormState :=
  if array_includes color (preferredColors st) then
    setPreferredColors
      (List.filter (fun c => negb (str_eqb c color)) (preferredColors st)) st
  else
    setPreferredColors (preferredColors st ++ [color]) st.

(** ** Coupon removal *)

(** The [onClick] of the button that removes the applied coupon. *)
Definition handleRemoveCoupon (st : FormState) : FormState :=
  setCouponInput [] (setAppliedCoupon None st).

(** ** Store code and store name *)

(** [s.match(/(\d{6})/)]: the leftmost six digits in a row. *)
Fixpoint match_six_digits (s : jsstring) : option jsstring :=
  match s with
  | [] => None
  | _ :: r =>
      if (length (take 6 s) =? 6)%nat && forallb is_digit (take 6 s)
      then Some (take 6 s)
      else match_six_digits r
  end.

(** [s.replace(pat, rep)] for a pattern that is a string, not empty, and a
    replacement without [$]: the first occurrence only. *)
Fixpoint replace_first (pat rep s : jsstring) : jsstring :=
  match s with
  | [] => []
  | c :: r =>
      if startsWith pat s then rep ++ drop (length pat) s
      else c :: replace_first pat rep r
  end.

(** [s.replace(/pat/g, rep)] for a pattern that is a literal text, not
    empty: every occurrence, left to right, without overlap. [skip]
    counts the code units of an occurrence still to be passed over. *)
Fixpoint replace_all_go (pat rep : jsstring) (skip : nat) (s : jsstring) : jsstring :=
  match s with
  | [] => []
  | c :: r =>
      match skip with
      | S k => replace_all_go pat rep k r
      | O =>
          if startsWith pat s
          then rep ++ replace_all_go pat rep (length pat - 1) r
          else c :: replace_all_go pat rep O r
      end
  end.

Definition replace_all (pat rep s : jsstring) : jsstring :=
  replace_all_go pat rep O s.

(** [s.replace(/[()（）]/g, ' ')] *)
Definition brackets_to_spaces (s : jsstring) : jsstring :=
  map (fun c =>
         if (c =? 40)%N || (c =? 41)%N || (c =? 65288)%N || (c =? 65289)%N
         then 32%N else c) s.

Definition store_suffix : jsstring := u16 "門市".

(** The greedy [\S+] of [/(\S+門市)/] once it has taken [k] code units:
    it goes on while it can, then gives back until the suffix follows.
    The result is the number of code units it keeps. *)
Fixpoint greedy_name (s : jsstring) (k : nat) : option nat :=
  match s with
  | [] => None
  | c :: r =>
      match (if is_space c then None else greedy_name r (S k)) with
      | Some k' => Some k'
      | None => if startsWith store_suffix s then Some k else None
      end
  end.

(** [s.match(/(\S+門市)/)]: the leftmost match. *)
Fixpoint match_store_name (s : jsstring) : option jsstring :=
  match s with
  | [] => None
  | c :: r =>
      match (if is_space c then None else greedy_name r 1) with
      | Some k => Some (take (k + 2) s)
      | None => match_store_name r
      end
  end.

(** [s.split(/\s+/)[0]]: what precedes the first whitespace. *)
Fixpoint first_part (s : jsstring) : jsstring :=
  match s with
  | [] => []
  | c :: r => if is_space c then [] else c :: first_part r
  end.

(** [possibleName] *)
Definition possibleName (val code : jsstring) : jsstring :=
  trim
    (replace_all store_suffix (store_suffix ++ u16 " ")
       (brackets_to_spaces
          (replace_all (u16 "店號") []
             (replace_all (u16 "7-11") []
                (replace_first code [] val))))).

Definition handleStoreCodeChange (val : jsstring) (st : FormState) : FormState :=
  let typed := setStoreCode (slice 0 6 (strip_non_digits val)) st in
  if (8 <? length val)%nat then
    match match_six_digits val with
    | Some code =>
        let st := clearError "storeCode" (setStoreCode code st) in
        let name := possibleName val code in
        match match_store_name name with
        | Some found => clearError "storeName" (setStoreName found st)
        | None =>
            if (2 <=? length (first_part name))%nat
            then clearError "storeName" (setStoreName (first_part name) st)
            else st
        end
    | None => typed
    end
  else typed.

End Handlers.

Import Form.

(* ===================================================================== *)
(** * Part IV. The words of the specification, and sample inputs         *)
(* ===================================================================== *)

(** The canonical order of the fields, as the specification lists it. *)
Definition canonical_order : list string :=
  [ "realName"; "phone"; "storeCode"; "storeName"; "socialId"; "wristSize";
    "agreement" ]%string.

(** Whether the rule of a field rejects the current value. *)
Definition field_fails (st : FormState) (field : string) : bool :=
  if String.eqb field "realName" then realName_fails st
  else if String.eqb field "phone" then phone_fails st
  else if String.eqb field "storeCode" then storeCode_fails st
  else if String.eqb field "storeName" then storeName_fails st
  else if String.eqb field "socialId" then socialId_fails st
  else if String.eqb field "wristSize" then wristSize_fails st
  else if String.eqb field "agreement" then agreement_fails st
  else false.

(** The earliest failing field in canonical order, as the specification
    words the choice of the field to emphasise. *)
Definition earliest_failing (st : FormState) : option string :=
  List.find (field_fails st) canonical_order.

(** All the rules pass. *)
Definition valid (st : FormState) : bool :=
  forallb (fun field => negb (field_fails st field)) canonical_order.

(** The control of a field: the input that shows its cell and, for the
    agreement, the panel of the purchase terms. *)
Definition control_of (field : string) : Element :=
  if String.eqb field "agreement" then TermsPanel else Input field.

(** The price the specification's invariant prescribes, in exact
    arithmetic on whole amounts; [discount] is [0] without coupon. *)
Definition invariant_total (basePrice shippingCost surcharge : Z)
    (surchargeApplies bag : bool) (discount : Z) : Z :=
  Z.max 0
    (basePrice + shippingCost
     + (if surchargeApplies then surcharge else 0)
     + (if bag then 200 else 0)
     - discount).

(** The range in which every whole number is a number: up to [2^53] in
    magnitude. *)
Definition safe (z : Z) : Prop := Z.abs z <= 2 ^ 53.

(** A strategy and a coupon whose amounts are the whole numbers [b], [s],
    [u] and [d] ([d] is [0] without coupon). *)
Definition whole_amounts (p : PricingStrategy) (coupon : option AppliedCoupon.t)
    (b s u d : Z) : Prop :=
  basePrice p = of_Z b /\ shippingCost p = of_Z s /\ surcharge p = of_Z u
  /\ match coupon with
     | Some c => AppliedCoupon.amount c = of_Z d
     | None => d = 0
     end.

(** The texts of a list that are not empty, a dash between two of them. *)
Fixpoint dash_joined (parts : list jsstring) : jsstring :=
  match parts with
  | [] => []
  | part :: rest =>
      match part, dash_joined rest with
      | [], joined => joined
      | _, [] => part
      | _, joined => part ++ 45%N :: joined
      end
  end.

(** Every sum the formula goes through, from left to right, stays in the
    safe range. *)
Definition sums_safe (b s u g d : Z) : Prop :=
  safe (b + s) /\ safe (b + s + u) /\ safe (b + s + u + g)
  /\ safe (b + s + u + g - d).

(** Digits in groups of four, three and the rest, a dash between two
    groups: how a phone number is written. *)
Definition grouped (digits : jsstring) : jsstring :=
  dash_joined [take 4 digits; take 3 (drop 4 digits); drop 7 digits].

(** "Exactly one retry of the send with the image field forced empty":
    two requests in all, the second without image. *)
Definition retried_once_without_image {Fields} (n : Sheet.Net Fields) : Prop :=
  exists first second,
    Sheet.requests n = [first; second]
    /\ Sheet.imageBase64 (Sheet.body second) = [].

(** Upper-casing of the letters a-z: what [toUpperCase] does on a text
    that has no other cased character. Used in the sample runs only. *)
Definition ascii_upper (s : jsstring) : jsstring :=
  map (fun c => if (97 <=? c)%N && (c <=? 122)%N then (c - 32)%N else c) s.

Module Sample.

Definition standardPolicy : PricingStrategy :=
  {| type := standard; basePrice := of_Z 2480; shippingCost := of_Z 0;
     sizeThreshold := of_Z 14; surcharge := of_Z 200 |}.

Definition customPolicy : PricingStrategy :=
  {| type := custom; basePrice := of_Z 2680; shippingCost := of_Z 0;
     sizeThreshold := of_Z 16; surcharge := of_Z 300 |}.

Definition save10 : CouponConfig.t :=
  {| CouponConfig.code := u16 "SAVE10"; CouponConfig.discountAmount := of_Z 100;
     CouponConfig.eventName := u16 "Opening"; CouponConfig.isEnabled := true |}.

Definition save10_off : CouponConfig.t :=
  {| CouponConfig.code := u16 "SAVE10"; CouponConfig.discountAmount := of_Z 100;
     CouponConfig.eventName := u16 "Opening"; CouponConfig.isEnabled := false |}.

(** A form filled in correctly, with a phone number typed without dashes
    and the coupon applied. *)
Definition filled : FormState :=
  {| realName := u16 " 王小美 "; phone := u16 "0912345678";
     storeCode := u16 "123456"; storeName := u16 "鑫泰門市";
     socialId := u16 "@mei"; wristSize := u16 "16.5"; isCustomSize := false;
     addPurificationBag := true; preferredColors := [u16 "紅"; u16 "白"];
     couponInput := u16 " save10 ";
     appliedCoupon :=
       Some {| AppliedCoupon.code := u16 "SAVE10"; AppliedCoupon.amount := of_Z 100 |};
     couponError := []; agreed := true; errors := []; shakingField := None |}.

(** The same form with the box of the agreement left unchecked and a
    store code that is too short. *)
Definition unfinished : FormState :=
  setAgreed false
    {| realName := u16 " 王小美 "; phone := u16 "0912345678";
       storeCode := u16 "1234"; storeName := u16 "鑫泰門市";
       socialId := u16 "@mei"; wristSize := u16 "16.5"; isCustomSize := false;
       addPurificationBag := true; preferredColors := [u16 "紅"; u16 "白"];
       couponInput := []; appliedCoupon := None;
       couponError := []; agreed := true; errors := []; shakingField := None |}.

Definition world0 : World :=
  {| localStorage := {[ STORAGE_KEY := Text (draft filled) ]};
     onSubmit := []; scrollIntoView := []; focus := [] |}.

(** A record whose image is raw encoded data, a compressor that answers
    with a smaller encoding, and a network on which every transmission is
    rejected with an error the gateway takes for a cross-origin one. The
    record is reduced to its image reference. *)
Definition photo : jsstring := u16 "data:image/png;base64,iVBORw0KGgo=".

Definition compressor (source : jsstring) (quality : Q) : Sheet.Completion jsstring :=
  Sheet.Normal (u16 "data:image/jpeg;base64,/9j/4AAQ").

Definition corsError : Sheet.JSError :=
  {| Sheet.name := u16 "TypeError";
     Sheet.message := u16 "Failed to fetch: blocked by CORS policy" |}.

Definition networkError : Sheet.JSError :=
  {| Sheet.name := u16 "TypeError"; Sheet.message := u16 "Failed to fetch" |}.

Definition blocked (n : nat) (r : Sheet.Request unit) : Sheet.Completion unit :=
  Sheet.Throw corsError.

Definition offline (n : nat) (r : Sheet.Request unit) : Sheet.Completion unit :=
  Sheet.Throw networkError.

Definition scriptUrl : jsstring := u16 "https://script.google.com/macros/s/AKfy/exec".

Definition idle : Sheet.Net unit := {| Sheet.requests := []; Sheet.console := [] |}.

Definition sync (network : nat -> Sheet.Request unit -> Sheet.Completion unit)
  : Sheet.Completion unit * Sheet.Net unit :=
  Sheet.syncToGoogleSheet (fun r : option jsstring => r) (fun _ => tt)
    compressor network (Some photo) scriptUrl idle.

End Sample.

Import Handlers.

(** The number of dots of a text. *)
Definition count_dots (s : jsstring) : nat := count_occ N.eq_dec s 46%N.

(** A size as the keyboard can produce it: digits with at most one dot. *)
Definition typed_size (s : jsstring) : bool :=
  forallb is_digit_or_dot s && (count_dots s <=? 1)%nat.

(** Whether the cell a field name stands for holds a truthy value, as the
    auto-save effect tests it. *)
Definition cell_truthy (st : FormState) (field : string) : bool :=
  if String.eqb field "realName" then truthy (realName st)
  else if String.eqb field "phone" then truthy (phone st)
  else if String.eqb field "storeCode" then truthy (storeCode st)
  else if String.eqb field "storeName" then truthy (storeName st)
  else if String.eqb field "socialId" then truthy (socialId st)
  else if String.eqb field "wristSize" then truthy (wristSize st)
  else if String.eqb field "agreement" then agreed st
  else false.

(** More sample inputs: an image that is hosted already, a compressor
    that fails, a pasted address, a rejected form, a blank form and a
    strategy with huge amounts. *)
Module More.

Definition hostedPhoto : jsstring := u16 "https://cdn.example.com/peanut/01.jpg".

Definition canvasError : Sheet.JSError :=
  {| Sheet.name := u16 "Error"; Sheet.message := u16 "Canvas is not available" |}.

Definition brokenCompressor (source : jsstring) (quality : Q)
  : Sheet.Completion jsstring :=
  Sheet.Throw canvasError.

(** The text the store map gives to copy, as the comment of
    [handleStoreCodeChange] has it. *)
Definition pastedAddress : jsstring := u16 "7-11 鑫泰門市 (123456) 台北市".

(** The form after a submission that was rejected. *)
Definition rejected : FormState :=
  fst (validateAndSubmit Sample.customPolicy Sample.unfinished Sample.world0).

(** A form nothing was entered in, and a strategy whose amounts add up
    to a whole number beyond the safe range. *)
Definition blank : FormState :=
  {| realName := []; phone := []; storeCode := []; storeName := [];
     socialId := []; wristSize := []; isCustomSize := false;
     addPurificationBag := false; preferredColors := [];
     couponInput := []; appliedCoupon := None; couponError := [];
     agreed := false; errors := []; shakingField := None |}.

Definition hugePolicy : PricingStrategy :=
  {| type := custom; basePrice := of_Z (2 ^ 53); shippingCost := of_Z 1;
     sizeThreshold := of_Z 16; surcharge := of_Z 0 |}.

End More.

(** What remains of an entry once its field is filled in: a message that
    is not empty goes. *)
Definition squash (entry : option jsstring) : option jsstring :=
  match entry with
  | Some (_ :: _) => None
  | other => other
  end.

(* ===================================================================== *)
(** * Part V. Properties                                                 *)
(* ===================================================================== *)

(** ** The JavaScript primitives on the examples of the specification *)

Example Number_reads_a_size :
  Number (u16 "16.5") = Fin (Qmake 33 2)
  /\ Number (u16 "15.5cm") = NaN
  /\ Number (u16 "") = of_Z 0
  /\ Number (u16 "  ") = of_Z 0
  /\ Number (u16 "0.1") = Fin (Qmake 3602879701896397 36028797018963968).
Proof. repeat split; vm_compute; reflexivity. Qed.

Example parseFloat_reads_a_prefix :
  parseFloat (u16 " 15.5cm") = Fin (Qmake 31 2)
  /\ parseFloat (u16 "cm") = NaN
  /\ parseFloat (u16 ".") = NaN
  /\ parseFloat (u16 "30.000000000000000001") = of_Z 30.
Proof. repeat split; vm_compute; reflexivity. Qed.

Example trim_keeps_the_inside :
  trim (u16 "  王 小美　") = u16 "王 小美".
Proof. vm_compute. reflexivity. Qed.

Example dashed_mobile :
  test_mobile (u16 "0912345678") = true
  /\ dashed (u16 "0912345678") = u16 "0912-345-678"
  /\ test_mobile (u16 "12345") = false
  /\ test_six_digits (u16 "abc123") = false
  /\ test_six_digits (u16 "123456") = true.
Proof. repeat split; vm_compute; reflexivity. Qed.

Lemma str_eqb_true (a b : jsstring) : str_eqb a b = true <-> a = b.
Proof. unfold str_eqb. apply bool_decide_eq_true. Qed.

Lemma str_eqb_false (a b : jsstring) : str_eqb a b = false <-> a <> b.
Proof. unfold str_eqb. apply bool_decide_eq_false. Qed.

Lemma truthy_false (s : jsstring) : truthy s = false <-> s = [].
Proof. destruct s; simpl; split; intros H; congruence. Qed.

(** ** Rounding *)

Lemma pow2_power (e : Z) : (pow2 e == 2 ^ e)%Q.
Proof.
  unfold pow2. destruct (Z.leb_spec 0 e) as [Hpos | Hneg].
  - apply (Zpower_Qpower 2 e Hpos).
  - replace e with (- (- e)) at 2 by lia.
    rewrite Qpower_opp, <- (Zpower_Qpower 2 (- e)) by lia.
    assert (Hk : 0 < 2 ^ (- e)) by (apply Z.pow_pos_nonneg; lia).
    destruct (2 ^ (- e)) as [| k | k]; try lia. reflexivity.
Qed.

Lemma pow2_pos (e : Z) : (0 < pow2 e)%Q.
Proof. rewrite pow2_power. apply Qpower_0_lt. reflexivity. Qed.

Lemma pow2_add (a b : Z) : (pow2 (a + b) == pow2 a * pow2 b)%Q.
Proof. rewrite !pow2_power. apply Qpower_plus. discriminate. Qed.

Lemma pow2_le (a b : Z) : a <= b -> (pow2 a <= pow2 b)%Q.
Proof. intros H. rewrite !pow2_power. apply Qpower_le_compat_l; [exact H | discriminate]. Qed.

Lemma pow2_lt_inv (a b : Z) : (pow2 a < pow2 b)%Q -> a < b.
Proof.
  rewrite !pow2_power. intros H. apply (Qpower_lt_compat_l_inv 2); [exact H | reflexivity].
Qed.

Lemma pow2_inject (n : Z) : 0 <= n -> (pow2 n == inject_Z (2 ^ n))%Q.
Proof. intros H. unfold pow2. destruct (Z.leb_spec 0 n); [reflexivity | lia]. Qed.

Lemma Qmult_le_l_gen (a x y : Q) : (0 <= a)%Q -> (x <= y)%Q -> (a * x <= a * y)%Q.
Proof.
  intros Ha Hxy. rewrite (Qmult_comm a x), (Qmult_comm a y).
  apply Qmult_le_compat_r; assumption.
Qed.

Lemma Qabs_make (q : Q) : Qabs q = Qmake (Z.abs (Qnum q)) (Qden q).
Proof. destruct q; reflexivity. Qed.

Lemma exponent_spec (q : Q) :
  Qnum q <> 0 ->
  (pow2 (exponent q) <= Qabs q)%Q /\ (Qabs q < pow2 (exponent q + 1))%Q.
Proof.
  intros Hq. unfold exponent.
  set (n := Z.abs (Qnum q)). set (d := Zpos (Qden q)).
  assert (Hn : 0 < n) by (unfold n; lia).
  assert (Hd : 0 < d) by (unfold d; lia).
  destruct (Z.log2_spec n Hn) as [Hn1 Hn2]. destruct (Z.log2_spec d Hd) as [Hd1 Hd2].
  pose proof (Z.log2_nonneg n) as Hln. pose proof (Z.log2_nonneg d) as Hld.
  set (ln := Z.log2 n) in *. set (ld := Z.log2 d) in *.
  set (a := Qabs q).
  assert (Ha : (a * inject_Z d == inject_Z n)%Q).
  { unfold a. rewrite Qabs_make. fold n. unfold Qeq, d. simpl. lia. }
  assert (Ha0 : (0 <= a)%Q) by apply Qabs_nonneg.
  set (X := pow2 (ln - ld)).
  assert (HX : (X * inject_Z (2 ^ ld) == inject_Z (2 ^ ln))%Q).
  { unfold X. rewrite <- !pow2_inject by assumption. rewrite <- pow2_add.
    replace (ln - ld + ld) with ln by lia. reflexivity. }
  assert (HX0 : (0 < X)%Q) by apply pow2_pos.
  assert (HD : (0 < inject_Z (2 ^ ld))%Q).
  { rewrite <- pow2_inject by assumption. apply pow2_pos. }
  assert (Hn1' : (inject_Z (2 ^ ln) <= inject_Z n)%Q) by (rewrite <- Zle_Qle; exact Hn1).
  assert (Hn2' : (inject_Z n < 2 * inject_Z (2 ^ ln))%Q).
  { change (2 * inject_Z (2 ^ ln))%Q with (inject_Z 2 * inject_Z (2 ^ ln))%Q.
    rewrite <- inject_Z_mult, <- Zlt_Qlt.
    replace (Z.succ ln) with (ln + 1) in Hn2 by lia.
    rewrite Z.pow_add_r in Hn2 by lia. lia. }
  assert (Hd1' : (inject_Z (2 ^ ld) <= inject_Z d)%Q) by (rewrite <- Zle_Qle; exact Hd1).
  assert (Hd2' : (inject_Z d < 2 * inject_Z (2 ^ ld))%Q).
  { change (2 * inject_Z (2 ^ ld))%Q with (inject_Z 2 * inject_Z (2 ^ ld))%Q.
    rewrite <- inject_Z_mult, <- Zlt_Qlt.
    replace (Z.succ ld) with (ld + 1) in Hd2 by lia.
    rewrite Z.pow_add_r in Hd2 by lia. lia. }
  assert (Hd0 : (0 < inject_Z d)%Q) by (change 0%Q with (inject_Z 0); rewrite <- Zlt_Qlt; exact Hd).
  assert (Hup : (a < pow2 (ln - ld + 1))%Q).
  { rewrite pow2_add. fold X. change (pow2 1) with 2%Q.
    apply (Qmult_lt_r _ _ (inject_Z (2 ^ ld)) HD).
    apply Qle_lt_trans with (a * inject_Z d)%Q.
    - apply Qmult_le_l_gen; assumption.
    - rewrite Ha. assert (E : ((X * 2 * inject_Z (2 ^ ld)) == (2 * (X * inject_Z (2 ^ ld))))%Q) by ring;
        rewrite E; clear E.
      rewrite HX. exact Hn2'. }
  assert (Hlow : (pow2 (ln - ld - 1) <= a)%Q).
  { apply (Qmult_le_r _ _ (2 * inject_Z d)%Q).
    - apply Qmult_lt_0_compat; [reflexivity | exact Hd0].
    - assert (E : ((a * (2 * inject_Z d)) == (2 * (a * inject_Z d)))%Q) by ring;
        rewrite E; clear E.
      rewrite Ha.
      assert (Hhalf : (pow2 (ln - ld - 1) * 2 == X)%Q).
      { unfold X. replace (ln - ld) with (ln - ld - 1 + 1) at 2 by lia.
        rewrite (pow2_add (ln - ld - 1) 1). reflexivity. }
      assert (E : ((pow2 (ln - ld - 1) * (2 * inject_Z d)) == (pow2 (ln - ld - 1) * 2 * inject_Z d))%Q) by ring;
        rewrite E; clear E.
      rewrite Hhalf.
      apply Qle_trans with (X * (2 * inject_Z (2 ^ ld)))%Q.
      + apply Qmult_le_l_gen; [apply Qlt_le_weak, HX0 | apply Qlt_le_weak, Hd2'].
      + assert (E : ((X * (2 * inject_Z (2 ^ ld))) == (2 * (X * inject_Z (2 ^ ld))))%Q) by ring;
        rewrite E; clear E.
        rewrite HX. apply Qmult_le_l_gen; [discriminate | exact Hn1']. }
  fold a. fold X. destruct (Qle_bool X a) eqn:Htest.
  - split; [apply Qle_bool_iff, Htest | exact Hup].
  - split; [exact Hlow |].
    replace (ln - ld - 1 + 1) with (ln - ld) by lia.
    apply Qnot_le_lt. intros Hle. apply Qle_bool_iff in Hle.
    unfold X in Htest. rewrite Hle in Htest. discriminate Htest.
Qed.

Lemma round_half_even_int (x : Q) (k : Z) :
  (x == inject_Z k)%Q -> round_half_even x = k.
Proof.
  intros Hx. unfold round_half_even.
  assert (Hf : Qfloor x = k) by (rewrite Hx; apply Qfloor_Z).
  rewrite Hf.
  assert (Hc : ((x - inject_Z k) ?= (1 # 2))%Q = Lt).
  { apply Qlt_alt. rewrite Hx. unfold Qminus. rewrite Qplus_opp_r. reflexivity. }
  rewrite Hc. reflexivity.
Qed.

Lemma round_half_even_le (x : Q) (K : Z) :
  (x <= inject_Z K)%Q -> round_half_even x <= K.
Proof.
  intros Hx. unfold round_half_even.
  pose proof (Qfloor_le x) as Hfloor.
  assert (Hf : Qfloor x <= K).
  { rewrite <- (Qfloor_Z K). apply Qfloor_resp_le, Hx. }
  assert (Hstrict : (inject_Z (Qfloor x) < x)%Q -> Qfloor x + 1 <= K).
  { intros Hlt. assert (H : (inject_Z (Qfloor x) < inject_Z K)%Q)
      by (apply Qlt_le_trans with x; assumption).
    rewrite <- Zlt_Qlt in H. lia. }
  destruct ((x - inject_Z (Qfloor x)) ?= (1 # 2))%Q eqn:Hc.
  - apply Qeq_alt in Hc.
    assert (Hlt : (inject_Z (Qfloor x) < x)%Q) by lra.
    destruct (Z.even (Qfloor x)); [exact Hf | exact (Hstrict Hlt)].
  - exact Hf.
  - apply Qgt_alt in Hc. apply Hstrict. lra.
Qed.

Lemma round_half_even_nonneg (x : Q) : (0 <= x)%Q -> 0 <= round_half_even x.
Proof.
  intros Hx. unfold round_half_even.
  assert (Hf : 0 <= Qfloor x).
  { change 0 with (Qfloor (inject_Z 0)). apply Qfloor_resp_le, Hx. }
  destruct ((x - inject_Z (Qfloor x)) ?= (1 # 2))%Q; [destruct (Z.even _) | |]; lia.
Qed.

(** What [binary64] computes on a value that is not zero. *)
Lemma binary64_nonzero (q : Q) :
  Qnum q <> 0 ->
  binary64 q
  = let v := Qmult (inject_Z (round_half_even (Qdiv (Qabs q) (pow2 (quantum q)))))
                   (pow2 (quantum q)) in
    if Qle_bool (pow2 1024) v then Inf (Qnum q <? 0)
    else Fin (Qred (if Qnum q <? 0 then Qopp v else v)).
Proof.
  intros Hq. unfold binary64, quantum, exponent.
  destruct (Qnum q) eqn:Hnum; [contradiction | reflexivity | reflexivity].
Qed.

Lemma signed_abs (q v : Q) :
  (Qabs q == v)%Q -> ((if Qnum q <? 0 then Qopp v else v) == q)%Q.
Proof.
  intros Hv. destruct (Z.ltb_spec (Qnum q) 0) as [Hneg | Hpos].
  - rewrite <- Hv, Qabs_neg; [apply Qopp_involutive |].
    unfold Qle. simpl. lia.
  - rewrite <- Hv. apply Qabs_pos. unfold Qle. simpl. lia.
Qed.

(** A value that is a whole multiple of its quantum, below the overflow
    threshold, is not changed by the rounding. *)
Lemma binary64_exact (q : Q) (k : Z) :
  Qnum q <> 0 ->
  (Qabs q == inject_Z k * pow2 (quantum q))%Q ->
  (Qabs q < pow2 1024)%Q ->
  binary64 q = Fin (Qred q).
Proof.
  intros Hq Hk Hsmall. rewrite (binary64_nonzero q Hq). cbv zeta.
  assert (Hm : round_half_even (Qabs q / pow2 (quantum q)) = k).
  { apply round_half_even_int. rewrite Hk. field.
    intros H0. pose proof (pow2_pos (quantum q)) as Hp. rewrite H0 in Hp. discriminate Hp. }
  rewrite Hm.
  assert (Hover : Qle_bool (pow2 1024) (inject_Z k * pow2 (quantum q)) = false).
  { destruct (Qle_bool _ _) eqn:Htest; [| reflexivity].
    apply Qle_bool_iff in Htest. rewrite <- Hk in Htest.
    exfalso. apply (Qlt_irrefl (pow2 1024)). apply Qle_lt_trans with (Qabs q); assumption. }
  rewrite Hover. f_equal. apply Qred_complete. apply signed_abs. exact Hk.
Qed.

Lemma pow2_scale (p p' : Z) :
  p' <= p -> (pow2 p == inject_Z (2 ^ (p - p')) * pow2 p')%Q.
Proof.
  intros H. rewrite <- pow2_inject by lia. rewrite <- pow2_add.
  replace (p - p' + p') with p by lia. reflexivity.
Qed.

Lemma Qnum_nonzero (q : Q) : ~ (q == 0)%Q -> Qnum q <> 0.
Proof. intros H E. apply H. unfold Qeq. simpl. rewrite E. reflexivity. Qed.

(** Whole numbers up to [2^53] in magnitude are numbers. *)
Lemma binary64_of_Z (z : Z) : Z.abs z <= 2 ^ 53 -> binary64 (inject_Z z) = of_Z z.
Proof.
  intros Hz. destruct (Z.eq_dec z 0) as [-> | Hnz]; [reflexivity |].
  assert (Hq : Qnum (inject_Z z) <> 0) by exact Hnz.
  assert (Habs : (Qabs (inject_Z z) == inject_Z (Z.abs z))%Q) by (rewrite Qabs_make; reflexivity).
  destruct (exponent_spec _ Hq) as [Hlow Hup]. rewrite Habs in Hlow, Hup.
  set (e := exponent (inject_Z z)) in *.
  assert (He0 : 0 <= e).
  { assert (H : (pow2 0 < pow2 (e + 1))%Q).
    { apply Qle_lt_trans with (inject_Z (Z.abs z)); [| exact Hup].
      change (pow2 0) with (inject_Z 1). rewrite <- Zle_Qle. lia. }
    apply pow2_lt_inv in H. lia. }
  assert (He53 : e <= 53).
  { assert (H : (pow2 e < pow2 54)%Q).
    { apply Qle_lt_trans with (inject_Z (Z.abs z)); [exact Hlow |].
      rewrite (pow2_inject 54) by lia. rewrite <- Zlt_Qlt.
      apply Z.le_lt_trans with (2 ^ 53); [exact Hz | reflexivity]. }
    apply pow2_lt_inv in H. lia. }
  assert (Hquantum : quantum (inject_Z z) = e - 52) by (unfold quantum; fold e; lia).
  assert (Hexact : exists k, (Qabs (inject_Z z) == inject_Z k * pow2 (quantum (inject_Z z)))%Q).
  { rewrite Hquantum. destruct (Z.le_gt_cases e 52) as [Hle | Hgt].
    - exists (Z.abs z * 2 ^ (0 - (e - 52))). rewrite Habs.
      rewrite inject_Z_mult, <- Qmult_assoc, <- (pow2_scale 0 (e - 52)) by lia.
      change (pow2 0) with 1%Q. ring.
    - assert (He : e = 53) by lia.
      assert (Hz' : Z.abs z = 2 ^ 53).
      { apply Z.le_antisymm; [exact Hz |].
        rewrite He in Hlow. rewrite (pow2_inject 53) in Hlow by lia.
        rewrite <- Zle_Qle in Hlow. exact Hlow. }
      exists (2 ^ 52). rewrite Habs, He, Hz'. reflexivity. }
  destruct Hexact as [k Hk].
  rewrite (binary64_exact _ k Hq Hk).
  - unfold of_Z. f_equal. apply Qred_identity. simpl. apply Z.gcd_1_r.
  - rewrite Habs. rewrite (pow2_inject 1024) by lia. rewrite <- Zlt_Qlt.
    apply Z.le_lt_trans with (2 ^ 53); [exact Hz |]. apply Z.pow_lt_mono_r; lia.
Qed.

Lemma pow2_lt (a b : Z) : a < b -> (pow2 a < pow2 b)%Q.
Proof. intros H. rewrite !pow2_power. apply Qpower_lt_compat_l; [exact H | reflexivity]. Qed.

Lemma pow2_le_inv (a b : Z) : (pow2 a <= pow2 b)%Q -> a <= b.
Proof.
  intros H. destruct (Z.le_gt_cases a b) as [Hle | Hgt]; [exact Hle |].
  apply pow2_lt in Hgt. exfalso. apply (Qlt_irrefl (pow2 b)).
  apply Qlt_le_trans with (pow2 a); assumption.
Qed.

(** The result of a rounding is not changed by another rounding. *)
Lemma binary64_idem (q q' : Q) : binary64 q = Fin q' -> binary64 q' = Fin q'.
Proof.
  intros H. destruct (Z.eq_dec (Qnum q) 0) as [Hz | Hnz].
  - unfold binary64 in H. rewrite Hz in H. injection H as <-. reflexivity.
  - rewrite (binary64_nonzero q Hnz) in H. cbv zeta in H.
    destruct (exponent_spec q Hnz) as [_ Hup].
    pose proof (Qabs_nonneg q) as Ha0.
    set (a := Qabs q) in *.
    assert (Hp : quantum q + 53 >= exponent q + 1) by (unfold quantum; lia).
    set (p := quantum q) in *.
    pose proof (pow2_pos p) as Hp0.
    set (m := round_half_even (a / pow2 p)) in *.
    destruct (Qle_bool (pow2 1024) (inject_Z m * pow2 p)) eqn:Hover; [discriminate |].
    injection H as Hq'.
    assert (Hm0 : 0 <= m).
    { apply round_half_even_nonneg. apply Qle_shift_div_l; [exact Hp0 |].
      rewrite Qmult_0_l. exact Ha0. }
    assert (Hm53 : m <= 2 ^ 53).
    { apply round_half_even_le. apply Qle_shift_div_r; [exact Hp0 |].
      rewrite <- (pow2_inject 53), <- pow2_add by lia.
      apply Qlt_le_weak. apply Qlt_le_trans with (pow2 (exponent q + 1)); [exact Hup |].
      apply pow2_le. lia. }
    set (v := (inject_Z m * pow2 p)%Q) in *.
    destruct (Z.eq_dec m 0) as [Hm | Hm].
    + assert (Hzero : q' = 0%Q).
      { subst q'. change 0%Q with (Qred 0). apply Qred_complete.
        assert (Hv : (v == 0)%Q) by (unfold v; rewrite Hm; ring).
        destruct (Qnum q <? 0); rewrite Hv; reflexivity. }
      rewrite Hzero. reflexivity.
    + assert (Hvpos : (0 < v)%Q).
      { unfold v. apply Qmult_lt_0_compat; [| exact Hp0].
        change 0%Q with (inject_Z 0). rewrite <- Zlt_Qlt. lia. }
      assert (Habs : (Qabs q' == v)%Q).
      { subst q'. rewrite Qred_correct.
        destruct (Qnum q <? 0); [rewrite Qabs_opp |];
          apply Qabs_pos, Qlt_le_weak, Hvpos. }
      assert (Hq'nz : Qnum q' <> 0).
      { apply Qnum_nonzero. intros E. rewrite E in Habs.
        rewrite <- Habs in Hvpos. discriminate Hvpos. }
      destruct (exponent_spec q' Hq'nz) as [Hlow' Hup']. rewrite Habs in Hlow', Hup'.
      assert (Hexact : exists k, (v == inject_Z k * pow2 (quantum q'))%Q).
      { unfold quantum at 1. set (e' := exponent q') in *.
        destruct (Z.eq_dec m (2 ^ 53)) as [Htop | Hbelow].
        - assert (Hv : (v == pow2 (p + 53))%Q).
          { unfold v. rewrite Htop, pow2_add, (pow2_inject 53) by lia. ring. }
          rewrite Hv in Hlow', Hup'.
          apply pow2_le_inv in Hlow'. apply pow2_lt_inv in Hup'.
          assert (He' : e' = p + 53) by lia.
          assert (Hq : Z.max e' (-1022) - 52 = p + 1) by (unfold p, quantum in *; lia).
          exists (2 ^ 52). rewrite Hq, Hv.
          replace (p + 53) with (52 + (p + 1)) by lia.
          rewrite pow2_add, (pow2_inject 52) by lia. reflexivity.
        - assert (Hv : (v < pow2 (p + 53))%Q).
          { unfold v. rewrite (Qmult_comm (inject_Z m)), pow2_add, (pow2_inject 53) by lia.
            apply Qmult_lt_l; [exact Hp0 |]. rewrite <- Zlt_Qlt. lia. }
          assert (He' : e' < p + 53).
          { apply pow2_lt_inv. apply Qle_lt_trans with v; assumption. }
          assert (Hq : Z.max e' (-1022) - 52 <= p) by (unfold p, quantum in *; lia).
          exists (m * 2 ^ (p - (Z.max e' (-1022) - 52))).
          unfold v. rewrite inject_Z_mult, <- Qmult_assoc, <- pow2_scale by exact Hq.
          reflexivity. }
      destruct Hexact as [k Hk]. rewrite <- Habs in Hk.
      rewrite (binary64_exact q' k Hq'nz Hk).
      * f_equal. subst q'. apply Qred_involutive.
      * rewrite Habs. apply Qnot_le_lt. intros Hle.
        apply Qle_bool_iff in Hle. fold v in Hover. congruence.
Qed.

(** ** Arithmetic on numbers *)

Lemma num_add_is_double (x y : number) : is_double (num_add x y).
Proof.
  destruct x as [| a | a], y as [| b | b]; simpl; try exact I.
  - destruct (Bool.eqb a b); exact I.
  - destruct (binary64 (a + b)) as [| n | q'] eqn:Hsum; simpl; try exact I.
    exact (binary64_idem _ _ Hsum).
Qed.

Lemma Qplus_zero (q : Q) : Qplus q (Qopp (inject_Z 0)) = q.
Proof.
  destruct q as [n d]. unfold Qplus. simpl.
  rewrite Z.mul_1_r, Z.add_0_r, Pos.mul_1_r. reflexivity.
Qed.

(** [x - 0] is [x]. *)
Lemma num_sub_zero (x : number) : is_double x -> num_sub x (of_Z 0) = x.
Proof.
  destruct x as [| n | q]; [reflexivity | reflexivity |].
  intros Hq. unfold num_sub, num_neg, num_add, of_Z. rewrite Qplus_zero. exact Hq.
Qed.

(** Sums and differences of whole numbers are exact in the safe range. *)
Lemma num_add_whole (x y : Z) : safe (x + y) -> num_add (of_Z x) (of_Z y) = of_Z (x + y).
Proof.
  intros Hsafe. unfold num_add, of_Z. rewrite <- inject_Z_plus.
  apply binary64_of_Z, Hsafe.
Qed.

Lemma num_sub_whole (x y : Z) : safe (x - y) -> num_sub (of_Z x) (of_Z y) = of_Z (x - y).
Proof.
  intros Hsafe. unfold num_sub, num_neg, of_Z. rewrite <- inject_Z_opp.
  apply (num_add_whole x (- y)). exact Hsafe.
Qed.

Lemma Math_max_whole (t : Z) : Math_max (of_Z 0) (of_Z t) = of_Z (Z.max 0 t).
Proof.
  destruct t; reflexivity.
Qed.

(** [Math.max(0, x)] is never below zero, whatever [x]. *)
Lemma Math_max_zero_not_negative (x : number) :
  num_lt (Math_max (of_Z 0) x) (of_Z 0) = false.
Proof.
  destruct x as [| [|] | q]; try reflexivity.
  cbv beta iota delta [Math_max num_ge num_lt num_compare isNaN orb of_Z].
  destruct (Qcompare (inject_Z 0) q) eqn:Hc; cbv beta iota; try reflexivity.
  rewrite <- (Qcompare_antisym (inject_Z 0) q), Hc. reflexivity.
Qed.

(** ** Pricing *)

Lemma totalPrice_whole (p : PricingStrategy) (st : FormState) (b s u d : Z) :
  whole_amounts p (appliedCoupon st) b s u d ->
  sums_safe b s (if isSurchargeApplicable p st then u else 0)
    (if addPurificationBag st then 200 else 0) d ->
  totalPrice p st
  = of_Z (invariant_total b s u (isSurchargeApplicable p st) (addPurificationBag st) d).
Proof.
  intros (Hb & Hs & Hu & Hd) (H1 & H2 & H3 & H4).
  unfold totalPrice, baseTotal, discount, invariant_total, PURIFICATION_BAG_COST.
  rewrite Hb, Hs, Hu, (num_add_whole b s H1).
  replace (if isSurchargeApplicable p st then of_Z u else of_Z 0)
    with (of_Z (if isSurchargeApplicable p st then u else 0))
    by (destruct (isSurchargeApplicable p st); reflexivity).
  rewrite (num_add_whole _ _ H2).
  replace (if addPurificationBag st then of_Z 200 else of_Z 0)
    with (of_Z (if addPurificationBag st then 200 else 0))
    by (destruct (addPurificationBag st); reflexivity).
  rewrite (num_add_whole _ _ H3).
  replace (match appliedCoupon st with
           | Some c => AppliedCoupon.amount c
           | None => of_Z 0
           end) with (of_Z d)
    by (destruct (appliedCoupon st); [symmetry; exact Hd | rewrite Hd; reflexivity]).
  rewrite (num_sub_whole _ _ H4). apply Math_max_whole.
Qed.

(** Without coupon nothing is taken off: subtracting zero from a sum
    gives the sum. *)
Lemma totalPrice_without_coupon (p : PricingStrategy) (st : FormState) :
  appliedCoupon st = None ->
  totalPrice p st = Math_max (of_Z 0) (baseTotal p st).
Proof.
  intros Hnone. unfold totalPrice, discount. rewrite Hnone.
  rewrite num_sub_zero; [reflexivity |].
  unfold baseTotal. apply num_add_is_double.
Qed.

(** C1. For every pricing strategy, every state of the selections and
    every applied coupon or none, the total that is displayed, and that a
    submission carries, is
    [max(0, basePrice + shippingCost + (surcharge if it applies)
    + (200 if the purification bag is selected) - (the coupon's amount))],
    with the additions, the subtraction and the maximum of numbers; it is
    never below zero. When the amounts are whole numbers and the sums stay
    within [2^53] in magnitude, no operation rounds, and the total is the
    whole number the formula gives in exact arithmetic. *)
Theorem total_price_invariant (p : PricingStrategy) (st : FormState) :
  totalPrice p st
  = Math_max (of_Z 0)
      (num_sub
         (num_add
            (num_add
               (num_add (basePrice p) (shippingCost p))
               (if isSurchargeApplicable p st then surcharge p else of_Z 0))
            (if addPurificationBag st then of_Z 200 else of_Z 0))
         (match appliedCoupon st with
          | Some c => AppliedCoupon.amount c
          | None => of_Z 0
          end))
  /\ ShippingDetails.totalPrice (details p st) = totalPrice p st
  /\ num_lt (totalPrice p st) (of_Z 0) = false
  /\ forall b s u d : Z,
       whole_amounts p (appliedCoupon st) b s u d ->
       sums_safe b s (if isSurchargeApplicable p st then u else 0)
         (if addPurificationBag st then 200 else 0) d ->
       totalPrice p st
       = of_Z (invariant_total b s u (isSurchargeApplicable p st)
                 (addPurificationBag st) d)
       /\ 0 <= invariant_total b s u (isSurchargeApplicable p st)
                 (addPurificationBag st) d.
Proof.
  split; [reflexivity |]. split; [reflexivity |]. split.
  - unfold totalPrice. apply Math_max_zero_not_negative.
  - intros b s u d Hwhole Hsafe. split.
    + exact (totalPrice_whole p st b s u d Hwhole Hsafe).
    + unfold invariant_total. apply Z.le_max_l.
Qed.

Lemma total_price_invariant_witness :
  whole_amounts Sample.customPolicy (appliedCoupon Sample.filled) 2680 0 300 100
  /\ sums_safe 2680 0 300 200 100
  /\ totalPrice Sample.customPolicy Sample.filled = of_Z 3080.
Proof.
  assert (Hwhole : whole_amounts Sample.customPolicy (appliedCoupon Sample.filled)
                     2680 0 300 100) by (repeat split).
  assert (Hsafe : sums_safe 2680 0 300 200 100) by (unfold sums_safe, safe; simpl; lia).
  split; [exact Hwhole |]. split; [exact Hsafe |].
  destruct (total_price_invariant Sample.customPolicy Sample.filled)
    as (_ & _ & _ & Hexact).
  exact (proj1 (Hexact 2680 0 300 100 Hwhole Hsafe)).
Defined.

Example total_price_clamped :
  totalPrice Sample.customPolicy
    (setAppliedCoupon
       (Some {| AppliedCoupon.code := u16 "VIP"; AppliedCoupon.amount := of_Z 5000 |})
       Sample.filled) = of_Z 0.
Proof. vm_compute. reflexivity. Qed.

(** Beyond the safe range a sum rounds: [2^53 + 1] is not a number, and
    the total of a base price of [2^53] and a shipping cost of [1] is
    [2^53], one less than the formula gives in exact arithmetic. *)
Example total_rounds_beyond_the_safe_range :
  totalPrice More.hugePolicy More.blank = of_Z (2 ^ 53)
  /\ invariant_total (2 ^ 53) 1 0 false false 0 = 2 ^ 53 + 1
  /\ ~ safe (2 ^ 53 + 1).
Proof.
  split; [vm_compute; reflexivity |]. split; [reflexivity |].
  unfold safe. simpl. lia.
Qed.

(** C2. Under a [standard] strategy the surcharge applies exactly when the
    custom-size toggle is on, whatever the wrist-size text; under a
    [custom] strategy it applies exactly when the text is not empty and
    [Number] reads it as a number, not [NaN], that is at least
    [sizeThreshold]; an empty text, or one that [Number] does not read as
    a number, never makes it apply. *)
Theorem surcharge_applicability (p : PricingStrategy) (st : FormState) :
  match type p with
  | standard =>
      forall text, isSurchargeApplicable p (setWristSize text st) = isCustomSize st
  | custom =>
      (isSurchargeApplicable p st = true
       <-> wristSize st <> []
           /\ isNaN (Number (wristSize st)) = false
           /\ num_ge (Number (wristSize st)) (sizeThreshold p) = true)
      /\ (wristSize st = [] \/ isNaN (Number (wristSize st)) = true
          -> isSurchargeApplicable p st = false)
  end.
Proof.
  unfold isSurchargeApplicable, isStandard.
  destruct (type p).
  - intros text. reflexivity.
  - split.
    + rewrite !andb_true_iff, !negb_true_iff, str_eqb_false. tauto.
    + intros [Hempty | Hnan].
      * rewrite Hempty. reflexivity.
      * rewrite Hnan. simpl. rewrite andb_false_r. reflexivity.
Qed.

(** The toggle decides alone under a standard strategy, and the size read
    decides under a custom one. *)
Lemma surcharge_applicability_witness :
  isSurchargeApplicable Sample.standardPolicy
    (setWristSize (u16 "19") Sample.filled) = false
  /\ isSurchargeApplicable Sample.customPolicy Sample.filled = true
  /\ isSurchargeApplicable Sample.customPolicy
       (setWristSize (u16 "15.5cm") Sample.filled) = false.
Proof.
  split; [| split].
  - exact (surcharge_applicability Sample.standardPolicy Sample.filled (u16 "19")).
  - apply (proj1 (surcharge_applicability Sample.customPolicy Sample.filled)).
    vm_compute. repeat split; discriminate.
  - apply (proj2 (surcharge_applicability Sample.customPolicy
                    (setWristSize (u16 "15.5cm") Sample.filled))).
    right. vm_compute. reflexivity.
Defined.

Example surcharge_threshold_is_inclusive :
  isSurchargeApplicable Sample.customPolicy (setWristSize (u16 "16") Sample.filled) = true
  /\ isSurchargeApplicable Sample.customPolicy (setWristSize (u16 "15.9") Sample.filled) = false
  /\ isSurchargeApplicable Sample.customPolicy (setWristSize (u16 " ") Sample.filled) = false
  /\ isSurchargeApplicable Sample.customPolicy (setWristSize [] Sample.filled) = false.
Proof. repeat split; vm_compute; reflexivity. Qed.

(** A text that is blank for [trim] reads as zero, which is below any
    positive threshold: whitespace alone does not trigger the surcharge. *)
Lemma blank_size_never_applies (p : PricingStrategy) (st : FormState) :
  type p = custom ->
  num_gt (sizeThreshold p) (of_Z 0) = true ->
  trim (wristSize st) = [] ->
  isSurchargeApplicable p st = false.
Proof.
  intros Hty Hpos Hblank.
  unfold isSurchargeApplicable, isStandard. rewrite Hty.
  assert (HN : Number (wristSize st) = Fin (inject_Z 0)).
  { unfold Number. rewrite Hblank. reflexivity. }
  rewrite HN.
  destruct (sizeThreshold p) as [| [|] | q]; simpl in *; try discriminate;
    try (rewrite andb_false_r; reflexivity).
  unfold num_gt, num_ge, of_Z in *. simpl in *.
  rewrite <- (Qcompare_antisym q (inject_Z 0)).
  destruct (Qcompare q (inject_Z 0)); try discriminate.
  simpl. rewrite andb_false_r. reflexivity.
Qed.

(** ** Validation *)

Lemma find_head_filter {A} (f : A -> bool) (l : list A) :
  List.find f l = head (List.filter f l).
Proof.
  induction l as [| a l IH]; simpl; [reflexivity |].
  destruct (f a); simpl; [reflexivity | exact IH].
Qed.

Lemma filter_nil_forallb {A} (f : A -> bool) (l : list A) :
  List.filter f l = [] <-> forallb (fun a => negb (f a)) l = true.
Proof.
  induction l as [| a l IH]; simpl; [tauto |].
  destruct (f a); simpl; [split; discriminate | exact IH].
Qed.

(** The names in the error mapping are the failing fields, and
    [Object.keys] lists them in canonical order. *)
Lemma keys_newErrors (st : FormState) :
  Obj.keys (newErrors st) = List.filter (field_fails st) canonical_order.
Proof.
  unfold newErrors, set_if, canonical_order, field_fails.
  destruct (realName_fails st), (phone_fails st), (storeCode_fails st),
    (storeName_fails st), (socialId_fails st), (wristSize_fails st),
    (agreement_fails st); reflexivity.
Qed.

Lemma keys_nil {V} (o : Obj.t V) : Obj.keys o = [] <-> o = [].
Proof.
  split; [| intros ->; reflexivity].
  destruct o as [| [k v] o]; [reflexivity |].
  intros H. apply (f_equal (@length string)) in H.
  unfold Obj.keys in H. rewrite length_app in H. simpl in H.
  destruct (Obj.array_index k) as [n |] eqn:Hk; simpl in H.
  - rewrite length_map in H.
    destruct (flat_map _ (map fst o)); simpl in H;
      [discriminate |].
    match type of H with
    | (length (Obj.insert_index ?e ?l) + _)%nat = _ =>
        destruct (Obj.insert_index e l) eqn:Hi
    end; [| discriminate].
    exfalso. clear -Hi.
    match type of Hi with
    | Obj.insert_index ?e ?l = [] => destruct l as [| e' l']; simpl in Hi
    end; [discriminate |].
    destruct (_ <=? _)%N; discriminate.
  - lia.
Qed.

Lemma valid_no_errors (st : FormState) : valid st = true <-> newErrors st = [].
Proof.
  rewrite <- keys_nil, keys_newErrors, filter_nil_forallb. reflexivity.
Qed.

Lemma valid_rules (st : FormState) :
  valid st = true <->
  realName_fails st = false /\ phone_fails st = false
  /\ storeCode_fails st = false /\ storeName_fails st = false
  /\ socialId_fails st = false /\ wristSize_fails st = false
  /\ agreement_fails st = false.
Proof.
  unfold valid, canonical_order, field_fails.
  cbn [forallb String.eqb Ascii.eqb Bool.eqb andb].
  rewrite !andb_true_iff, !negb_true_iff. tauto.
Qed.

(** The first name of the error mapping is the earliest failing field. *)
Lemma first_key_is_earliest (st : FormState) :
  head (Obj.keys (newErrors st)) = earliest_failing st.
Proof.
  unfold earliest_failing. rewrite keys_newErrors, find_head_filter. reflexivity.
Qed.

Lemma earliest_failing_spec (st : FormState) (field : string) :
  earliest_failing st = Some field ->
  In field canonical_order /\ field_fails st field = true.
Proof. intros H. apply find_some in H. exact H. Qed.

(** Every field of the canonical order has a ref in the table, and the
    ref is attached to the control of the field. *)
Lemma canonical_field_has_ref (field : string) :
  In field canonical_order ->
  exists target,
    Obj.get field refs = Some target /\ current target = control_of field.
Proof.
  unfold canonical_order. simpl.
  intros [<- | [<- | [<- | [<- | [<- | [<- | [<- | []]]]]]]];
    eexists; split; reflexivity.
Qed.

(** Of the controls, the panel of the terms alone is not an input. *)
Lemma control_is_input (field : string) :
  isInputElement (control_of field) = negb (String.eqb field "agreement").
Proof. unfold control_of. destruct (String.eqb field "agreement"); reflexivity. Qed.

(** Each of the 128 combinations of failing rules is the state of some
    form. *)
Lemma every_combination_occurs (b1 b2 b3 b4 b5 b6 b7 : bool) :
  exists st,
    realName_fails st = b1 /\ phone_fails st = b2 /\ storeCode_fails st = b3
    /\ storeName_fails st = b4 /\ socialId_fails st = b5
    /\ wristSize_fails st = b6 /\ agreement_fails st = b7.
Proof.
  exists {| realName := if b1 then [] else u16 "A";
            phone := if b2 then u16 "12345" else u16 "0912-345-678";
            storeCode := if b3 then u16 "abc123" else u16 "123456";
            storeName := if b4 then u16 "  " else u16 "B";
            socialId := if b5 then [] else u16 "@c";
            wristSize := if b6 then u16 "31" else u16 "14";
            isCustomSize := false; addPurificationBag := false;
            preferredColors := []; couponInput := []; appliedCoupon := None;
            couponError := []; agreed := negb b7; errors := [];
            shakingField := None |}.
  repeat split.
  - destruct b1; reflexivity.
  - destruct b2; vm_compute; reflexivity.
  - destruct b3; vm_compute; reflexivity.
  - destruct b4; vm_compute; reflexivity.
  - destruct b5; reflexivity.
  - destruct b6; vm_compute; reflexivity.
  - destruct b7; reflexivity.
Qed.

Lemma find_first {A} (f : A -> bool) (l : list A) (x : A) :
  List.find f l = Some x ->
  exists before after,
    l = before ++ x :: after
    /\ forallb (fun a => negb (f a)) before = true
    /\ f x = true.
Proof.
  induction l as [| a l IH]; simpl; [discriminate |].
  destruct (f a) eqn:Hfa.
  - intros [= <-]. exists [], l. auto.
  - intros H. destruct (IH H) as (before & after & -> & Hb & Hx).
    exists (a :: before), after. simpl. rewrite Hfa. auto.
Qed.

(** ** Submission *)

(** C3. When a submission finds an error, the one field that is shaken,
    scrolled to and (if it is an input) focused is the earliest failing
    field of the canonical order real name, phone, store code, store
    name, social handle, wrist size, agreement: it fails its rule and
    every field before it passes, whichever fields fail. The element
    scrolled to is the control of that field, the input that shows its
    cell or, for the agreement, the panel of the terms; the input is
    focused, the panel is not. *)
Theorem first_offender_in_canonical_order
    (p : PricingStrategy) (st : FormState) (w : World) :
  valid st = false ->
  exists field before after,
    earliest_failing st = Some field
    /\ canonical_order = before ++ field :: after
    /\ forallb (fun f => negb (field_fails st f)) before = true
    /\ field_fails st field = true
    /\ shakingField (fst (validateAndSubmit p st w)) = Some field
    /\ scrollIntoView (snd (validateAndSubmit p st w))
       = scrollIntoView w ++ [if String.eqb field "agreement" then TermsPanel
                              else Input field]
    /\ focus (snd (validateAndSubmit p st w))
       = focus w ++ (if String.eqb field "agreement" then [] else [Input field]).
Proof.
  intros Hinvalid.
  pose proof (first_key_is_earliest st) as Hfirst.
  destruct (Obj.keys (newErrors st)) as [| field rest] eqn:Hkeys.
  - apply keys_nil, valid_no_errors in Hkeys. congruence.
  - simpl in Hfirst. symmetry in Hfirst.
    destruct (earliest_failing_spec st field Hfirst) as [Hin _].
    destruct (canonical_field_has_ref field Hin) as (target & Htarget & Hcontrol).
    destruct (find_first _ _ _ Hfirst) as (before & after & Hsplit & Hbefore & Hfails).
    exists field, before, after.
    unfold validateAndSubmit. rewrite Hkeys, Htarget. cbv zeta.
    rewrite Hcontrol, control_is_input. cbn [fst snd shakingField setShakingField
      scrollIntoView focus].
    unfold control_of.
    repeat split; try assumption.
    destruct (String.eqb field "agreement"); reflexivity.
Qed.

Lemma first_offender_in_canonical_order_witness :
  valid Sample.unfinished = false
  /\ earliest_failing Sample.unfinished = Some "storeCode"%string
  /\ shakingField
       (fst (validateAndSubmit Sample.customPolicy Sample.unfinished Sample.world0))
     = Some "storeCode"%string
  /\ scrollIntoView
       (snd (validateAndSubmit Sample.customPolicy Sample.unfinished Sample.world0))
     = [Input "storeCode"]
  /\ focus
       (snd (validateAndSubmit Sample.customPolicy Sample.unfinished Sample.world0))
     = [Input "storeCode"].
Proof.
  assert (Hinvalid : valid Sample.unfinished = false) by (vm_compute; reflexivity).
  split; [exact Hinvalid |].
  destruct (first_offender_in_canonical_order
              Sample.customPolicy Sample.unfinished Sample.world0 Hinvalid)
    as (field & before & after & Hearliest & _ & _ & _ & Hshake & Hscroll & Hfocus).
  assert (Hfield : field = "storeCode"%string).
  { assert (He : earliest_failing Sample.unfinished = Some "storeCode"%string)
      by (vm_compute; reflexivity).
    congruence. }
  subst field. split; [exact Hearliest |]. split; [exact Hshake |].
  split; [exact Hscroll | exact Hfocus].
Defined.

(** When the box of the agreement alone is left unchecked, the panel of
    the terms is scrolled to and nothing is focused. *)
Example agreement_alone_scrolls_to_the_terms :
  scrollIntoView
    (snd (validateAndSubmit Sample.customPolicy (setAgreed false Sample.filled)
            Sample.world0)) = [TermsPanel]
  /\ focus
       (snd (validateAndSubmit Sample.customPolicy (setAgreed false Sample.filled)
               Sample.world0)) = [].
Proof. split; vm_compute; reflexivity. Qed.

Example store_code_before_agreement :
  shakingField (fst (validateAndSubmit Sample.customPolicy Sample.unfinished Sample.world0))
  = Some "storeCode"%string
  /\ map fst (errors (fst (validateAndSubmit Sample.customPolicy Sample.unfinished
                             Sample.world0)))
     = ["storeCode"; "agreement"]%string.
Proof. split; vm_compute; reflexivity. Qed.

(** A text the regular expression of the phone accepts is ten digits. *)
Lemma mobile_shape (s : jsstring) :
  test_mobile s = true -> length s = 10%nat /\ forallb is_digit s = true.
Proof.
  unfold test_mobile.
  destruct s as [| c0 [| c1 r]]; try discriminate.
  rewrite !andb_true_iff, !N.eqb_eq, Nat.eqb_eq.
  intros [[[-> ->] Hlen] Hdigits].
  simpl. rewrite Hlen, Hdigits. auto.
Qed.

(** The dashed form cuts ten digits after the fourth and the seventh. *)
Lemma dashed_shape (s : jsstring) :
  length s = 10%nat ->
  exists a b c,
    length a = 4%nat /\ length b = 3%nat /\ length c = 3%nat
    /\ s = a ++ b ++ c
    /\ dashed s = a ++ u16 "-" ++ b ++ u16 "-" ++ c.
Proof.
  intros Hlen.
  exists (take 4 s), (take 3 (drop 4 s)), (drop 7 s).
  repeat split.
  - rewrite length_take. lia.
  - rewrite length_take, length_drop. lia.
  - rewrite length_drop. lia.
  - rewrite <- (take_drop 4 s) at 1. f_equal.
    rewrite <- (take_drop 3 (drop 4 s)) at 1. f_equal.
    rewrite drop_drop. reflexivity.
Qed.

Lemma submit_when_valid (p : PricingStrategy) (st : FormState) (w : World) :
  valid st = true ->
  validateAndSubmit p st w
  = (setErrors [] (setPhone (finalPhone st) st),
     {| localStorage := delete STORAGE_KEY (localStorage w);
        onSubmit := onSubmit w ++ [details p st];
        scrollIntoView := scrollIntoView w;
        focus := focus w |}).
Proof.
  intros Hvalid.
  pose proof (proj1 (valid_no_errors st) Hvalid) as Hnone.
  apply valid_rules in Hvalid. destruct Hvalid as (_ & Hphone & _).
  unfold validateAndSubmit. rewrite Hnone, Hphone. reflexivity.
Qed.

(** The render that follows a valid submission: of the dependencies of
    the auto-save effect the handler changes the phone at most, so the
    effect runs exactly when the phone was not in dashed form yet. *)
Lemma render_after_valid_submit
    (p : PricingStrategy) (st : FormState) (w w' : World) :
  valid st = true ->
  renderAfter st (fst (validateAndSubmit p st w)) w'
  = if bool_decide (phone st = dashed (strip_non_digits (phone st)))
    then (fst (validateAndSubmit p st w), w')
    else autoSave (fst (validateAndSubmit p st w)) w'.
Proof.
  intros Hvalid. rewrite (submit_when_valid p st w Hvalid). cbn [fst].
  apply valid_rules in Hvalid. destruct Hvalid as (_ & Hphone & _).
  unfold renderAfter, finalPhone. rewrite Hphone.
  rewrite (bool_decide_ext
             (deps st
              = deps (setErrors [] (setPhone (dashed (strip_non_digits (phone st))) st)))
             (phone st = dashed (strip_non_digits (phone st)))); [reflexivity |].
  unfold deps. cbn [realName phone storeCode storeName socialId wristSize
    addPurificationBag preferredColors agreed setErrors setPhone].
  split; [intros [= Heq]; exact Heq | intros <-; reflexivity].
Qed.

(** C4. When every rule passes, a submission removes the draft from
    storage and calls [onSubmit] once, with a record whose [totalPrice] is
    the total computed for the current state, whose [phone] is the ten
    digits of the field cut by dashes after the fourth and the seventh,
    and whose coupon code and discount are those of the applied coupon
    ([undefined] when there is none); the other fields are the cells,
    the three free texts trimmed. The removal does not last: the
    handler also writes the dashed phone into its cell, and when the cell
    was not in that form already, the render that follows runs the
    auto-save effect, which stores the draft again; [onSubmit] is not
    called again. *)
Theorem valid_submission_emits_record
    (p : PricingStrategy) (st : FormState) (w : World) :
  valid st = true ->
  localStorage (snd (validateAndSubmit p st w)) = delete STORAGE_KEY (localStorage w)
  /\ localStorage (snd (validateAndSubmit p st w)) !! STORAGE_KEY = None
  /\ (exists d,
       onSubmit (snd (validateAndSubmit p st w)) = onSubmit w ++ [d]
       /\ ShippingDetails.totalPrice d = totalPrice p st
       /\ ShippingDetails.phone d = dashed (strip_non_digits (phone st))
       /\ (exists a b c,
             length a = 4%nat /\ length b = 3%nat /\ length c = 3%nat
             /\ strip_non_digits (phone st) = a ++ b ++ c
             /\ forallb is_digit (a ++ b ++ c) = true
             /\ ShippingDetails.phone d = a ++ u16 "-" ++ b ++ u16 "-" ++ c)
       /\ ShippingDetails.couponCode d = AppliedCoupon.code <$> appliedCoupon st
       /\ ShippingDetails.discountAmount d = AppliedCoupon.amount <$> appliedCoupon st
       /\ ShippingDetails.realName d = trim (realName st)
       /\ ShippingDetails.storeCode d = storeCode st
       /\ ShippingDetails.storeName d = trim (storeName st)
       /\ ShippingDetails.socialId d = trim (socialId st)
       /\ ShippingDetails.wristSize d = wristSize st
       /\ ShippingDetails.addPurificationBag d = addPurificationBag st
       /\ ShippingDetails.preferredColors d = preferredColors st)
  /\ phone (fst (validateAndSubmit p st w)) = dashed (strip_non_digits (phone st))
  /\ (phone st = dashed (strip_non_digits (phone st)) ->
      snd (renderAfter st (fst (validateAndSubmit p st w))
             (snd (validateAndSubmit p st w)))
      = snd (validateAndSubmit p st w))
  /\ (phone st <> dashed (strip_non_digits (phone st)) ->
      localStorage
        (snd (renderAfter st (fst (validateAndSubmit p st w))
                (snd (validateAndSubmit p st w)))) !! STORAGE_KEY
      = Some (Text (draft (fst (validateAndSubmit p st w))))
      /\ onSubmit
           (snd (renderAfter st (fst (validateAndSubmit p st w))
                   (snd (validateAndSubmit p st w))))
         = onSubmit (snd (validateAndSubmit p st w))).
Proof.
  intros Hvalid.
  pose proof (render_after_valid_submit p st w (snd (validateAndSubmit p st w)) Hvalid)
    as Hrender.
  rewrite (submit_when_valid p st w Hvalid) in *. cbn [fst snd] in *.
  apply valid_rules in Hvalid. destruct Hvalid as (_ & Hphone & _).
  assert (Hfinal : finalPhone st = dashed (strip_non_digits (phone st))).
  { unfold finalPhone. rewrite Hphone. reflexivity. }
  split; [reflexivity |]. split; [apply lookup_delete_eq |]. split.
  { exists (details p st). simpl. rewrite Hfinal.
    unfold phone_fails in Hphone. apply negb_false_iff in Hphone.
    destruct (mobile_shape _ Hphone) as [Hlen Hdigits].
    destruct (dashed_shape _ Hlen) as (a & b & c & Ha & Hb & Hc & Hsplit & Hdash).
    split; [reflexivity |]. split; [reflexivity |]. split; [reflexivity |].
    split; [| split; [| split]].
    - exists a, b, c. rewrite <- Hsplit. auto 10.
    - destruct (appliedCoupon st); reflexivity.
    - destruct (appliedCoupon st); reflexivity.
    - repeat split. }
  split; [exact Hfinal |]. split.
  - intros Hsame. rewrite Hrender, (bool_decide_eq_true_2 _ Hsame). reflexivity.
  - intros Hother. rewrite Hrender, (bool_decide_eq_false_2 _ Hother).
    unfold autoSave. cbn [snd localStorage onSubmit].
    split; [apply lookup_insert_eq | reflexivity].
Qed.

Lemma valid_submission_emits_record_witness :
  valid Sample.filled = true
  /\ phone Sample.filled <> dashed (strip_non_digits (phone Sample.filled))
  /\ localStorage (snd (validateAndSubmit Sample.customPolicy Sample.filled Sample.world0))
     !! STORAGE_KEY = None
  /\ (exists d,
       onSubmit (snd (validateAndSubmit Sample.customPolicy Sample.filled Sample.world0))
       = onSubmit Sample.world0 ++ [d]
       /\ ShippingDetails.totalPrice d = totalPrice Sample.customPolicy Sample.filled
       /\ ShippingDetails.phone d = dashed (strip_non_digits (phone Sample.filled)))
  /\ is_Some
       (localStorage
          (snd (renderAfter Sample.filled
                  (fst (validateAndSubmit Sample.customPolicy Sample.filled Sample.world0))
                  (snd (validateAndSubmit Sample.customPolicy Sample.filled
                          Sample.world0)))) !! STORAGE_KEY).
Proof.
  assert (Hvalid : valid Sample.filled = true) by (vm_compute; reflexivity).
  assert (Hraw : phone Sample.filled <> dashed (strip_non_digits (phone Sample.filled)))
    by (vm_compute; discriminate).
  destruct (valid_submission_emits_record
              Sample.customPolicy Sample.filled Sample.world0 Hvalid)
    as (_ & Hgone & (d & Hcall & Htotal & Hphone & _) & _ & _ & Hback).
  split; [exact Hvalid |]. split; [exact Hraw |]. split; [exact Hgone |]. split.
  - exists d. auto.
  - rewrite (proj1 (Hback Hraw)). eexists. reflexivity.
Defined.

(** The draft a submission removed is in storage again once the form has
    been rendered, with the dashed phone in it. *)
Example draft_is_back_after_the_submission :
  localStorage
    (snd (renderAfter Sample.filled
            (fst (validateAndSubmit Sample.customPolicy Sample.filled Sample.world0))
            (snd (validateAndSubmit Sample.customPolicy Sample.filled Sample.world0))))
    !! STORAGE_KEY
  = Some (Text (draft (setPhone (u16 "0912-345-678") Sample.filled))).
Proof. vm_compute. reflexivity. Qed.

Example submitted_record :
  onSubmit (snd (validateAndSubmit Sample.customPolicy Sample.filled Sample.world0))
  = [ {| ShippingDetails.realName := u16 "王小美";
         ShippingDetails.phone := u16 "0912-345-678";
         ShippingDetails.storeCode := u16 "123456";
         ShippingDetails.storeName := u16 "鑫泰門市";
         ShippingDetails.socialId := u16 "@mei";
         ShippingDetails.wristSize := u16 "16.5";
         ShippingDetails.addPurificationBag := true;
         ShippingDetails.preferredColors := [u16 "紅"; u16 "白"];
         ShippingDetails.couponCode := Some (u16 "SAVE10");
         ShippingDetails.discountAmount := Some (of_Z 100);
         ShippingDetails.totalPrice := of_Z 3080 |} ].
Proof. vm_compute. reflexivity. Qed.

Lemma submit_when_invalid (p : PricingStrategy) (st : FormState) (w : World) :
  valid st = false ->
  errors (fst (validateAndSubmit p st w)) = newErrors st
  /\ snd (validateAndSubmit p st w)
     = {| localStorage := localStorage w;
          onSubmit := onSubmit w;
          scrollIntoView := scrollIntoView (snd (validateAndSubmit p st w));
          focus := focus (snd (validateAndSubmit p st w)) |}.
Proof.
  intros Hinvalid. unfold validateAndSubmit.
  destruct (Obj.keys (newErrors st)) as [| field rest] eqn:Hkeys.
  - apply keys_nil, valid_no_errors in Hkeys. congruence.
  - destruct (Obj.get field refs); [split; reflexivity |].
    split; [reflexivity |]. destruct w; reflexivity.
Qed.

(** C5. When a rule fails, a submission stores the whole error mapping
    (one entry per failing field) and stops there: the draft stays in
    storage as it was and [onSubmit] is not called. *)
Theorem invalid_submission_aborts
    (p : PricingStrategy) (st : FormState) (w : World) :
  valid st = false ->
  errors (fst (validateAndSubmit p st w)) = newErrors st
  /\ newErrors st <> []
  /\ Obj.keys (newErrors st) = List.filter (field_fails st) canonical_order
  /\ localStorage (snd (validateAndSubmit p st w)) = localStorage w
  /\ onSubmit (snd (validateAndSubmit p st w)) = onSubmit w.
Proof.
  intros Hinvalid.
  destruct (submit_when_invalid p st w Hinvalid) as [Herrors Hworld].
  split; [exact Herrors |]. split.
  { intros Hnone. apply valid_no_errors in Hnone. congruence. }
  split; [apply keys_newErrors |].
  rewrite Hworld. split; reflexivity.
Qed.

Lemma invalid_submission_aborts_witness :
  valid Sample.unfinished = false
  /\ errors (fst (validateAndSubmit Sample.customPolicy Sample.unfinished Sample.world0))
     = newErrors Sample.unfinished
  /\ localStorage (snd (validateAndSubmit Sample.customPolicy Sample.unfinished Sample.world0))
     = localStorage Sample.world0
  /\ onSubmit (snd (validateAndSubmit Sample.customPolicy Sample.unfinished Sample.world0))
     = onSubmit Sample.world0.
Proof.
  assert (Hinvalid : valid Sample.unfinished = false) by (vm_compute; reflexivity).
  destruct (invalid_submission_aborts
              Sample.customPolicy Sample.unfinished Sample.world0 Hinvalid)
    as (Herrors & _ & _ & Hstorage & Hcalls).
  auto.
Defined.

(** The draft leaves storage only through a submission that passes every
    rule; the auto-save effect writes the entry and never removes it. *)
Lemma draft_removed_only_when_valid
    (p : PricingStrategy) (st : FormState) (w : World) :
  localStorage (snd (validateAndSubmit p st w)) <> localStorage w ->
  valid st = true.
Proof.
  intros Hchanged. destruct (valid st) eqn:Hvalid; [reflexivity |].
  destruct (submit_when_invalid p st w Hvalid) as [_ Hworld].
  rewrite Hworld in Hchanged. contradiction.
Qed.

Lemma autoSave_writes_draft (st : FormState) (w : World) :
  localStorage (snd (autoSave st w)) !! STORAGE_KEY = Some (Text (draft st))
  /\ onSubmit (snd (autoSave st w)) = onSubmit w.
Proof. unfold autoSave. simpl. split; [apply lookup_insert_eq | reflexivity]. Qed.

(** ** Coupon *)



(** C10. With an input that is empty or all whitespace the handler only
    clears the coupon message: the applied coupon is left as it is and no
    message is set, whether coupons are switched on or off. *)
Theorem blank_coupon_only_clears_error
    (toUpperCase : jsstring -> jsstring) (cfg : CouponConfig.t) (st : FormState) :
  trim (couponInput st) = [] ->
  handleApplyCoupon toUpperCase cfg st = setCouponError [] st
  /\ couponError (handleApplyCoupon toUpperCase cfg st) = []
  /\ appliedCoupon (handleApplyCoupon toUpperCase cfg st) = appliedCoupon st.
Proof.
  intros Hblank. unfold handleApplyCoupon. simpl. rewrite Hblank. simpl.
  repeat split.
Qed.

Lemma blank_coupon_only_clears_error_witness :
  trim (u16 "   ") = []
  /\ couponError
       (handleApplyCoupon ascii_upper Sample.save10_off
          (setCouponError invalidCouponMessage
             (setCouponInput (u16 "   ") (setAppliedCoupon None Sample.filled))))
     = []
  /\ appliedCoupon
       (handleApplyCoupon ascii_upper Sample.save10_off
          (setCouponError invalidCouponMessage
             (setCouponInput (u16 "   ") (setAppliedCoupon None Sample.filled))))
     = None.
Proof.
  assert (Hblank : trim (u16 "   ") = []) by (vm_compute; reflexivity).
  split; [exact Hblank |].
  destruct (blank_coupon_only_clears_error ascii_upper Sample.save10_off
              (setCouponError invalidCouponMessage
                 (setCouponInput (u16 "   ") (setAppliedCoupon None Sample.filled)))
              Hblank) as (_ & Herror & Hcoupon).
  split; [exact Herror | exact Hcoupon].
Defined.

(** ** Draft persistence *)

Lemma string_or_string (dflt s : jsstring) :
  string_or dflt (Some (JStr s)) = inr (if truthy s then s else dflt).
Proof. destruct s; reflexivity. Qed.

Lemma bool_or_false_bool (b : bool) : bool_or_false (Some (JBool b)) = inr b.
Proof. destruct b; reflexivity. Qed.

Lemma as_strings_strings (l : list jsstring) : as_strings (map JStr l) = Some l.
Proof.
  unfold as_strings. induction l as [| s l IH]; simpl; [reflexivity |].
  rewrite IH. reflexivity.
Qed.

Lemma strings_or_empty_strings (l : list jsstring) :
  strings_or_empty (Some (JArr (map JStr l))) = inr l.
Proof. unfold strings_or_empty. simpl. rewrite as_strings_strings. reflexivity. Qed.

Lemma initialDraft_after_save (st : FormState) (w : World) :
  initialDraft (snd (autoSave st w)) = draft st.
Proof. unfold initialDraft, autoSave. simpl. rewrite lookup_insert_eq. reflexivity. Qed.

(** A form mounted on the draft that the effect saved: the eight cells of
    the draft come back (an empty text as the default of its cell), the
    other cells start from their constants. *)
Lemma mount_after_save (p : PricingStrategy) (st : FormState) (w : World) :
  mount p (snd (autoSave st w))
  = inr {| realName := realName st;
           phone := phone st;
           storeCode := storeCode st;
           storeName := storeName st;
           socialId := socialId st;
           wristSize :=
             if truthy (wristSize st) then wristSize st
             else if isStandard p then u16 "14" else [];
           isCustomSize :=
             isStandard p && truthy (wristSize st)
             && negb (str_eqb (wristSize st) (u16 "14"));
           addPurificationBag := addPurificationBag st;
           preferredColors := preferredColors st;
           couponInput := []; appliedCoupon := None; couponError := [];
           agreed := false; errors := []; shakingField := None |}.
Proof.
  unfold mount. rewrite initialDraft_after_save. unfold draft.
  cbn [prop Obj.get String.eqb Ascii.eqb Bool.eqb].
  do 9 (cbn [bindM];
        rewrite ?string_or_string, ?bool_or_false_bool, ?strings_or_empty_strings).
  assert (Hsame : forall s : jsstring, (if truthy s then s else []) = s)
    by (intros [| c s]; reflexivity).
  rewrite !Hsame. unfold is_string.
  destruct (wristSize st) as [| c s]; reflexivity.
Qed.

(** C9. The draft written to storage has exactly the eight entries
    [realName], [phone], [storeCode], [storeName], [socialId],
    [wristSize], [addPurificationBag] and [preferredColors]; it does not
    depend on the agreement box, the coupon input or the applied coupon;
    and a form mounted on any stored draft, in particular on one saved
    while the box was checked and a coupon applied, starts with the box
    unchecked, no coupon applied and an empty coupon input. *)
Theorem draft_omits_agreement_and_coupon
    (p : PricingStrategy) (st : FormState) (w : World) :
  (exists props,
      draft st = JObj props
      /\ Obj.keys props
         = [ "realName"; "phone"; "storeCode"; "storeName"; "socialId";
             "wristSize"; "addPurificationBag"; "preferredColors" ]%string)
  /\ localStorage (snd (autoSave st w)) !! STORAGE_KEY = Some (Text (draft st))
  /\ (forall box input coupon,
         draft (setAgreed box (setCouponInput input (setAppliedCoupon coupon st)))
         = draft st)
  /\ (exists st',
         mount p (snd (autoSave st w)) = inr st'
         /\ agreed st' = false /\ appliedCoupon st' = None /\ couponInput st' = [])
  /\ match mount p w with
     | inr st' => agreed st' = false /\ appliedCoupon st' = None /\ couponInput st' = []
     | inl _ => True
     end.
Proof.
  split; [| split; [| split; [| split]]].
  - eexists. split; reflexivity.
  - unfold autoSave. simpl. apply lookup_insert_eq.
  - intros box input coupon. reflexivity.
  - eexists. split; [apply mount_after_save |]. simpl. auto.
  - unfold mount.
    repeat match goal with
           | |- context [bindM ?m _] =>
               match m with
               | context [bindM] => fail 1
               | _ => destruct m; cbn [bindM]; try exact I
               end
           end.
    simpl. auto.
Qed.

Example restored_form_starts_unagreed :
  agreed Sample.filled = true
  /\ (exists c, appliedCoupon Sample.filled = Some c)
  /\ mount Sample.customPolicy (snd (autoSave Sample.filled Sample.world0))
     = inr (setAppliedCoupon None
              (setCouponInput [] (setAgreed false Sample.filled))).
Proof.
  split; [reflexivity |]. split; [eexists; reflexivity |].
  rewrite mount_after_save. vm_compute. reflexivity.
Qed.

Example unreadable_entries_mount_empty :
  mount Sample.customPolicy
    {| localStorage := {[ STORAGE_KEY := Garbled ]};
       onSubmit := []; scrollIntoView := []; focus := [] |}
  = mount Sample.customPolicy
      {| localStorage := ∅; onSubmit := []; scrollIntoView := []; focus := [] |}
  /\ mount Sample.customPolicy
       {| localStorage := {[ STORAGE_KEY := Text JNull ]};
          onSubmit := []; scrollIntoView := []; focus := [] |}
     = inl ThrowsTypeError.
Proof. split; reflexivity. Qed.

(** ** Delivery *)

Section GatewayProperties.

Import Sheet.

Variable CustomerRecord : Type.
Variable generatedImageUrl : CustomerRecord -> option jsstring.
Variable Fields : Type.
Variable flatten : CustomerRecord -> Fields.
Variable compressBase64Image : jsstring -> Q -> Completion jsstring.
Variable network : nat -> Request Fields -> Completion unit.

(** The image is always obtained, whatever the compressor does, and no
    request is made for it. *)
Lemma cleanBase64_total (record : CustomerRecord) (n : Net Fields) :
  exists img lines,
    cleanBase64 generatedImageUrl compressBase64Image record n
    = (Normal img, {| requests := requests n; console := console n ++ lines |}).
Proof.
  unfold cleanBase64.
  destruct (generatedImageUrl record) as [imageUrl |];
    [| exists [], []; unfold ret; rewrite app_nil_r; destruct n; reflexivity].
  destruct (truthy imageUrl);
    [| exists [], []; unfold ret; rewrite app_nil_r; destruct n; reflexivity].
  destruct (startsWith (u16 "http") imageUrl).
  { exists [], [LogUrlDetected]. reflexivity. }
  unfold try_catch, bind, log, await, ret. simpl.
  destruct (compressBase64Image imageUrl (Qmake 6 10)) as [compressed | e].
  - destruct (includes (u16 "base64,") compressed);
      eexists; exists [LogCompressing]; reflexivity.
  - simpl. destruct (includes (u16 "base64,") imageUrl);
      eexists; exists [LogCompressing; WarnCompressionFailed e];
      simpl; rewrite <- app_assoc; reflexivity.
Qed.

(** One call of [sendRequest] makes one request, and ends in one of three
    ways according to how the transmission ends. *)
Lemma sendRequest_cases (target : jsstring) (data : Payload Fields) (n : Net Fields) :
  requests (snd (sendRequest network target data n))
  = requests n ++ [{| url := target; body := data |}]
  /\ match network (length (requests n)) {| url := target; body := data |} with
     | Normal _ =>
         fst (sendRequest network target data n) = Normal sent
         /\ console (snd (sendRequest network target data n))
            = console n ++ [LogPayloadSize; LogRequestSent]
     | Throw e =>
         if isCorsError e
         then fst (sendRequest network target data n) = Normal cors_blocked
              /\ console (snd (sendRequest network target data n))
                 = console n ++ [LogPayloadSize; ErrorSend e; WarnCors]
         else fst (sendRequest network target data n) = Throw e
              /\ console (snd (sendRequest network target data n))
                 = console n ++ [LogPayloadSize; ErrorSend e]
     end.
Proof.
  unfold sendRequest, try_catch, bind, log, fetch, ret, throw. simpl.
  destruct (network _ _) as [[] | e]; simpl.
  - rewrite <- !app_assoc. auto.
  - destruct (isCorsError e); simpl; rewrite <- !app_assoc; auto.
Qed.

(** What a call of [syncToGoogleSheet] with a script URL does, by the
    outcome of the first transmission and, where there is one, of the
    second: it returns normally, and the requests made and the last line
    of the console are as listed. *)
Lemma sync_cases (record : CustomerRecord) (scriptUrl : jsstring) (n : Net Fields) :
  truthy scriptUrl = true ->
  exists img final,
    syncToGoogleSheet generatedImageUrl flatten compressBase64Image network
      record scriptUrl n
    = (Normal tt, final)
    /\ let first :=
         {| url := scriptUrl;
            body := {| fields := flatten record; imageBase64 := img |} |} in
       let second :=
         {| url := scriptUrl;
            body := {| fields := flatten record; imageBase64 := [] |} |} in
       match network (length (requests n)) first with
       | Normal _ =>
           requests final = requests n ++ [first]
           /\ last (console final) = Some (LogSyncResult sent)
       | Throw e =>
           if isCorsError e then
             requests final = requests n ++ [first]
             /\ last (console final) = Some (LogSyncResult cors_blocked)
           else
             requests final = requests n ++ [first; second]
             /\ match network (S (length (requests n))) second with
                | Normal _ => last (console final) = Some LogRetryCompleted
                | Throw e' =>
                    if isCorsError e'
                    then last (console final) = Some LogRetryCompleted
                    else last (console final) = Some LogCheckManually
                         /\ In (ErrorBothFailed e') (console final)
                end
       end.
Proof.
  intros Hurl.
  destruct (cleanBase64_total record
              {| requests := requests n; console := console n ++ [LogSyncing] |})
    as (img & lines & Himage).
  exists img. cbv zeta.
  unfold syncToGoogleSheet. rewrite Hurl.
  cbv beta iota zeta delta [bind try_catch log ret negb].
  rewrite Himage. cbv beta iota.
  set (n1 := {| requests := _; console := _ |}).
  set (payload := {| fields := flatten record; imageBase64 := img |}).
  change (fields payload) with (flatten record).
  set (textOnly := {| fields := flatten record; imageBase64 := [] |}).
  destruct (sendRequest_cases scriptUrl payload n1) as [Hreq Hcase].
  change (requests n1) with (requests n) in Hreq, Hcase.
  destruct (sendRequest network scriptUrl payload n1) as [c1 n2].
  simpl in Hreq, Hcase.
  destruct (network (length (requests n)) {| url := scriptUrl; body := payload |})
    as [[] | e].
  { destruct Hcase as [-> _]. eexists. split; [reflexivity |].
    simpl. rewrite Hreq, last_snoc. auto. }
  destruct (isCorsError e).
  { destruct Hcase as [-> _]. eexists. split; [reflexivity |].
    simpl. rewrite Hreq, last_snoc. auto. }
  destruct Hcase as [-> _]. cbv beta iota.
  set (n3 := {| requests := requests n2; console := _ |}).
  destruct (sendRequest_cases scriptUrl textOnly n3) as [Hreq2 Hcase2].
  change (requests n3) with (requests n2) in Hreq2, Hcase2.
  rewrite Hreq in Hreq2, Hcase2.
  rewrite length_app, Nat.add_1_r in Hcase2.
  rewrite <- app_assoc in Hreq2.
  destruct (sendRequest network scriptUrl textOnly n3) as [c2 n4].
  simpl in Hreq2, Hcase2.
  destruct (network (S (length (requests n))) {| url := scriptUrl; body := textOnly |})
    as [[] | e'].
  { destruct Hcase2 as [-> _]. eexists. split; [reflexivity |].
    simpl. rewrite Hreq2, last_snoc. auto. }
  destruct (isCorsError e').
  { destruct Hcase2 as [-> _]. eexists. split; [reflexivity |].
    simpl. rewrite Hreq2, last_snoc. auto. }
  destruct Hcase2 as [-> _]. eexists. split; [reflexivity |].
  simpl. rewrite Hreq2, last_snoc.
  split; [reflexivity |]. split; [reflexivity |].
  rewrite !in_app_iff. simpl. auto.
Qed.

(** C6, as the code has it. When the first transmission throws, the call
    still returns normally. If the error is taken for a cross-origin
    rejection (a [TypeError] whose message mentions CORS), [sendRequest]
    absorbs it: the outcome [cors_blocked] is reported and there is no
    retry. For any other error there is exactly one retry, the same
    payload with [imageBase64] empty. *)
Theorem cors_rejection_reported_without_retry
    (record : CustomerRecord) (scriptUrl : jsstring) (n : Net Fields) (e : JSError) :
  truthy scriptUrl = true ->
  (forall r, network (length (requests n)) r = Throw e) ->
  exists img final,
    syncToGoogleSheet generatedImageUrl flatten compressBase64Image network
      record scriptUrl n
    = (Normal tt, final)
    /\ (isCorsError e = true ->
        requests final
        = requests n
          ++ [ {| url := scriptUrl;
                  body := {| fields := flatten record; imageBase64 := img |} |} ]
        /\ last (console final) = Some (LogSyncResult cors_blocked))
    /\ (isCorsError e = false ->
        requests final
        = requests n
          ++ [ {| url := scriptUrl;
                  body := {| fields := flatten record; imageBase64 := img |} |};
               {| url := scriptUrl;
                  body := {| fields := flatten record; imageBase64 := [] |} |} ]).
Proof.
  intros Hurl Hthrows.
  destruct (sync_cases record scriptUrl n Hurl) as (img & final & Hrun & Hcase).
  cbv zeta in Hcase. rewrite Hthrows in Hcase.
  exists img, final. split; [exact Hrun |].
  destruct (isCorsError e).
  - split; [intros _; exact Hcase | discriminate].
  - split; [discriminate | intros _; exact (proj1 Hcase)].
Qed.

(** C7. [syncToGoogleSheet] returns normally for every record and every
    script URL, however the compressor and the transmissions end; when
    the send and the retry without image both throw, what remains of the
    failure is on the console: the error of the retry, then the request
    to check the sheet by hand. *)
Theorem sync_never_throws
    (record : CustomerRecord) (scriptUrl : jsstring) (n : Net Fields) :
  exists final,
    syncToGoogleSheet generatedImageUrl flatten compressBase64Image network
      record scriptUrl n
    = (Normal tt, final)
    /\ forall e1 e2,
         truthy scriptUrl = true ->
         (forall r, network (length (requests n)) r = Throw e1) ->
         (forall r, network (S (length (requests n))) r = Throw e2) ->
         isCorsError e1 = false ->
         isCorsError e2 = false ->
         length (requests final) = (length (requests n) + 2)%nat
         /\ In (ErrorBothFailed e2) (console final)
         /\ last (console final) = Some LogCheckManually.
Proof.
  destruct (truthy scriptUrl) eqn:Hurl.
  - destruct (sync_cases record scriptUrl n Hurl) as (img & final & Hrun & Hcase).
    exists final. split; [exact Hrun |].
    intros e1 e2 _ H1 H2 Hc1 Hc2.
    cbv zeta in Hcase. rewrite H1, Hc1, H2, Hc2 in Hcase.
    destruct Hcase as (Hreq & Hlast & Hin).
    rewrite Hreq, length_app. auto.
  - exists n. split.
    + unfold syncToGoogleSheet. rewrite Hurl. reflexivity.
    + intros e1 e2 Habsurd. discriminate Habsurd.
Qed.

(** Without a script URL nothing is sent and nothing is logged. *)
Lemma sync_without_url (record : CustomerRecord) (n : Net Fields) :
  syncToGoogleSheet generatedImageUrl flatten compressBase64Image network record [] n
  = (Normal tt, n).
Proof. reflexivity. Qed.

End GatewayProperties.

Lemma cors_rejection_reported_without_retry_witness :
  (truthy Sample.scriptUrl = true
   /\ (forall r, Sample.blocked (length (Sheet.requests Sample.idle)) r
                 = Sheet.Throw Sample.corsError)
   /\ Sheet.isCorsError Sample.corsError = true
   /\ exists img,
        Sheet.requests (snd (Sample.sync Sample.blocked))
        = Sheet.requests Sample.idle
          ++ [ {| Sheet.url := Sample.scriptUrl;
                  Sheet.body := {| Sheet.fields := tt; Sheet.imageBase64 := img |} |} ])
  /\ ((forall r, Sample.offline (length (Sheet.requests Sample.idle)) r
                 = Sheet.Throw Sample.networkError)
      /\ Sheet.isCorsError Sample.networkError = false
      /\ exists img,
           Sheet.requests (snd (Sample.sync Sample.offline))
           = Sheet.requests Sample.idle
             ++ [ {| Sheet.url := Sample.scriptUrl;
                     Sheet.body := {| Sheet.fields := tt; Sheet.imageBase64 := img |} |};
                  {| Sheet.url := Sample.scriptUrl;
                     Sheet.body := {| Sheet.fields := tt; Sheet.imageBase64 := [] |} |} ]).
Proof.
  assert (Hurl : truthy Sample.scriptUrl = true) by reflexivity.
  assert (Hcors : Sheet.isCorsError Sample.corsError = true) by (vm_compute; reflexivity).
  assert (Hother : Sheet.isCorsError Sample.networkError = false)
    by (vm_compute; reflexivity).
  split.
  - split; [exact Hurl |]. split; [intros r; reflexivity |]. split; [exact Hcors |].
    destruct (cors_rejection_reported_without_retry
                (option jsstring) (fun r => r) unit (fun _ => tt)
                Sample.compressor Sample.blocked
                (Some Sample.photo) Sample.scriptUrl Sample.idle Sample.corsError
                Hurl (fun r => eq_refl))
      as (img & final & Hrun & Hblocked & _).
    exists img. unfold Sample.sync. rewrite Hrun. exact (proj1 (Hblocked Hcors)).
  - split; [intros r; reflexivity |]. split; [exact Hother |].
    destruct (cors_rejection_reported_without_retry
                (option jsstring) (fun r => r) unit (fun _ => tt)
                Sample.compressor Sample.offline
                (Some Sample.photo) Sample.scriptUrl Sample.idle Sample.networkError
                Hurl (fun r => eq_refl))
      as (img & final & Hrun & _ & Hretry).
    exists img. unfold Sample.sync. rewrite Hrun. exact (Hretry Hother).
Defined.

(** The claim as the specification words it fails on a record with image
    data whose transmission is rejected with a cross-origin error: the
    outcome is reported, but the send is not repeated. *)
Lemma cors_rejection_retry_counterexample :
  Sheet.isCorsError Sample.corsError = true
  /\ fst (Sample.sync Sample.blocked) = Sheet.Normal tt
  /\ (exists r,
         Sheet.requests (snd (Sample.sync Sample.blocked)) = [r]
         /\ Sheet.imageBase64 (Sheet.body r) = u16 "/9j/4AAQ")
  /\ ~ retried_once_without_image (snd (Sample.sync Sample.blocked)).
Proof.
  split; [vm_compute; reflexivity |].
  split; [vm_compute; reflexivity |].
  split.
  - eexists. split; vm_compute; reflexivity.
  - intros (first & second & Hrequests & _).
    vm_compute in Hrequests. discriminate Hrequests.
Qed.

Lemma sync_never_throws_witness :
  truthy Sample.scriptUrl = true
  /\ (forall r, Sample.offline (length (Sheet.requests Sample.idle)) r
                = Sheet.Throw Sample.networkError)
  /\ (forall r, Sample.offline (S (length (Sheet.requests Sample.idle))) r
                = Sheet.Throw Sample.networkError)
  /\ Sheet.isCorsError Sample.networkError = false
  /\ fst (Sample.sync Sample.offline) = Sheet.Normal tt
  /\ length (Sheet.requests (snd (Sample.sync Sample.offline))) = 2%nat
  /\ last (Sheet.console (snd (Sample.sync Sample.offline))) = Some Sheet.LogCheckManually.
Proof.
  assert (Hurl : truthy Sample.scriptUrl = true) by reflexivity.
  assert (Hother : Sheet.isCorsError Sample.networkError = false)
    by (vm_compute; reflexivity).
  destruct (sync_never_throws
              (option jsstring) (fun r => r) unit (fun _ => tt)
              Sample.compressor Sample.offline
              (Some Sample.photo) Sample.scriptUrl Sample.idle)
    as (final & Hrun & Hboth).
  destruct (Hboth Sample.networkError Sample.networkError
              Hurl (fun r => eq_refl) (fun r => eq_refl) Hother Hother)
    as (Hcount & _ & Hlast).
  unfold Sample.sync. rewrite Hrun.
  repeat split; assumption.
Defined.

Example offline_sync_gives_up_quietly :
  fst (Sample.sync Sample.offline) = Sheet.Normal tt
  /\ retried_once_without_image (snd (Sample.sync Sample.offline))
  /\ last (Sheet.console (snd (Sample.sync Sample.offline))) = Some Sheet.LogCheckManually.
Proof.
  split; [vm_compute; reflexivity |]. split.
  - eexists _, _. split; vm_compute; reflexivity.
  - vm_compute. reflexivity.
Qed.

(* ===================================================================== *)
(** * Part VI. Properties of the other handlers                          *)
(* ===================================================================== *)

(** ** Phone *)

Lemma strip_non_digits_digits (s : jsstring) :
  forallb is_digit (strip_non_digits s) = true.
Proof.
  unfold strip_non_digits. induction s as [| c s IH]; simpl; [reflexivity |].
  destruct (is_digit c) eqn:Hc; simpl; [rewrite Hc |]; exact IH.
Qed.

Lemma strip_non_digits_id (s : jsstring) :
  forallb is_digit s = true -> strip_non_digits s = s.
Proof.
  unfold strip_non_digits. induction s as [| c s IH]; simpl; [reflexivity |].
  rewrite andb_true_iff. intros [-> Hs]. rewrite (IH Hs). reflexivity.
Qed.

Lemma strip_non_digits_app (a b : jsstring) :
  strip_non_digits (a ++ b) = strip_non_digits a ++ strip_non_digits b.
Proof. unfold strip_non_digits. apply List.filter_app. Qed.

Lemma forallb_take {A} (f : A -> bool) (n : nat) (l : list A) :
  forallb f l = true -> forallb f (take n l) = true.
Proof.
  revert n. induction l as [| a l IH]; intros [| n]; simpl; try reflexivity.
  rewrite !andb_true_iff. intros [-> Hl]. auto.
Qed.

Lemma forallb_drop {A} (f : A -> bool) (n : nat) (l : list A) :
  forallb f l = true -> forallb f (drop n l) = true.
Proof.
  revert n. induction l as [| a l IH]; intros [| n]; simpl; try reflexivity.
  - intros H. exact H.
  - rewrite andb_true_iff. intros [_ Hl]. auto.
Qed.

Lemma cut_in_three (s : jsstring) :
  take 4 s ++ take 3 (drop 4 s) ++ drop 7 s = s.
Proof.
  rewrite <- (take_drop 4 s) at 4. f_equal.
  rewrite <- (take_drop 3 (drop 4 s)) at 2. f_equal.
  rewrite drop_drop. reflexivity.
Qed.

(** Removing what is not a digit from a dashed text gives the digits
    back. *)
Lemma strip_dashed (s : jsstring) :
  forallb is_digit s = true -> strip_non_digits (dashed s) = s.
Proof.
  intros Hs. unfold dashed, slice, slice_from. simpl drop. simpl Nat.sub.
  rewrite !strip_non_digits_app.
  change (strip_non_digits (u16 "-")) with (@nil N). simpl app.
  rewrite !strip_non_digits_id
    by (try apply forallb_take; try apply forallb_drop; assumption).
  apply cut_in_three.
Qed.

(** The digits of the formatted text are the first ten digits typed. *)
Lemma strip_formatPhone (val : jsstring) :
  strip_non_digits (formatPhone val) = take 10 (strip_non_digits val).
Proof.
  unfold formatPhone.
  change (slice 0 10 (strip_non_digits val)) with (take 10 (strip_non_digits val)).
  set (t := take 10 (strip_non_digits val)).
  assert (Ht : forallb is_digit t = true)
    by (apply forallb_take, strip_non_digits_digits).
  destruct (7 <? length t)%nat.
  - apply (strip_dashed t Ht).
  - destruct (4 <? length t)%nat.
    + unfold slice, slice_from. simpl drop. simpl Nat.sub.
      rewrite !strip_non_digits_app.
      change (strip_non_digits (u16 "-")) with (@nil N). simpl app.
      rewrite !strip_non_digits_id
        by (try apply forallb_take; try apply forallb_drop; assumption).
      apply take_drop.
    + apply strip_non_digits_id, Ht.
Qed.

Lemma formatPhone_stable (val : jsstring) :
  formatPhone (formatPhone val) = formatPhone val.
Proof.
  unfold formatPhone at 1. rewrite strip_formatPhone.
  change (slice 0 10 (take 10 (strip_non_digits val)))
    with (take 10 (take 10 (strip_non_digits val))).
  rewrite take_take. change (10 `min` 10)%nat with 10%nat.
  reflexivity.
Qed.

Lemma formatPhone_length (val : jsstring) : (length (formatPhone val) <= 12)%nat.
Proof.
  unfold formatPhone.
  change (slice 0 10 (strip_non_digits val)) with (take 10 (strip_non_digits val)).
  set (t := take 10 (strip_non_digits val)).
  assert (Hlen : (length t <= 10)%nat) by (unfold t; rewrite length_take; lia).
  destruct (7 <? length t)%nat; [| destruct (4 <? length t)%nat].
  - unfold slice, slice_from. simpl drop. simpl Nat.sub.
    rewrite !length_app, !length_take, !length_drop.
    change (length (u16 "-")) with 1%nat. lia.
  - unfold slice, slice_from. simpl drop. simpl Nat.sub.
    rewrite !length_app, !length_take, !length_drop.
    change (length (u16 "-")) with 1%nat. lia.
  - lia.
Qed.

Lemma setPhone_same (st : FormState) : setPhone (phone st) st = st.
Proof. destruct st. reflexivity. Qed.

Lemma handlePhoneChange_longer (val : jsstring) (st : FormState) :
  (length (phone st) <= length val)%nat ->
  handlePhoneChange val st = setPhone (formatPhone val) st.
Proof.
  intros Hlen. unfold handlePhoneChange.
  destruct (Nat.ltb_spec (length val) (length (phone st))); [lia | reflexivity].
Qed.

(** The formatted text is the first ten digits in groups of four, three
    and the rest, a dash between two groups. *)
Lemma formatPhone_grouped (val : jsstring) :
  formatPhone val = grouped (take 10 (strip_non_digits val)).
Proof.
  unfold formatPhone, grouped.
  change (slice 0 10 (strip_non_digits val)) with (take 10 (strip_non_digits val)).
  generalize (take 10 (strip_non_digits val)). intros t.
  destruct t as [| c0 [| c1 [| c2 [| c3 [| c4 [| c5 [| c6 [| c7 r]]]]]]]];
    reflexivity.
Qed.

(** Where the dashes of a grouped text are. *)
Lemma grouped_dashes (d : jsstring) :
  ((4 < length d)%nat -> grouped d !! 4%nat = Some 45%N)
  /\ ((7 < length d)%nat -> grouped d !! 8%nat = Some 45%N).
Proof.
  destruct d as [| c0 [| c1 [| c2 [| c3 [| c4 [| c5 [| c6 [| c7 r]]]]]]]];
    split; intros H; simpl in H; try lia; reflexivity.
Qed.

Lemma digit_is_not_dash (c : N) : is_digit c = true -> c <> 45%N.
Proof. intros H ->. discriminate H. Qed.

(** A grouped text of digits has no dash elsewhere. *)
Lemma grouped_no_other_dash (d : jsstring) (i : nat) :
  forallb is_digit d = true ->
  grouped d !! i = Some 45%N -> i = 4%nat \/ i = 8%nat.
Proof.
  intros Hd.
  assert (Hdigit : forall k c, d !! k = Some c -> c <> 45%N).
  { intros k c Hk. apply digit_is_not_dash.
    rewrite forallb_forall in Hd. apply Hd. apply list_elem_of_In.
    apply (list_elem_of_lookup_2 d k c Hk). }
  assert (Hshape : forall k c, grouped d !! k = Some c ->
            (k = 4%nat /\ (4 < length d)%nat) \/ (k = 8%nat /\ (7 < length d)%nat)
            \/ exists k', d !! k' = Some c).
  { intros k c.
    destruct d as [| c0 [| c1 [| c2 [| c3 [| c4 [| c5 [| c6 [| c7 r]]]]]]]];
      cbn [grouped dash_joined take drop app length];
      do 12 (try discriminate;
             try (destruct k as [| k]; cbn [lookup list_lookup];
              [first [ intros [= <-]; right; right;
                       first [ exists 0%nat; reflexivity | exists 1%nat; reflexivity
                             | exists 2%nat; reflexivity | exists 3%nat; reflexivity
                             | exists 4%nat; reflexivity | exists 5%nat; reflexivity
                             | exists 6%nat; reflexivity | exists 7%nat; reflexivity ]
                     | intros _; left; split; [reflexivity | simpl; lia]
                     | intros _; right; left; split; [reflexivity | simpl; lia]
                     | discriminate ] |]));
      try discriminate.
    intros Hk. right. right. exists (S (S (S (S (S (S (S (S k)))))))). exact Hk. }
  intros Hi. destruct (Hshape i _ Hi) as [[-> _] | [[-> _] | [k' Hk']]]; auto.
  exfalso. exact (Hdigit k' _ Hk' eq_refl).
Qed.

(** X1. A phone value that is not shorter than the cell is replaced by
    its first ten digits, cut by dashes: the digits of the new cell are
    the first ten digits of what was typed, the cell has at most twelve
    code units, and handing the new cell to the handler again changes
    nothing. The cell is those digits in groups of four, three and the
    rest with a dash between two groups: a dash follows the fourth digit
    when a fifth was typed and the seventh when an eighth was typed, and
    the cell holds no other dash. *)
Theorem phone_input_is_reformatted (val : jsstring) (st : FormState) :
  (length (phone st) <= length val)%nat ->
  strip_non_digits (phone (handlePhoneChange val st)) = take 10 (strip_non_digits val)
  /\ (length (phone (handlePhoneChange val st)) <= 12)%nat
  /\ handlePhoneChange (phone (handlePhoneChange val st)) (handlePhoneChange val st)
     = handlePhoneChange val st
  /\ phone (handlePhoneChange val st) = grouped (take 10 (strip_non_digits val))
  /\ ((4 < length (take 10 (strip_non_digits val)))%nat ->
      phone (handlePhoneChange val st) !! 4%nat = Some 45%N)
  /\ ((7 < length (take 10 (strip_non_digits val)))%nat ->
      phone (handlePhoneChange val st) !! 8%nat = Some 45%N)
  /\ (forall i, phone (handlePhoneChange val st) !! i = Some 45%N ->
                i = 4%nat \/ i = 8%nat).
Proof.
  intros Hlen.
  rewrite (handlePhoneChange_longer val st Hlen). simpl phone.
  split; [apply strip_formatPhone |]. split; [apply formatPhone_length |].
  split.
  { unfold handlePhoneChange. simpl phone. rewrite Nat.ltb_irrefl.
    rewrite formatPhone_stable. reflexivity. }
  rewrite formatPhone_grouped.
  split; [reflexivity |].
  split; [apply grouped_dashes |]. split; [apply grouped_dashes |].
  intros i. apply grouped_no_other_dash.
  apply forallb_take, strip_non_digits_digits.
Qed.

Lemma phone_input_is_reformatted_witness :
  (length (phone Sample.unfinished) <= length (u16 "0912 345 6789"))%nat
  /\ strip_non_digits
       (phone (handlePhoneChange (u16 "0912 345 6789") Sample.unfinished))
     = take 10 (strip_non_digits (u16 "0912 345 6789"))
  /\ phone (handlePhoneChange (u16 "0912 345 6789") Sample.unfinished)
     = u16 "0912-345-678".
Proof.
  assert (Hlen : (length (phone Sample.unfinished) <= length (u16 "0912 345 6789"))%nat)
    by (vm_compute; lia).
  destruct (phone_input_is_reformatted (u16 "0912 345 6789") Sample.unfinished Hlen)
    as (Hdigits & _ & _ & Hgrouped & _).
  split; [exact Hlen |]. split; [exact Hdigits |].
  rewrite Hgrouped. vm_compute. reflexivity.
Defined.

(** A number that is typed digit by digit gets its dashes on the way. *)
Example phone_typed_in_steps :
  grouped (u16 "0912") = u16 "0912"
  /\ grouped (u16 "09123") = u16 "0912-3"
  /\ grouped (u16 "0912345") = u16 "0912-345"
  /\ grouped (u16 "09123456") = u16 "0912-345-6".
Proof. repeat split; vm_compute; reflexivity. Qed.

(** X2. When the first ten digits typed are a mobile number, the cell the
    handler leaves is already the text a submission would write: the rule
    of the phone passes and the submission leaves the cell as it is. *)
Theorem typed_phone_is_canonical
    (p : PricingStrategy) (val : jsstring) (st : FormState) (w : World) :
  (length (phone st) <= length val)%nat ->
  test_mobile (take 10 (strip_non_digits val)) = true ->
  phone_fails (handlePhoneChange val st) = false
  /\ finalPhone (handlePhoneChange val st) = phone (handlePhoneChange val st)
  /\ phone (fst (validateAndSubmit p (handlePhoneChange val st) w))
     = phone (handlePhoneChange val st).
Proof.
  intros Hlen Hmobile.
  rewrite (handlePhoneChange_longer val st Hlen).
  set (st' := setPhone (formatPhone val) st).
  assert (Hstrip : strip_non_digits (phone st') = take 10 (strip_non_digits val))
    by apply strip_formatPhone.
  assert (Hfails : phone_fails st' = false).
  { unfold phone_fails. rewrite Hstrip, Hmobile. reflexivity. }
  assert (Hfinal : finalPhone st' = phone st').
  { unfold finalPhone. rewrite Hfails, Hstrip.
    simpl phone. unfold formatPhone.
    change (slice 0 10 (strip_non_digits val)) with (take 10 (strip_non_digits val)).
    destruct (mobile_shape _ Hmobile) as [-> _]. reflexivity. }
  split; [exact Hfails |]. split; [exact Hfinal |].
  unfold validateAndSubmit. rewrite Hfails.
  destruct (Obj.keys (newErrors st')) as [| field rest].
  - simpl. exact Hfinal.
  - destruct (Obj.get field refs); simpl; exact Hfinal.
Qed.

Lemma typed_phone_is_canonical_witness :
  (length (phone Sample.unfinished) <= length (u16 "0912345678"))%nat
  /\ test_mobile (take 10 (strip_non_digits (u16 "0912345678"))) = true
  /\ phone (fst (validateAndSubmit Sample.customPolicy
                   (handlePhoneChange (u16 "0912345678") Sample.unfinished)
                   Sample.world0))
     = phone (handlePhoneChange (u16 "0912345678") Sample.unfinished).
Proof.
  assert (Hlen : (length (phone Sample.unfinished) <= length (u16 "0912345678"))%nat)
    by (vm_compute; lia).
  assert (Hmobile : test_mobile (take 10 (strip_non_digits (u16 "0912345678"))) = true)
    by (vm_compute; reflexivity).
  split; [exact Hlen |]. split; [exact Hmobile |].
  exact (proj2 (proj2 (typed_phone_is_canonical Sample.customPolicy
                         (u16 "0912345678") Sample.unfinished Sample.world0
                         Hlen Hmobile))).
Defined.

(** ** Submitting twice *)

Lemma finalPhone_when_valid (st : FormState) :
  phone_fails st = false ->
  finalPhone st = dashed (strip_non_digits (phone st))
  /\ strip_non_digits (finalPhone st) = strip_non_digits (phone st).
Proof.
  intros Hphone. unfold finalPhone. rewrite Hphone.
  split; [reflexivity |]. apply strip_dashed, strip_non_digits_digits.
Qed.

(** X3. The state a successful submission leaves is again valid, a second
    submission from it hands [onSubmit] the same record and leaves the
    state as it is: normalising the phone is idempotent, and nothing in
    the handler prevents the second call. *)
Theorem resubmission_repeats_the_record
    (p : PricingStrategy) (st : FormState) (w w' : World) :
  valid st = true ->
  valid (fst (validateAndSubmit p st w)) = true
  /\ details p (fst (validateAndSubmit p st w)) = details p st
  /\ fst (validateAndSubmit p (fst (validateAndSubmit p st w)) w')
     = fst (validateAndSubmit p st w)
  /\ onSubmit (snd (validateAndSubmit p (fst (validateAndSubmit p st w)) w'))
     = onSubmit w' ++ [details p st].
Proof.
  intros Hvalid.
  rewrite (submit_when_valid p st w Hvalid). simpl fst.
  pose proof (proj1 (valid_rules st) Hvalid)
    as (Hname & Hphone & Hcode & Hstore & Hsocial & Hwrist & Hagree).
  destruct (finalPhone_when_valid st Hphone) as [Hfinal Hstrip].
  set (st' := setErrors [] (setPhone (finalPhone st) st)).
  assert (Hphone' : phone_fails st' = false).
  { unfold phone_fails. simpl phone. rewrite Hstrip. exact Hphone. }
  assert (Hfinal' : finalPhone st' = finalPhone st).
  { unfold finalPhone at 1. rewrite Hphone'. simpl phone.
    rewrite Hstrip. symmetry. exact Hfinal. }
  assert (Hvalid' : valid st' = true).
  { apply valid_rules. repeat split; assumption. }
  assert (Hdetails : details p st' = details p st).
  { unfold details. rewrite Hfinal'. reflexivity. }
  split; [exact Hvalid' |]. split; [exact Hdetails |].
  rewrite (submit_when_valid p st' w' Hvalid'). simpl.
  rewrite Hfinal', Hdetails. split; reflexivity.
Qed.

Lemma resubmission_repeats_the_record_witness :
  valid Sample.filled = true
  /\ onSubmit
       (snd (validateAndSubmit Sample.customPolicy
               (fst (validateAndSubmit Sample.customPolicy Sample.filled Sample.world0))
               Sample.world0))
     = onSubmit Sample.world0 ++ [details Sample.customPolicy Sample.filled].
Proof.
  assert (Hvalid : valid Sample.filled = true) by (vm_compute; reflexivity).
  split; [exact Hvalid |].
  exact (proj2 (proj2 (proj2 (resubmission_repeats_the_record
                                Sample.customPolicy Sample.filled
                                Sample.world0 Sample.world0 Hvalid)))).
Defined.

(** ** Wrist size *)

Lemma remove_first_cm_keeps_digits (s : jsstring) :
  keep_digits_and_dots (remove_first_cm s) = keep_digits_and_dots s.
Proof.
  unfold keep_digits_and_dots.
  induction s as [| c r IH]; [reflexivity |].
  simpl remove_first_cm. destruct r as [| m r']; [reflexivity |].
  destruct (((c =? 99)%N || (c =? 67)%N) && ((m =? 109)%N || (m =? 77)%N)) eqn:Hcm.
  - apply andb_true_iff in Hcm. destruct Hcm as [Hc Hm].
    apply orb_true_iff in Hc. apply orb_true_iff in Hm.
    rewrite !N.eqb_eq in Hc, Hm.
    destruct Hc as [-> | ->], Hm as [-> | ->]; reflexivity.
  - change (List.filter is_digit_or_dot (c :: remove_first_cm (m :: r')))
      with (if is_digit_or_dot c
            then c :: List.filter is_digit_or_dot (remove_first_cm (m :: r'))
            else List.filter is_digit_or_dot (remove_first_cm (m :: r'))).
    rewrite IH. reflexivity.
Qed.

Lemma split_on_dot_length (cur s : jsstring) :
  length (split_go (u16 ".") O cur s) = S (count_dots s).
Proof.
  change (u16 ".") with [46%N]. unfold count_dots.
  revert cur. induction s as [| c s IH]; intros cur; [reflexivity |].
  cbn [split_go startsWith count_occ length Nat.sub].
  destruct (N.eq_dec c 46%N) as [-> | Hne].
  - cbn. rewrite IH. reflexivity.
  - assert (Hneq : (46 =? c)%N = false) by (apply N.eqb_neq; congruence).
    rewrite Hneq. cbn [andb]. apply IH.
Qed.

Lemma keep_digits_and_dots_all (s : jsstring) :
  forallb is_digit_or_dot (keep_digits_and_dots s) = true.
Proof.
  unfold keep_digits_and_dots. induction s as [| c s IH]; simpl; [reflexivity |].
  destruct (is_digit_or_dot c) eqn:Hc; simpl; [rewrite Hc |]; exact IH.
Qed.

(** X4. The wrist-size handler keeps exactly the digits and dots of what
    was typed (removing "cm" first changes nothing to that); it stores
    them when they hold at most one dot and leaves the cell alone
    otherwise, so a cell that held digits with at most one dot still
    does. *)
Theorem wrist_input_keeps_digits_and_dots (value : jsstring) (st : FormState) :
  handleWristSizeChange value st
  = (if (count_dots (keep_digits_and_dots value) <=? 1)%nat
     then setWristSize (keep_digits_and_dots value) st
     else st)
  /\ (typed_size (wristSize st) = true ->
      typed_size (wristSize (handleWristSizeChange value st)) = true).
Proof.
  assert (Heq : handleWristSizeChange value st
                = (if (count_dots (keep_digits_and_dots value) <=? 1)%nat
                   then setWristSize (keep_digits_and_dots value) st
                   else st)).
  { unfold handleWristSizeChange. rewrite remove_first_cm_keeps_digits.
    change (split (u16 ".") (keep_digits_and_dots value))
      with (split_go (u16 ".") O [] (keep_digits_and_dots value)).
    rewrite split_on_dot_length.
    destruct (count_dots (keep_digits_and_dots value)) as [| [| n]]; reflexivity. }
  split; [exact Heq |].
  intros Htyped. rewrite Heq.
  destruct (count_dots (keep_digits_and_dots value) <=? 1)%nat eqn:Hdots;
    [| exact Htyped].
  simpl wristSize. unfold typed_size.
  rewrite keep_digits_and_dots_all, Hdots. reflexivity.
Qed.

Lemma wrist_input_keeps_digits_and_dots_witness :
  typed_size (wristSize Sample.filled) = true
  /\ wristSize (handleWristSizeChange (u16 "15.5 cm") Sample.filled) = u16 "15.5"
  /\ typed_size (wristSize (handleWristSizeChange (u16 "1.5.5") Sample.filled)) = true.
Proof.
  assert (Htyped : typed_size (wristSize Sample.filled) = true)
    by (vm_compute; reflexivity).
  split; [exact Htyped |]. split.
  - rewrite (proj1 (wrist_input_keeps_digits_and_dots (u16 "15.5 cm") Sample.filled)).
    vm_compute. reflexivity.
  - exact (proj2 (wrist_input_keeps_digits_and_dots (u16 "1.5.5") Sample.filled) Htyped).
Defined.

(** *** How [Number] and [parseFloat] read a typed size *)

Lemma digit_or_dot_range (c : N) :
  is_digit_or_dot c = true -> (46 <= c <= 57)%N.
Proof.
  unfold is_digit_or_dot, is_digit.
  rewrite orb_true_iff, andb_true_iff, !N.leb_le, N.eqb_eq. lia.
Qed.

Lemma digit_or_dot_not_space (c : N) : is_digit_or_dot c = true -> is_space c = false.
Proof.
  intros Hc. apply digit_or_dot_range in Hc.
  unfold is_space. cbn [existsb].
  repeat match goal with
         | |- context [(c =? ?k)%N] =>
             replace (c =? k)%N with false by (symmetry; apply N.eqb_neq; lia)
         end.
  replace (8192 <=? c)%N with false by (symmetry; apply N.leb_gt; lia).
  reflexivity.
Qed.

Lemma trimStart_typed (s : jsstring) :
  forallb is_digit_or_dot s = true -> trimStart s = s.
Proof.
  destruct s as [| c r]; [reflexivity |]. simpl.
  rewrite andb_true_iff. intros [Hc _].
  rewrite (digit_or_dot_not_space c Hc). reflexivity.
Qed.

Lemma trim_typed (s : jsstring) :
  forallb is_digit_or_dot s = true -> trim s = s.
Proof.
  intros Hs. unfold trim, trimEnd. rewrite (trimStart_typed s Hs).
  rewrite trimStart_typed; [apply rev_involutive |].
  apply forallb_forall. intros c Hc. apply in_rev in Hc.
  exact (proj1 (forallb_forall _ _) Hs c Hc).
Qed.

Lemma scan_radix_typed (s : jsstring) :
  forallb is_digit_or_dot s = true -> scan_radix s = None.
Proof.
  destruct s as [| c0 [| c1 ds]].
  - reflexivity.
  - intros _. unfold scan_radix.
    destruct c0 as [| p]; [reflexivity |].
    repeat (destruct p as [p | p |]; try reflexivity).
  - cbn [forallb]. rewrite !andb_true_iff. intros (_ & Hc1 & _).
    apply digit_or_dot_range in Hc1.
    unfold scan_radix. cbv zeta.
    repeat match goal with
           | |- context [(c1 =? ?k)%N] =>
               replace (c1 =? k)%N with false by (symmetry; apply N.eqb_neq; lia)
           end.
    cbn [orb].
    destruct c0 as [| p]; [reflexivity |].
    repeat (destruct p as [p | p |]; try reflexivity).
Qed.

Lemma scan_decimal_unsigned (c : N) (r : jsstring) :
  is_digit_or_dot c = true ->
  scan_decimal (c :: r)
  = match scan_unsigned (c :: r) with
    | Some (None, rest) => Some (Inf false, rest)
    | Some (Some q, rest) => Some (binary64 q, rest)
    | None => None
    end.
Proof.
  intros Hc. apply digit_or_dot_range in Hc. unfold scan_decimal.
  destruct c as [| p]; [lia |].
  do 6 (try (destruct p as [p | p |]; try reflexivity; try lia)).
Qed.

Lemma span_digits_all (ds rest : jsstring) :
  forallb is_digit ds = true ->
  match rest with [] => True | c :: _ => is_digit c = false end ->
  span_digits (ds ++ rest) = (ds, rest).
Proof.
  intros Hds Hrest. induction ds as [| d ds IH]; simpl.
  - destruct rest as [| c rest]; [reflexivity |]. simpl. rewrite Hrest. reflexivity.
  - simpl in Hds. apply andb_true_iff in Hds. destruct Hds as [Hd Hds].
    rewrite Hd, (IH Hds). reflexivity.
Qed.

Lemma no_dot_digits (s : jsstring) :
  forallb is_digit_or_dot s = true -> count_dots s = 0%nat ->
  forallb is_digit s = true.
Proof.
  unfold count_dots. induction s as [| c s IH]; [reflexivity |].
  cbn [forallb count_occ]. rewrite andb_true_iff. intros [Hc Hs].
  destruct (N.eq_dec c 46%N) as [-> | Hne]; [discriminate |].
  intros Hcount. rewrite (IH Hs Hcount), andb_true_r.
  unfold is_digit_or_dot in Hc. apply orb_true_iff in Hc.
  destruct Hc as [Hc | Hc]; [exact Hc |]. apply N.eqb_eq in Hc. congruence.
Qed.

(** A typed size is a run of digits, or two runs around one dot. *)
Lemma typed_size_shape (s : jsstring) :
  typed_size s = true ->
  exists ip fp,
    forallb is_digit ip = true /\ forallb is_digit fp = true
    /\ (s = ip \/ s = ip ++ 46%N :: fp).
Proof.
  unfold typed_size, count_dots. rewrite andb_true_iff, Nat.leb_le.
  induction s as [| c s IH]; intros [Hall Hdots].
  - exists [], []. auto.
  - cbn [forallb count_occ] in Hall, Hdots.
    apply andb_true_iff in Hall. destruct Hall as [Hc Hs].
    destruct (N.eq_dec c 46%N) as [-> | Hne].
    + exists [], s. split; [reflexivity |]. split; [| right; reflexivity].
      apply no_dot_digits; [exact Hs | unfold count_dots; lia].
    + destruct (IH (conj Hs Hdots)) as (ip & fp & Hip & Hfp & Hshape).
      assert (Hd : is_digit c = true).
      { unfold is_digit_or_dot in Hc. apply orb_true_iff in Hc.
        destruct Hc as [Hc | Hc]; [exact Hc |]. apply N.eqb_eq in Hc. congruence. }
      exists (c :: ip), fp. cbn [forallb]. rewrite Hd, Hip.
      split; [reflexivity |]. split; [exact Hfp |].
      destruct Hshape as [-> | ->]; [left | right]; reflexivity.
Qed.

Lemma Infinity_not_typed (c : N) (r : jsstring) :
  is_digit_or_dot c = true -> startsWith (u16 "Infinity") (c :: r) = false.
Proof.
  intros Hc. apply digit_or_dot_range in Hc.
  change (u16 "Infinity") with (73%N :: u16 "nfinity"). cbn [startsWith].
  replace (73 =? c)%N with false by (symmetry; apply N.eqb_neq; lia).
  reflexivity.
Qed.

(** On a typed size the decimal scanner either fails or reads the whole
    text. *)
Lemma scan_unsigned_typed (s : jsstring) :
  typed_size s = true -> s <> [] ->
  scan_unsigned s = None \/ exists q, scan_unsigned s = Some (Some q, []).
Proof.
  intros Htyped Hnonempty.
  destruct (typed_size_shape s Htyped) as (ip & fp & Hip & Hfp & Hshape).
  assert (Hall : forallb is_digit_or_dot s = true).
  { unfold typed_size in Htyped. apply andb_true_iff in Htyped. tauto. }
  assert (Hinf : startsWith (u16 "Infinity") s = false).
  { destruct s as [| c r]; [contradiction |].
    apply andb_true_iff in Hall. destruct Hall as [Hc _].
    apply Infinity_not_typed, Hc. }
  assert (Hfrac : span_digits fp = (fp, [])).
  { rewrite <- (app_nil_r fp) at 1. apply (span_digits_all fp [] Hfp I). }
  unfold scan_unsigned. rewrite Hinf.
  destruct Hshape as [Hs | Hs].
  - assert (Hspan : span_digits s = (ip, [])).
    { rewrite Hs. rewrite <- (app_nil_r ip) at 1.
      apply (span_digits_all ip [] Hip I). }
    rewrite Hspan.
    destruct ip as [| d ip]; [congruence |].
    right. eexists. reflexivity.
  - assert (Hspan : span_digits s = (ip, 46%N :: fp)).
    { rewrite Hs. apply (span_digits_all ip (46%N :: fp) Hip eq_refl). }
    rewrite Hspan, Hfrac.
    destruct ip as [| d ip]; [destruct fp as [| f fp] |].
    + left. reflexivity.
    + right. eexists. reflexivity.
    + right. eexists. reflexivity.
Qed.

(** X5. On a size as the keyboard produces it (digits with at most one
    dot) that is not empty, [Number], which the pricing uses, and
    [parseFloat], which the validation uses, read the same number. *)
Theorem typed_size_reads_the_same (s : jsstring) :
  typed_size s = true -> s <> [] -> Number s = parseFloat s.
Proof.
  intros Htyped Hnonempty.
  assert (Hall : forallb is_digit_or_dot s = true).
  { unfold typed_size in Htyped. apply andb_true_iff in Htyped. tauto. }
  unfold Number, parseFloat.
  rewrite (trim_typed s Hall), (trimStart_typed s Hall).
  destruct s as [| c r]; [contradiction |].
  rewrite (scan_radix_typed (c :: r) Hall).
  apply andb_true_iff in Hall. destruct Hall as [Hc _].
  rewrite (scan_decimal_unsigned c r Hc).
  destruct (scan_unsigned_typed (c :: r) Htyped Hnonempty) as [-> | [q ->]];
    reflexivity.
Qed.

Lemma typed_size_reads_the_same_witness :
  typed_size (u16 "16.5") = true /\ u16 "16.5" <> []
  /\ Number (u16 "16.5") = parseFloat (u16 "16.5").
Proof.
  assert (Htyped : typed_size (u16 "16.5") = true) by (vm_compute; reflexivity).
  assert (Hnonempty : u16 "16.5" <> []) by (vm_compute; discriminate).
  split; [exact Htyped |]. split; [exact Hnonempty |].
  exact (typed_size_reads_the_same (u16 "16.5") Htyped Hnonempty).
Defined.

(** Outside the typed sizes the two readers part: a size restored from a
    draft written by other means passes the validation and escapes the
    surcharge. *)
Example untyped_size_reads_differently :
  wristSize_fails (setWristSize (u16 "18cm") Sample.filled) = false
  /\ isSurchargeApplicable Sample.customPolicy (setWristSize (u16 "18cm") Sample.filled)
     = false.
Proof. split; vm_compute; reflexivity. Qed.

(** ** Colours *)

Lemma array_includes_In (x : jsstring) (a : list jsstring) :
  array_includes x a = true <-> In x a.
Proof.
  unfold array_includes. rewrite existsb_exists. split.
  - intros (y & Hy & Heq). apply str_eqb_true in Heq. subst. exact Hy.
  - intros Hx. exists x. split; [exact Hx | apply str_eqb_true; reflexivity].
Qed.

(** X6. Toggling a colour flips whether it is selected and nothing else:
    every other colour stays selected or not as it was, a selection
    without repetition stays without repetition, and the price is not
    affected. *)
Theorem toggleColor_flips_one_colour
    (p : PricingStrategy) (color : jsstring) (st : FormState) :
  (In color (preferredColors (toggleColor color st))
   <-> ~ In color (preferredColors st))
  /\ (forall other, other <> color ->
        (In other (preferredColors (toggleColor color st))
         <-> In other (preferredColors st)))
  /\ (List.NoDup (preferredColors st) ->
      List.NoDup (preferredColors (toggleColor color st)))
  /\ totalPrice p (toggleColor color st) = totalPrice p st.
Proof.
  unfold toggleColor.
  destruct (array_includes color (preferredColors st)) eqn:Hin.
  - apply array_includes_In in Hin. simpl preferredColors.
    split; [| split; [| split]].
    + rewrite filter_In, negb_true_iff, str_eqb_false. tauto.
    + intros other Hne. rewrite filter_In, negb_true_iff, str_eqb_false. tauto.
    + intros Hnodup. apply List.NoDup_filter, Hnodup.
    + reflexivity.
  - assert (Hnot : ~ In color (preferredColors st)).
    { intros H. apply array_includes_In in H. congruence. }
    simpl preferredColors. split; [| split; [| split]].
    + rewrite in_app_iff. simpl. tauto.
    + intros other Hne. rewrite in_app_iff. simpl. split; [| tauto].
      intros [H | [H | []]]; [exact H | congruence].
    + intros Hnodup. apply NoDup_ListNoDup. apply NoDup_ListNoDup in Hnodup.
      apply NoDup_app. split; [exact Hnodup |]. split.
      * intros x Hx Hx'. apply list_elem_of_In in Hx.
        apply list_elem_of_In in Hx'. simpl in Hx'.
        destruct Hx' as [<- | []]. contradiction.
      * apply NoDup_singleton.
    + reflexivity.
Qed.

Lemma toggleColor_flips_one_colour_witness :
  List.NoDup (preferredColors Sample.filled)
  /\ List.NoDup (preferredColors (toggleColor (u16 "紅") Sample.filled))
  /\ ~ In (u16 "紅") (preferredColors (toggleColor (u16 "紅") Sample.filled)).
Proof.
  assert (Hnodup : List.NoDup (preferredColors Sample.filled)).
  { vm_compute. repeat constructor; simpl; intuition discriminate. }
  destruct (toggleColor_flips_one_colour Sample.customPolicy (u16 "紅") Sample.filled)
    as (Hflip & _ & Hkeep & _).
  split; [exact Hnodup |]. split; [exact (Hkeep Hnodup) |].
  intros Hin. apply Hflip in Hin. apply Hin. vm_compute. auto.
Defined.

(** ** The custom-size toggle *)

(** X7. Checking the custom-size box empties the wrist size, so the rule
    of the wrist size fails and the form cannot be submitted until a size
    is typed; unchecking it writes [14], which passes. Under a standard
    strategy the surcharge follows the box. *)
Theorem custom_size_toggle_resets_the_size
    (p : PricingStrategy) (checked : bool) (st : FormState) :
  wristSize_fails (handleCustomSizeToggle checked st) = checked
  /\ (checked = true -> valid (handleCustomSizeToggle checked st) = false)
  /\ (type p = standard ->
      isSurchargeApplicable p (handleCustomSizeToggle checked st) = checked)
  /\ typed_size (wristSize (handleCustomSizeToggle checked st)) = true
  /\ wristSize (handleCustomSizeToggle checked st)
     = (if checked then [] else u16 "14")
  /\ isCustomSize (handleCustomSizeToggle checked st) = checked.
Proof.
  split; [| split; [| split; [| split; [| split]]]];
    [| | | | destruct checked; reflexivity | destruct checked; reflexivity].
  - destruct checked; vm_compute; reflexivity.
  - intros ->. destruct (valid _) eqn:Hvalid; [| reflexivity].
    apply valid_rules in Hvalid. destruct Hvalid as (_ & _ & _ & _ & _ & Hwrist & _).
    vm_compute in Hwrist. discriminate.
  - intros Hstd. unfold isSurchargeApplicable, isStandard. rewrite Hstd.
    destruct checked; reflexivity.
  - destruct checked; vm_compute; reflexivity.
Qed.

Lemma custom_size_toggle_resets_the_size_witness :
  type Sample.standardPolicy = standard
  /\ valid (handleCustomSizeToggle true Sample.filled) = false
  /\ isSurchargeApplicable Sample.standardPolicy
       (handleCustomSizeToggle false Sample.filled) = false.
Proof.
  destruct (custom_size_toggle_resets_the_size Sample.standardPolicy true Sample.filled)
    as (_ & Hblocked & _ & _).
  destruct (custom_size_toggle_resets_the_size Sample.standardPolicy false Sample.filled)
    as (_ & _ & Hsurcharge & _).
  split; [reflexivity |]. split; [exact (Hblocked eq_refl) | exact (Hsurcharge eq_refl)].
Defined.

(** ** Coupon *)

Lemma baseTotal_cells (p : PricingStrategy) (a b : FormState) :
  wristSize a = wristSize b ->
  isCustomSize a = isCustomSize b ->
  addPurificationBag a = addPurificationBag b ->
  baseTotal p a = baseTotal p b.
Proof.
  intros Hsize Htoggle Hbag. unfold baseTotal, isSurchargeApplicable.
  rewrite Hsize, Htoggle, Hbag. reflexivity.
Qed.

(** The four ways [handleApplyCoupon] ends. *)
Lemma handleApplyCoupon_cases
    (toUpperCase : jsstring -> jsstring) (cfg : CouponConfig.t) (st : FormState) :
  let applied :=
    Some {| AppliedCoupon.code := CouponConfig.code cfg;
            AppliedCoupon.amount := CouponConfig.discountAmount cfg |} in
  handleApplyCoupon toUpperCase cfg st = setCouponError [] st
  \/ handleApplyCoupon toUpperCase cfg st = setCouponError couponsDisabledMessage st
  \/ handleApplyCoupon toUpperCase cfg st
     = setCouponError [] (setAppliedCoupon applied st)
  \/ handleApplyCoupon toUpperCase cfg st
     = setCouponError invalidCouponMessage (setAppliedCoupon None st).
Proof.
  destruct st as [rn ph sc sn si ws cs bag cols input applied0 err ag errs shake].
  destruct cfg as [code amount event enabled].
  cbv beta iota zeta delta
    -[trim truthy str_eqb u16 couponsDisabledMessage invalidCouponMessage].
  destruct (truthy (trim input)); [| left; reflexivity].
  destruct enabled; [| right; left; reflexivity].
  destruct (str_eqb (toUpperCase (trim input)) (toUpperCase code)).
  - right. right. left. reflexivity.
  - right. right. right. reflexivity.
Qed.

Lemma handleApplyCoupon_idempotent
    (toUpperCase : jsstring -> jsstring) (cfg : CouponConfig.t) (st : FormState) :
  handleApplyCoupon toUpperCase cfg (handleApplyCoupon toUpperCase cfg st)
  = handleApplyCoupon toUpperCase cfg st.
Proof.
  destruct st as [rn ph sc sn si ws cs bag cols input applied0 err ag errs shake].
  destruct cfg as [code amount event enabled].
  cbv beta iota zeta delta
    -[trim truthy str_eqb u16 couponsDisabledMessage invalidCouponMessage].
  destruct (truthy (trim input)) eqn:Hinput;
    cbv beta iota zeta delta
      -[trim truthy str_eqb u16 couponsDisabledMessage invalidCouponMessage];
    rewrite ?Hinput; [| reflexivity].
  destruct enabled;
    cbv beta iota zeta delta
      -[trim truthy str_eqb u16 couponsDisabledMessage invalidCouponMessage];
    rewrite ?Hinput; [| reflexivity].
  destruct (str_eqb (toUpperCase (trim input)) (toUpperCase code)) eqn:Hmatch;
    cbv beta iota zeta delta
      -[trim truthy str_eqb u16 couponsDisabledMessage invalidCouponMessage];
    rewrite ?Hinput, ?Hmatch; reflexivity.
Qed.

(** X8. Applying the coupon twice is applying it once, and a coupon that
    is applied replaces the one before: the applied coupon is the one
    that was there or the configured one, never a sum. The handler leaves
    the total before discount alone, and removing the coupon brings the
    price back to that total, floored at zero. *)
Theorem coupon_is_replaced_not_stacked
    (toUpperCase : jsstring -> jsstring) (cfg : CouponConfig.t)
    (p : PricingStrategy) (st : FormState) :
  handleApplyCoupon toUpperCase cfg (handleApplyCoupon toUpperCase cfg st)
  = handleApplyCoupon toUpperCase cfg st
  /\ baseTotal p (handleApplyCoupon toUpperCase cfg st) = baseTotal p st
  /\ (forall c,
        appliedCoupon (handleApplyCoupon toUpperCase cfg st) = Some c ->
        appliedCoupon st = Some c
        \/ c = {| AppliedCoupon.code := CouponConfig.code cfg;
                  AppliedCoupon.amount := CouponConfig.discountAmount cfg |})
  /\ totalPrice p (handleRemoveCoupon (handleApplyCoupon toUpperCase cfg st))
     = Math_max (of_Z 0) (baseTotal p st).
Proof.
  assert (Hbase : baseTotal p (handleApplyCoupon toUpperCase cfg st) = baseTotal p st).
  { apply baseTotal_cells;
      destruct (handleApplyCoupon_cases toUpperCase cfg st) as [-> | [-> | [-> | ->]]];
      reflexivity. }
  split; [apply handleApplyCoupon_idempotent |]. split; [exact Hbase |]. split.
  - intros c.
    destruct (handleApplyCoupon_cases toUpperCase cfg st) as [-> | [-> | [-> | ->]]];
      cbn [appliedCoupon setCouponError setAppliedCoupon].
    + auto.
    + auto.
    + intros [= <-]. auto.
    + discriminate.
  - rewrite totalPrice_without_coupon by reflexivity.
    rewrite <- Hbase. unfold handleRemoveCoupon.
    rewrite (baseTotal_cells p
               (setCouponInput [] (setAppliedCoupon None
                                     (handleApplyCoupon toUpperCase cfg st)))
               (handleApplyCoupon toUpperCase cfg st)); reflexivity.
Qed.
Lemma coupon_is_replaced_not_stacked_witness :
  handleApplyCoupon ascii_upper Sample.save10
    (handleApplyCoupon ascii_upper Sample.save10 Sample.filled)
  = handleApplyCoupon ascii_upper Sample.save10 Sample.filled
  /\ discount (handleApplyCoupon ascii_upper Sample.save10 Sample.filled) = of_Z 100
  /\ totalPrice Sample.customPolicy
       (handleRemoveCoupon (handleApplyCoupon ascii_upper Sample.save10 Sample.filled))
     = of_Z 3180.
Proof.
  destruct (coupon_is_replaced_not_stacked ascii_upper Sample.save10
              Sample.customPolicy Sample.filled) as (Hidem & _ & _ & Hremove).
  split; [exact Hidem |]. split; [vm_compute; reflexivity |].
  rewrite Hremove. vm_compute. reflexivity.
Defined.

(** ** Draft round trip *)

(** X9. A form mounted on the draft that the effect just saved gets back
    the name, phone, store code, store name, social handle, bag flag and
    colours as they were, and the wrist size when it is not empty; an
    empty wrist size comes back as the default of the strategy. The
    custom-size toggle is not stored: under a standard strategy the
    surcharge of the restored form is decided by whether the saved size is
    neither empty nor [14]. The coupon is gone, so the restored price is
    the total before discount. *)
Theorem draft_round_trip (p : PricingStrategy) (st : FormState) (w : World) :
  exists st',
    mount p (snd (autoSave st w)) = inr st'
    /\ realName st' = realName st /\ phone st' = phone st
    /\ storeCode st' = storeCode st /\ storeName st' = storeName st
    /\ socialId st' = socialId st
    /\ addPurificationBag st' = addPurificationBag st
    /\ preferredColors st' = preferredColors st
    /\ (wristSize st <> [] -> wristSize st' = wristSize st)
    /\ (wristSize st = [] ->
        wristSize st' = if isStandard p then u16 "14" else [])
    /\ isSurchargeApplicable p st'
       = (if isStandard p
          then truthy (wristSize st) && negb (str_eqb (wristSize st) (u16 "14"))
          else isSurchargeApplicable p st)
    /\ totalPrice p st' = Math_max (of_Z 0) (baseTotal p st').
Proof.
  eexists. split; [apply mount_after_save |].
  cbn [realName phone storeCode storeName socialId addPurificationBag
       preferredColors wristSize].
  repeat (split; [reflexivity |]).
  split; [| split; [| split]].
  - intros Hsize. destruct (wristSize st); [contradiction | reflexivity].
  - intros ->. reflexivity.
  - unfold isSurchargeApplicable. cbn [isCustomSize wristSize].
    destruct (isStandard p); [reflexivity |].
    destruct (wristSize st); reflexivity.
  - apply totalPrice_without_coupon. reflexivity.
Qed.

Example reload_can_change_the_price :
  isSurchargeApplicable Sample.standardPolicy
    (setWristSize (u16 "14") (handleCustomSizeToggle true Sample.filled)) = true
  /\ (exists st',
        mount Sample.standardPolicy
          (snd (autoSave (setWristSize (u16 "14")
                            (handleCustomSizeToggle true Sample.filled))
                  Sample.world0)) = inr st'
        /\ isSurchargeApplicable Sample.standardPolicy st' = false).
Proof.
  split; [reflexivity |].
  eexists. split; [apply mount_after_save |]. vm_compute. reflexivity.
Qed.

(** ** Eager clearing of errors *)

Lemma get_not_key {V} (k : string) (o : Obj.t V) :
  ~ In k (map fst o) -> Obj.get k o = None.
Proof.
  induction o as [| [k' v] o IH]; [reflexivity |].
  simpl. intros Hnot. destruct (String.eqb_spec k k') as [-> | Hne].
  - exfalso. apply Hnot. left. reflexivity.
  - apply IH. intros Hin. apply Hnot. right. exact Hin.
Qed.

Lemma get_delete_same {V} (k : string) (o : Obj.t V) :
  List.NoDup (map fst o) -> Obj.get k (Obj.delete k o) = None.
Proof.
  induction o as [| [k' v] o IH]; [reflexivity |].
  simpl. intros Hnodup. apply List.NoDup_cons_iff in Hnodup.
  destruct Hnodup as [Hfresh Hnodup].
  destruct (String.eqb_spec k k') as [-> | Hne].
  - apply get_not_key, Hfresh.
  - simpl. destruct (String.eqb_spec k k'); [contradiction |]. apply IH, Hnodup.
Qed.

Lemma get_delete_other {V} (k k' : string) (o : Obj.t V) :
  k <> k' -> Obj.get k (Obj.delete k' o) = Obj.get k o.
Proof.
  intros Hne. induction o as [| [k0 v] o IH]; [reflexivity |].
  simpl. destruct (String.eqb_spec k' k0) as [-> | Hne0].
  - destruct (String.eqb_spec k k0); [contradiction | reflexivity].
  - simpl. rewrite IH. reflexivity.
Qed.

Lemma delete_keys_subset {V} (k x : string) (o : Obj.t V) :
  In x (map fst (Obj.delete k o)) -> In x (map fst o).
Proof.
  induction o as [| [k0 v] o IH]; [intros [] |].
  simpl. destruct (String.eqb k k0); simpl; tauto.
Qed.

Lemma delete_keeps_nodup {V} (k : string) (o : Obj.t V) :
  List.NoDup (map fst o) -> List.NoDup (map fst (Obj.delete k o)).
Proof.
  induction o as [| [k0 v] o IH]; [intros H; exact H |].
  simpl. intros Hnodup. apply List.NoDup_cons_iff in Hnodup.
  destruct Hnodup as [Hfresh Hnodup].
  destruct (String.eqb k k0); [exact Hnodup |].
  simpl. constructor; [| apply IH, Hnodup].
  intros Hin. apply Hfresh. exact (delete_keys_subset k k0 o Hin).
Qed.

Lemma clearErrorIf_step (c : bool) (field : string) (st : FormState) :
  List.NoDup (map fst (errors st)) ->
  List.NoDup (map fst (errors (clearErrorIf c field st)))
  /\ forall k,
       Obj.get k (errors (clearErrorIf c field st))
       = if c && String.eqb k field then squash (Obj.get k (errors st))
         else Obj.get k (errors st).
Proof.
  intros Hnodup. unfold clearErrorIf, clearError.
  destruct c; [| split; [exact Hnodup | reflexivity]].
  destruct (Obj.get field (errors st)) as [[| ch msg] |] eqn:Hget; cbn [errors setErrors].
  - split; [exact Hnodup |]. intros k. simpl.
    destruct (String.eqb_spec k field) as [-> | _]; [rewrite Hget |]; reflexivity.
  - split; [apply delete_keeps_nodup, Hnodup |]. intros k. simpl.
    destruct (String.eqb_spec k field) as [-> | Hne].
    + rewrite Hget. apply get_delete_same, Hnodup.
    + apply get_delete_other, Hne.
  - split; [exact Hnodup |]. intros k. simpl.
    destruct (String.eqb_spec k field) as [-> | _]; [rewrite Hget |]; reflexivity.
Qed.

(** The entry of a field after the auto-save effect. *)
Lemma autoSave_entry (st : FormState) (w : World) :
  List.NoDup (map fst (errors st)) ->
  forall k,
    Obj.get k (errors (fst (autoSave st w)))
    = if cell_truthy st k then squash (Obj.get k (errors st))
      else Obj.get k (errors st).
Proof.
  intros H0 k. unfold autoSave. cbn [fst].
  destruct (clearErrorIf_step (truthy (realName st)) "realName" st H0) as [H1 G1].
  set (st1 := clearErrorIf (truthy (realName st)) "realName" st) in *.
  destruct (clearErrorIf_step (truthy (phone st)) "phone" st1 H1) as [H2 G2].
  set (st2 := clearErrorIf (truthy (phone st)) "phone" st1) in *.
  destruct (clearErrorIf_step (truthy (storeCode st)) "storeCode" st2 H2) as [H3 G3].
  set (st3 := clearErrorIf (truthy (storeCode st)) "storeCode" st2) in *.
  destruct (clearErrorIf_step (truthy (storeName st)) "storeName" st3 H3) as [H4 G4].
  set (st4 := clearErrorIf (truthy (storeName st)) "storeName" st3) in *.
  destruct (clearErrorIf_step (truthy (socialId st)) "socialId" st4 H4) as [H5 G5].
  set (st5 := clearErrorIf (truthy (socialId st)) "socialId" st4) in *.
  destruct (clearErrorIf_step (truthy (wristSize st)) "wristSize" st5 H5) as [H6 G6].
  set (st6 := clearErrorIf (truthy (wristSize st)) "wristSize" st5) in *.
  destruct (clearErrorIf_step (agreed st) "agreement" st6 H6) as [_ G7].
  rewrite G7, G6, G5, G4, G3, G2, G1. unfold cell_truthy.
  destruct (String.eqb_spec k "realName") as [-> | _];
    [cbn; rewrite ?andb_false_r, ?andb_true_r; cbn; destruct (truthy (realName st)); reflexivity |].
  destruct (String.eqb_spec k "phone") as [-> | _];
    [cbn; rewrite ?andb_false_r, ?andb_true_r; cbn; destruct (truthy (phone st)); reflexivity |].
  destruct (String.eqb_spec k "storeCode") as [-> | _];
    [cbn; rewrite ?andb_false_r, ?andb_true_r; cbn; destruct (truthy (storeCode st)); reflexivity |].
  destruct (String.eqb_spec k "storeName") as [-> | _];
    [cbn; rewrite ?andb_false_r, ?andb_true_r; cbn; destruct (truthy (storeName st)); reflexivity |].
  destruct (String.eqb_spec k "socialId") as [-> | _];
    [cbn; rewrite ?andb_false_r, ?andb_true_r; cbn; destruct (truthy (socialId st)); reflexivity |].
  destruct (String.eqb_spec k "wristSize") as [-> | _];
    [cbn; rewrite ?andb_false_r, ?andb_true_r; cbn; destruct (truthy (wristSize st)); reflexivity |].
  destruct (String.eqb_spec k "agreement") as [-> | _];
    [cbn; rewrite ?andb_false_r, ?andb_true_r; cbn; destruct (agreed st); reflexivity |].
  rewrite !andb_false_r. reflexivity.
Qed.

(** X10. The auto-save effect removes from the error mapping the message
    of every field whose cell is filled in (for the agreement: whose box
    is checked), whether or not the content is valid, and leaves every
    other entry as it is: it adds no message, and no message that is not
    empty remains on a filled field. *)
Theorem autoSave_clears_filled_fields (st : FormState) (w : World) :
  List.NoDup (map fst (errors st)) ->
  forall k,
    Obj.get k (errors (fst (autoSave st w)))
    = (if cell_truthy st k then squash (Obj.get k (errors st))
       else Obj.get k (errors st))
    /\ (is_Some (Obj.get k (errors (fst (autoSave st w)))) ->
        is_Some (Obj.get k (errors st)))
    /\ (cell_truthy st k = true ->
        forall c m, Obj.get k (errors (fst (autoSave st w))) <> Some (c :: m)).
Proof.
  intros Hnodup k. rewrite (autoSave_entry st w Hnodup k).
  split; [reflexivity |]. split.
  - destruct (cell_truthy st k); [| exact (fun H => H)].
    destruct (Obj.get k (errors st)) as [[| c m] |]; simpl; intros [x Hx];
      try discriminate Hx.
    eexists. reflexivity.
  - intros -> c m.
    destruct (Obj.get k (errors st)) as [[| c' m'] |]; simpl; discriminate.
Qed.

Lemma get_set {V} (k f : string) (v : V) (o : Obj.t V) :
  Obj.get k (Obj.set f v o) = if String.eqb k f then Some v else Obj.get k o.
Proof.
  induction o as [| [k0 v0] o IH]; simpl.
  - reflexivity.
  - destruct (String.eqb_spec f k0) as [-> | Hne]; simpl.
    + destruct (String.eqb k k0); reflexivity.
    + rewrite IH. destruct (String.eqb_spec k f) as [-> | _]; [| reflexivity].
      destruct (String.eqb_spec f k0); [contradiction | reflexivity].
Qed.

Lemma get_set_if (k f : string) (c : bool) (msg : string) (o : Obj.t jsstring) :
  Obj.get k (set_if c f msg o)
  = if c && String.eqb k f then Some (u16 msg) else Obj.get k o.
Proof. unfold set_if. destruct c; [apply get_set | reflexivity]. Qed.

Lemma utf8_units_nonempty (b : N) (bs : list N) :
  exists c m, utf8_units (b :: bs) = c :: m.
Proof.
  cbn [utf8_units].
  destruct (b <? 128)%N; [eexists _, _; reflexivity |].
  destruct (b <? 224)%N.
  { destruct bs; eexists _, _; reflexivity. }
  destruct (b <? 240)%N.
  { destruct bs as [| ? [| ? ?]]; eexists _, _; reflexivity. }
  destruct bs as [| ? [| ? [| ? ?]]]; eexists _, _; reflexivity.
Qed.

Lemma u16_nonempty (a : ascii) (s : string) :
  exists c m, u16 (String a s) = c :: m.
Proof. unfold u16. cbn [list_ascii_of_string map]. apply utf8_units_nonempty. Qed.

(** The error mapping has an entry, with a message that is not empty,
    exactly for the fields whose rule fails. *)
Lemma newErrors_entry (st : FormState) (k : string) :
  (Obj.get k (newErrors st) = None /\ field_fails st k = false)
  \/ (exists c m, Obj.get k (newErrors st) = Some (c :: m) /\ field_fails st k = true).
Proof.
  unfold newErrors, field_fails. rewrite !get_set_if. cbn [Obj.get].
  repeat match goal with
         | |- context [u16 (String ?a ?s)] =>
             let c := fresh "c" in
             let m := fresh "m" in
             let H := fresh "H" in
             destruct (u16_nonempty a s) as (c & m & H); rewrite H; clear H
         end.
  destruct (String.eqb_spec k "realName") as [-> | _].
  { cbn [String.eqb Ascii.eqb Bool.eqb andb]. rewrite ?andb_false_r, ?andb_true_r.
    destruct (realName_fails st); [right; eexists _, _ | left]; split; reflexivity. }
  destruct (String.eqb_spec k "phone") as [-> | _].
  { cbn [String.eqb Ascii.eqb Bool.eqb andb]. rewrite ?andb_false_r, ?andb_true_r.
    destruct (phone_fails st); [right; eexists _, _ | left]; split; reflexivity. }
  destruct (String.eqb_spec k "storeCode") as [-> | _].
  { cbn [String.eqb Ascii.eqb Bool.eqb andb]. rewrite ?andb_false_r, ?andb_true_r.
    destruct (storeCode_fails st); [right; eexists _, _ | left]; split; reflexivity. }
  destruct (String.eqb_spec k "storeName") as [-> | _].
  { cbn [String.eqb Ascii.eqb Bool.eqb andb]. rewrite ?andb_false_r, ?andb_true_r.
    destruct (storeName_fails st); [right; eexists _, _ | left]; split; reflexivity. }
  destruct (String.eqb_spec k "socialId") as [-> | _].
  { cbn [String.eqb Ascii.eqb Bool.eqb andb]. rewrite ?andb_false_r, ?andb_true_r.
    destruct (socialId_fails st); [right; eexists _, _ | left]; split; reflexivity. }
  destruct (String.eqb_spec k "wristSize") as [-> | _].
  { cbn [String.eqb Ascii.eqb Bool.eqb andb]. rewrite ?andb_false_r, ?andb_true_r.
    destruct (wristSize_fails st); [right; eexists _, _ | left]; split; reflexivity. }
  destruct (String.eqb_spec k "agreement") as [-> | _].
  { cbn [String.eqb Ascii.eqb Bool.eqb andb]. rewrite ?andb_false_r, ?andb_true_r.
    destruct (agreement_fails st); [right; eexists _, _ | left]; split; reflexivity. }
  left. rewrite !andb_false_r. split; reflexivity.
Qed.

Lemma newErrors_nodup (st : FormState) : List.NoDup (map fst (newErrors st)).
Proof.
  unfold newErrors, set_if.
  destruct (realName_fails st), (phone_fails st), (storeCode_fails st),
    (storeName_fails st), (socialId_fails st), (wristSize_fails st),
    (agreement_fails st);
    apply NoDup_ListNoDup; apply (bool_decide_unpack _); vm_compute; exact I.
Qed.

Lemma mobile_not_empty (s : jsstring) :
  test_mobile (strip_non_digits s) = true -> truthy s = true.
Proof. destruct s; [discriminate | reflexivity]. Qed.

Lemma cell_truthy_after_submit
    (p : PricingStrategy) (st : FormState) (w : World) (k : string) :
  cell_truthy (fst (validateAndSubmit p st w)) k = cell_truthy st k.
Proof.
  assert (Hphone : truthy (phone (if phone_fails st then st
                                  else setPhone (finalPhone st) st))
                   = truthy (phone st)).
  { destruct (phone_fails st) eqn:Hfails; [reflexivity |].
    unfold phone_fails in Hfails. apply negb_false_iff in Hfails.
    rewrite (mobile_not_empty _ Hfails).
    unfold finalPhone, phone_fails. rewrite Hfails.
    cbn [negb phone setPhone]. unfold dashed.
    destruct (slice 0 4 (strip_non_digits (phone st))); reflexivity. }
  unfold validateAndSubmit.
  destruct (Obj.keys (newErrors st)) as [| field rest];
    [| destruct (Obj.get field refs)];
    unfold cell_truthy; cbn [fst realName phone storeCode storeName socialId
                               wristSize agreed setErrors setShakingField];
    rewrite Hphone; destruct (phone_fails st); reflexivity.
Qed.

(** X11. When the effect runs on the state a failed submission leaves,
    the only messages that remain are those of failing fields whose cell
    is empty (or whose box is unchecked): a field that is filled in with
    an invalid content loses its message. *)
Theorem effect_after_failed_submit_keeps_only_empty_fields
    (p : PricingStrategy) (st : FormState) (w w' : World) (k : string) :
  valid st = false ->
  (is_Some (Obj.get k (errors (fst (autoSave (fst (validateAndSubmit p st w)) w'))))
   <-> field_fails st k = true /\ cell_truthy st k = false).
Proof.
  intros Hinvalid.
  destruct (submit_when_invalid p st w Hinvalid) as [Herrors _].
  rewrite autoSave_entry by (rewrite Herrors; apply newErrors_nodup).
  rewrite Herrors, cell_truthy_after_submit.
  destruct (newErrors_entry st k) as [[-> ->] | (c & m & -> & ->)].
  - destruct (cell_truthy st k); simpl; split;
      try (intros [x Hx]; discriminate); intros [H _]; discriminate.
  - destruct (cell_truthy st k); simpl; split.
    + intros [x Hx]. discriminate.
    + intros [_ H]. discriminate.
    + intros _. auto.
    + intros _. eexists. reflexivity.
Qed.

Lemma autoSave_clears_filled_fields_witness :
  List.NoDup
    (map fst (errors (fst (validateAndSubmit Sample.customPolicy Sample.unfinished
                             Sample.world0))))
  /\ Obj.get "storeCode"
       (errors (fst (autoSave
                       (fst (validateAndSubmit Sample.customPolicy Sample.unfinished
                               Sample.world0))
                       Sample.world0)))
     = None
  /\ is_Some
       (Obj.get "agreement"
          (errors (fst (autoSave
                          (fst (validateAndSubmit Sample.customPolicy Sample.unfinished
                                  Sample.world0))
                          Sample.world0)))).
Proof.
  assert (Hnodup : List.NoDup
            (map fst (errors (fst (validateAndSubmit Sample.customPolicy
                                     Sample.unfinished Sample.world0))))).
  { apply NoDup_ListNoDup. apply (bool_decide_unpack _). vm_compute. exact I. }
  split; [exact Hnodup |]. split.
  - rewrite (proj1 (autoSave_clears_filled_fields _ Sample.world0 Hnodup "storeCode")).
    vm_compute. reflexivity.
  - rewrite (proj1 (autoSave_clears_filled_fields _ Sample.world0 Hnodup "agreement")).
    vm_compute. eexists. reflexivity.
Defined.

Lemma effect_after_failed_submit_keeps_only_empty_fields_witness :
  valid Sample.unfinished = false
  /\ (field_fails Sample.unfinished "storeCode" = true
      /\ cell_truthy Sample.unfinished "storeCode" = true)
  /\ ~ is_Some
         (Obj.get "storeCode"
            (errors (fst (autoSave
                            (fst (validateAndSubmit Sample.customPolicy
                                    Sample.unfinished Sample.world0))
                            Sample.world0)))).
Proof.
  assert (Hinvalid : valid Sample.unfinished = false) by (vm_compute; reflexivity).
  split; [exact Hinvalid |]. split; [split; vm_compute; reflexivity |].
  intros Hentry.
  apply (effect_after_failed_submit_keeps_only_empty_fields
           Sample.customPolicy Sample.unfinished Sample.world0 Sample.world0
           "storeCode" Hinvalid) in Hentry.
  destruct Hentry as [_ Hempty]. vm_compute in Hempty. discriminate Hempty.
Defined.

(** ** Delivery, continued *)

Lemma startsWith_app (p rest : jsstring) : startsWith p (p ++ rest) = true.
Proof.
  induction p as [| c p IH]; [reflexivity |].
  simpl. rewrite N.eqb_refl, IH. reflexivity.
Qed.

Lemma startsWith_split (p s : jsstring) :
  startsWith p s = true -> s = p ++ drop (length p) s.
Proof.
  revert s. induction p as [| c p IH]; intros s; [reflexivity |].
  destruct s as [| d s]; [discriminate |]. simpl.
  rewrite andb_true_iff, N.eqb_eq. intros [-> Hs].
  f_equal. apply IH, Hs.
Qed.

Lemma includes_app (p before rest : jsstring) :
  includes p (before ++ p ++ rest) = true.
Proof.
  induction before as [| c before IH].
  - simpl app. destruct (p ++ rest) eqn:Heq; simpl;
      rewrite <- ?Heq, startsWith_app; reflexivity.
  - simpl. rewrite IH. apply orb_true_r.
Qed.

Lemma in_take {A} (x : A) (n : nat) (l : list A) : In x (take n l) -> In x l.
Proof.
  revert n. induction l as [| a l IH]; intros [| n]; simpl; try tauto.
  intros [H | H]; [left; exact H | right; exact (IH n H)].
Qed.

(** An occurrence of the marker has its comma seven code units on. *)
Lemma marker_needs_comma (s : jsstring) :
  startsWith (u16 "base64,") s = true -> In 44%N (take 7 s).
Proof.
  intros H. apply startsWith_split in H. rewrite H.
  change (u16 "base64,") with [98; 97; 115; 101; 54; 52; 44]%N.
  cbn [app take length drop]. simpl. auto 10.
Qed.

Lemma split_without_comma (cur s : jsstring) :
  ~ In 44%N s -> split_go (u16 "base64,") O cur s = [rev cur ++ s].
Proof.
  revert cur. induction s as [| c s IH]; intros cur Hno.
  - simpl. rewrite app_nil_r. reflexivity.
  - cbn [split_go].
    destruct (startsWith (u16 "base64,") (c :: s)) eqn:Hstart.
    + exfalso. apply Hno. exact (in_take _ _ _ (marker_needs_comma _ Hstart)).
    + rewrite IH by (intros Hin; apply Hno; right; exact Hin).
      simpl. rewrite <- app_assoc. reflexivity.
Qed.

Lemma no_marker_inside (c : N) (head rest : jsstring) :
  ~ In 44%N (c :: head) ->
  startsWith (u16 "base64,") (c :: head ++ u16 "base64," ++ rest) = false.
Proof.
  intros Hno.
  destruct (startsWith _ _) eqn:Hstart; [| reflexivity].
  exfalso. apply marker_needs_comma in Hstart.
  change (u16 "base64,") with [98; 97; 115; 101; 54; 52; 44]%N in Hstart.
  destruct head as [| h1 [| h2 [| h3 [| h4 [| h5 [| h6 t]]]]]];
    cbn [app take] in Hstart; simpl in Hstart, Hno;
    intuition (try discriminate; eauto).
Qed.

(** Splitting a data URL at the marker: what precedes it, what follows
    it. *)
Lemma split_data_url (cur head data : jsstring) :
  ~ In 44%N head -> ~ In 44%N data ->
  split_go (u16 "base64,") O cur (head ++ u16 "base64," ++ data)
  = [rev cur ++ head; data].
Proof.
  intros Hhead Hdata. revert cur.
  induction head as [| c head IH]; intros cur.
  - pose proof (split_without_comma [] data Hdata) as Hrest.
    change (u16 "base64,") with [98; 97; 115; 101; 54; 52; 44]%N in *.
    cbn [app split_go startsWith length Nat.sub].
    rewrite !N.eqb_refl. cbn [andb]. rewrite Hrest, app_nil_r. reflexivity.
  - cbn [app split_go].
    rewrite (no_marker_inside c head data Hhead).
    rewrite IH by (intros Hin; apply Hhead; right; exact Hin).
    simpl. rewrite <- app_assoc. reflexivity.
Qed.

Lemma after_base64_data_url (head data : jsstring) :
  ~ In 44%N head -> ~ In 44%N data ->
  Sheet.after_base64 (head ++ u16 "base64," ++ data) = data.
Proof.
  intros Hhead Hdata. unfold Sheet.after_base64.
  change (split (u16 "base64,") (head ++ u16 "base64," ++ data))
    with (split_go (u16 "base64,") O [] (head ++ u16 "base64," ++ data)).
  rewrite (split_data_url [] head data Hhead Hdata). reflexivity.
Qed.

Section GatewayRequests.

Import Sheet.

Variable CustomerRecord : Type.
Variable generatedImageUrl : CustomerRecord -> option jsstring.
Variable Fields : Type.
Variable flatten : CustomerRecord -> Fields.
Variable compressBase64Image : jsstring -> Q -> Completion jsstring.
Variable network : nat -> Request Fields -> Completion unit.

(** The image does not depend on what was sent or logged before. *)
Lemma cleanBase64_value (record : CustomerRecord) (n n' : Net Fields) :
  fst (cleanBase64 generatedImageUrl compressBase64Image record n)
  = fst (cleanBase64 generatedImageUrl compressBase64Image record n').
Proof.
  unfold cleanBase64.
  destruct (generatedImageUrl record) as [imageUrl |]; [| reflexivity].
  destruct (truthy imageUrl); [| reflexivity].
  destruct (startsWith (u16 "http") imageUrl); [reflexivity |].
  unfold try_catch, bind, log, await, ret. simpl.
  destruct (compressBase64Image imageUrl (Qmake 6 10)) as [compressed | e]; simpl.
  - destruct (includes (u16 "base64,") compressed); reflexivity.
  - destruct (includes (u16 "base64,") imageUrl); reflexivity.
Qed.

(** The requests of one call: the payload with the image, then at most
    the same payload without it. *)
Lemma sync_requests (record : CustomerRecord) (scriptUrl : jsstring) (n : Net Fields) :
  truthy scriptUrl = true ->
  exists img final,
    fst (cleanBase64 generatedImageUrl compressBase64Image record n) = Normal img
    /\ syncToGoogleSheet generatedImageUrl flatten compressBase64Image network
         record scriptUrl n
       = (Normal tt, final)
    /\ (requests final
        = requests n
          ++ [ {| url := scriptUrl;
                  body := {| fields := flatten record; imageBase64 := img |} |} ]
        \/ requests final
           = requests n
             ++ [ {| url := scriptUrl;
                     body := {| fields := flatten record; imageBase64 := img |} |};
                  {| url := scriptUrl;
                     body := {| fields := flatten record; imageBase64 := [] |} |} ]).
Proof.
  intros Hurl.
  destruct (cleanBase64_total CustomerRecord generatedImageUrl Fields
              compressBase64Image record
              {| requests := requests n; console := console n ++ [LogSyncing] |})
    as (img & lines & Himage).
  exists img.
  assert (Hvalue : fst (cleanBase64 generatedImageUrl compressBase64Image record n)
                   = Normal img).
  { rewrite (cleanBase64_value record n
               {| requests := requests n; console := console n ++ [LogSyncing] |}).
    rewrite Himage. reflexivity. }
  unfold syncToGoogleSheet. rewrite Hurl.
  cbv beta iota zeta delta [bind try_catch log ret negb].
  rewrite Himage. cbv beta iota.
  set (n1 := {| requests := _; console := _ |}).
  set (payload := {| fields := flatten record; imageBase64 := img |}).
  change (fields payload) with (flatten record).
  set (textOnly := {| fields := flatten record; imageBase64 := [] |}).
  destruct (sendRequest_cases Fields network scriptUrl payload n1) as [Hreq Hcase].
  change (requests n1) with (requests n) in Hreq, Hcase.
  destruct (sendRequest network scriptUrl payload n1) as [c1 n2].
  simpl in Hreq, Hcase.
  destruct (network (length (requests n)) {| url := scriptUrl; body := payload |})
    as [[] | e].
  { destruct Hcase as [-> _]. eexists. split; [exact Hvalue |].
    split; [reflexivity |]. left. exact Hreq. }
  destruct (isCorsError e).
  { destruct Hcase as [-> _]. eexists. split; [exact Hvalue |].
    split; [reflexivity |]. left. exact Hreq. }
  destruct Hcase as [-> _]. cbv beta iota.
  set (n3 := {| requests := requests n2; console := _ |}).
  destruct (sendRequest_cases Fields network scriptUrl textOnly n3) as [Hreq2 _].
  change (requests n3) with (requests n2) in Hreq2.
  rewrite Hreq, <- app_assoc in Hreq2.
  destruct (sendRequest network scriptUrl textOnly n3) as [[status | e'] n4];
    simpl in Hreq2; eexists; (split; [exact Hvalue |]);
    (split; [reflexivity |]); right; exact Hreq2.
Qed.

(** X12. One call of [syncToGoogleSheet] returns normally after at most
    two transmissions, none exactly when the script URL is empty; every
    transmission goes to the script URL with the same fields of the
    record, and the second one, if any, carries no image. *)
Theorem sync_sends_at_most_twice
    (record : CustomerRecord) (scriptUrl : jsstring) (n : Net Fields) :
  exists final extra,
    syncToGoogleSheet generatedImageUrl flatten compressBase64Image network
      record scriptUrl n
    = (Normal tt, final)
    /\ requests final = requests n ++ extra
    /\ (length extra <= 2)%nat
    /\ (extra = [] <-> scriptUrl = [])
    /\ Forall (fun r => url r = scriptUrl /\ fields (body r) = flatten record) extra
    /\ (forall r, extra !! 1%nat = Some r -> imageBase64 (body r) = []).
Proof.
  destruct (truthy scriptUrl) eqn:Hurl.
  - assert (Hne : scriptUrl <> []) by (intros ->; discriminate).
    destruct (sync_requests record scriptUrl n Hurl)
      as (img & final & _ & Hrun & [Hreq | Hreq]);
      eexists final, _; (split; [exact Hrun |]); (split; [exact Hreq |]);
      (split; [simpl; lia |]); (split; [split; [discriminate | contradiction] |]).
    + split; [repeat constructor |]. intros r Hr. discriminate.
    + split; [repeat constructor |]. intros r [= <-]. reflexivity.
  - apply truthy_false in Hurl. subst scriptUrl.
    exists n, []. rewrite app_nil_r. repeat split; auto.
    intros r Hr. discriminate.
Qed.

Lemma cleanBase64_hosted
    (compress : jsstring -> Q -> Completion jsstring)
    (record : CustomerRecord) (imageUrl : jsstring) (n : Net Fields) :
  generatedImageUrl record = Some imageUrl ->
  startsWith (u16 "http") imageUrl = true ->
  cleanBase64 generatedImageUrl compress record n
  = (Normal [], {| requests := requests n; console := console n ++ [LogUrlDetected] |}).
Proof.
  intros Hrecord Hhttp. unfold cleanBase64. rewrite Hrecord, Hhttp.
  destruct imageUrl; [discriminate | reflexivity].
Qed.

(** X13. When the image reference of the record starts with [http], the
    image is never sent: every transmission of the call has an empty
    [imageBase64], and the compressor plays no part in the outcome. *)
Theorem hosted_image_is_not_uploaded
    (otherCompressor : jsstring -> Q -> Completion jsstring)
    (record : CustomerRecord) (imageUrl scriptUrl : jsstring) (n : Net Fields) :
  generatedImageUrl record = Some imageUrl ->
  startsWith (u16 "http") imageUrl = true ->
  syncToGoogleSheet generatedImageUrl flatten otherCompressor network
    record scriptUrl n
  = syncToGoogleSheet generatedImageUrl flatten compressBase64Image network
      record scriptUrl n
  /\ exists final extra,
       syncToGoogleSheet generatedImageUrl flatten compressBase64Image network
         record scriptUrl n
       = (Normal tt, final)
       /\ requests final = requests n ++ extra
       /\ Forall (fun r => imageBase64 (body r) = []) extra.
Proof.
  intros Hrecord Hhttp. split.
  - unfold syncToGoogleSheet. destruct (truthy scriptUrl); [| reflexivity].
    cbv beta iota zeta delta [bind try_catch log ret negb].
    rewrite !(cleanBase64_hosted _ record imageUrl _ Hrecord Hhttp). reflexivity.
  - destruct (truthy scriptUrl) eqn:Hurl.
    + destruct (sync_requests record scriptUrl n Hurl)
        as (img & final & Himg & Hrun & Hreq).
      rewrite (cleanBase64_hosted _ record imageUrl n Hrecord Hhttp) in Himg.
      injection Himg as <-.
      destruct Hreq as [Hreq | Hreq]; eexists final, _;
        (split; [exact Hrun |]); (split; [exact Hreq |]); repeat constructor.
    + exists n, []. unfold syncToGoogleSheet. rewrite Hurl, app_nil_r.
      repeat split. constructor.
Qed.

(** X14. When the image reference is encoded data, the first
    transmission carries what follows the marker [base64,] in the answer
    of the compressor, or, if the compressor throws, in the reference
    itself: a failing compression does not stop the send and does not
    lose the image. (The texts around the marker hold no comma, as in a
    data URL.) *)
Theorem image_field_is_the_encoded_data
    (record : CustomerRecord) (imageUrl scriptUrl head data : jsstring)
    (n : Net Fields) :
  generatedImageUrl record = Some imageUrl ->
  truthy imageUrl = true ->
  startsWith (u16 "http") imageUrl = false ->
  match compressBase64Image imageUrl (Qmake 6 10) with
  | Normal compressed => compressed
  | Throw _ => imageUrl
  end = head ++ u16 "base64," ++ data ->
  ~ In 44%N head -> ~ In 44%N data ->
  truthy scriptUrl = true ->
  exists final rest,
    syncToGoogleSheet generatedImageUrl flatten compressBase64Image network
      record scriptUrl n
    = (Normal tt, final)
    /\ requests final
       = requests n
         ++ {| url := scriptUrl;
               body := {| fields := flatten record; imageBase64 := data |} |} :: rest.
Proof.
  intros Hrecord Htruthy Hhttp Hsource Hhead Hdata Hurl.
  destruct (sync_requests record scriptUrl n Hurl)
    as (img & final & Himg & Hrun & Hreq).
  assert (Hdata' : img = data).
  { revert Himg. unfold cleanBase64. rewrite Hrecord, Htruthy, Hhttp.
    unfold try_catch, bind, log, await, ret. cbv beta iota.
    destruct (compressBase64Image imageUrl (Qmake 6 10)) as [compressed | e];
      cbv beta iota; rewrite Hsource, includes_app; cbv beta iota;
      rewrite (after_base64_data_url head data Hhead Hdata);
      intros [= <-]; reflexivity. }
  subst img.
  destruct Hreq as [Hreq | Hreq]; eexists final, _; split; try exact Hrun; exact Hreq.
Qed.

End GatewayRequests.

Lemma sync_sends_at_most_twice_witness :
  exists final extra,
    Sample.sync Sample.offline = (Sheet.Normal tt, final)
    /\ Sheet.requests final = Sheet.requests Sample.idle ++ extra
    /\ (length extra <= 2)%nat
    /\ (forall r, extra !! 1%nat = Some r -> Sheet.imageBase64 (Sheet.body r) = []).
Proof.
  destruct (sync_sends_at_most_twice (option jsstring) (fun r => r) unit (fun _ => tt)
              Sample.compressor Sample.offline (Some Sample.photo) Sample.scriptUrl
              Sample.idle)
    as (final & extra & Hrun & Hreq & Hlen & _ & _ & Hsecond).
  exists final, extra. auto.
Defined.

Lemma hosted_image_is_not_uploaded_witness :
  startsWith (u16 "http") More.hostedPhoto = true
  /\ exists final extra,
       Sheet.syncToGoogleSheet (fun r : option jsstring => r) (fun _ => tt)
         Sample.compressor Sample.offline (Some More.hostedPhoto) Sample.scriptUrl
         Sample.idle
       = (Sheet.Normal tt, final)
       /\ Sheet.requests final = Sheet.requests Sample.idle ++ extra
       /\ Forall (fun r => Sheet.imageBase64 (Sheet.body r) = []) extra.
Proof.
  assert (Hhttp : startsWith (u16 "http") More.hostedPhoto = true)
    by (vm_compute; reflexivity).
  split; [exact Hhttp |].
  exact (proj2 (hosted_image_is_not_uploaded (option jsstring) (fun r => r) unit
                  (fun _ => tt) Sample.compressor Sample.offline More.brokenCompressor
                  (Some More.hostedPhoto) More.hostedPhoto Sample.scriptUrl Sample.idle
                  eq_refl Hhttp)).
Defined.

Lemma image_field_is_the_encoded_data_witness :
  More.brokenCompressor Sample.photo (Qmake 6 10) = Sheet.Throw More.canvasError
  /\ Sample.photo = u16 "data:image/png;" ++ u16 "base64," ++ u16 "iVBORw0KGgo="
  /\ exists final rest,
       Sheet.syncToGoogleSheet (fun r : option jsstring => r) (fun _ => tt)
         More.brokenCompressor Sample.offline (Some Sample.photo) Sample.scriptUrl
         Sample.idle
       = (Sheet.Normal tt, final)
       /\ Sheet.requests final
          = Sheet.requests Sample.idle
            ++ {| Sheet.url := Sample.scriptUrl;
                  Sheet.body := {| Sheet.fields := tt;
                                   Sheet.imageBase64 := u16 "iVBORw0KGgo=" |} |}
               :: rest.
Proof.
  assert (Hsource : Sample.photo
                    = u16 "data:image/png;" ++ u16 "base64," ++ u16 "iVBORw0KGgo=")
    by (vm_compute; reflexivity).
  split; [reflexivity |]. split; [exact Hsource |].
  apply (image_field_is_the_encoded_data (option jsstring) (fun r => r) unit
           (fun _ => tt) More.brokenCompressor Sample.offline
           (Some Sample.photo) Sample.photo Sample.scriptUrl
           (u16 "data:image/png;") (u16 "iVBORw0KGgo=") Sample.idle).
  - reflexivity.
  - vm_compute. reflexivity.
  - vm_compute. reflexivity.
  - exact Hsource.
  - vm_compute. intuition discriminate.
  - vm_compute. intuition discriminate.
  - reflexivity.
Defined.

(** ** The store-code field *)

Lemma match_six_digits_spec (s code : jsstring) :
  match_six_digits s = Some code ->
  length code = 6%nat /\ forallb is_digit code = true.
Proof.
  induction s as [| c s IH]; [discriminate |].
  cbn [match_six_digits].
  destruct ((length (take 6 (c :: s)) =? 6)%nat && forallb is_digit (take 6 (c :: s)))
    eqn:Hsix.
  - intros [= <-]. apply andb_true_iff in Hsix. destruct Hsix as [Hlen Hdigits].
    apply Nat.eqb_eq in Hlen. auto.
  - exact IH.
Qed.

Lemma trim_no_space (s : jsstring) :
  forallb (fun c => negb (is_space c)) s = true -> trim s = s.
Proof.
  intros Hs.
  assert (Hstart : forall t : jsstring,
            forallb (fun c => negb (is_space c)) t = true -> trimStart t = t).
  { intros [| c t]; [reflexivity |]. simpl. rewrite andb_true_iff, negb_true_iff.
    intros [-> _]. reflexivity. }
  unfold trim, trimEnd. rewrite (Hstart s Hs).
  rewrite Hstart; [apply rev_involutive |].
  apply forallb_forall. intros c Hc. apply in_rev in Hc.
  exact (proj1 (forallb_forall _ _) Hs c Hc).
Qed.

Lemma greedy_name_spec (r : jsstring) (k0 k : nat) :
  greedy_name r k0 = Some k ->
  exists pre rest,
    r = pre ++ store_suffix ++ rest
    /\ forallb (fun c => negb (is_space c)) pre = true
    /\ k = (k0 + length pre)%nat.
Proof.
  revert k0. induction r as [| c r IH]; intros k0; [discriminate |].
  cbn [greedy_name].
  destruct (is_space c) eqn:Hc.
  - destruct (startsWith store_suffix (c :: r)) eqn:Hstart; [| discriminate].
    intros [= <-]. exists [], (drop (length store_suffix) (c :: r)).
    split; [apply (startsWith_split _ _ Hstart) |]. split; [reflexivity |].
    simpl. lia.
  - destruct (greedy_name r (S k0)) as [k' |] eqn:Hlater.
    + intros [= <-]. destruct (IH _ Hlater) as (pre & rest & -> & Hpre & ->).
      exists (c :: pre), rest. simpl. rewrite Hc, Hpre. repeat split. lia.
    + destruct (startsWith store_suffix (c :: r)) eqn:Hstart; [| discriminate].
      intros [= <-]. exists [], (drop (length store_suffix) (c :: r)).
      split; [apply (startsWith_split _ _ Hstart) |]. split; [reflexivity |].
      simpl. lia.
Qed.

(** A store name the regular expression finds is a text without
    whitespace that ends with the suffix and has something before it. *)
Lemma match_store_name_spec (s found : jsstring) :
  match_store_name s = Some found ->
  exists c pre,
    found = c :: pre ++ store_suffix
    /\ forallb (fun c => negb (is_space c)) found = true.
Proof.
  induction s as [| c s IH]; [discriminate |].
  cbn [match_store_name].
  destruct (is_space c) eqn:Hc; [exact IH |].
  destruct (greedy_name s 1) as [k |] eqn:Hgreedy; [| exact IH].
  intros [= <-].
  destruct (greedy_name_spec s 1 k Hgreedy) as (pre & rest & -> & Hpre & ->).
  exists c, pre.
  assert (Htake : take (1 + length pre + 2) (c :: pre ++ store_suffix ++ rest)
                  = c :: pre ++ store_suffix).
  { change (1 + length pre + 2)%nat with (S (length pre + 2)).
    cbn [take]. f_equal. rewrite take_app_ge by lia.
    f_equal. replace (length pre + 2 - length pre)%nat with 2%nat by lia.
    reflexivity. }
  rewrite Htake. split; [reflexivity |].
  cbn [forallb]. rewrite Hc, forallb_app, Hpre. reflexivity.
Qed.

Lemma first_part_no_space (s : jsstring) :
  forallb (fun c => negb (is_space c)) (first_part s) = true.
Proof.
  induction s as [| c s IH]; [reflexivity |].
  simpl. destruct (is_space c) eqn:Hc; [reflexivity |].
  simpl. rewrite Hc, IH. reflexivity.
Qed.

Lemma clearError_is_setErrors (field : string) (st : FormState) :
  exists e, clearError field st = setErrors e st.
Proof.
  unfold clearError.
  destruct (Obj.get field (errors st)) as [[| c m] |];
    try (exists (errors st); destruct st; reflexivity).
  eexists. reflexivity.
Qed.

Lemma typed_store_code (val : jsstring) :
  forallb is_digit (slice 0 6 (strip_non_digits val)) = true
  /\ (length (slice 0 6 (strip_non_digits val)) <= 6)%nat.
Proof.
  change (slice 0 6 (strip_non_digits val)) with (take 6 (strip_non_digits val)).
  split; [apply forallb_take, strip_non_digits_digits |].
  rewrite length_take. lia.
Qed.

Lemma named_store_passes (name : jsstring) (st : FormState) :
  forallb (fun c => negb (is_space c)) name = true ->
  (1 <= length name)%nat ->
  storeName st = name -> storeName_fails st = false.
Proof.
  intros Hname Hlen Heq. unfold storeName_fails. rewrite Heq.
  rewrite (trim_no_space _ Hname). destruct name; [simpl in Hlen; lia |].
  reflexivity.
Qed.

(** X15. Whatever is typed or pasted in the store-code field, the store
    code the handler leaves is made of digits, six at most; the store name
    is left as it was, or becomes a text without whitespace of two code
    units or more, which passes the rule of the store name; the name, the
    phone, the social id, the wrist size and the agreement are not
    touched. *)
Theorem store_input_invariants (val : jsstring) (st : FormState) :
  forallb is_digit (storeCode (handleStoreCodeChange val st)) = true
  /\ (length (storeCode (handleStoreCodeChange val st)) <= 6)%nat
  /\ (storeName (handleStoreCodeChange val st) = storeName st
      \/ (forallb (fun c => negb (is_space c))
            (storeName (handleStoreCodeChange val st)) = true
          /\ (2 <= length (storeName (handleStoreCodeChange val st)))%nat
          /\ storeName_fails (handleStoreCodeChange val st) = false))
  /\ realName (handleStoreCodeChange val st) = realName st
  /\ phone (handleStoreCodeChange val st) = phone st
  /\ socialId (handleStoreCodeChange val st) = socialId st
  /\ wristSize (handleStoreCodeChange val st) = wristSize st
  /\ agreed (handleStoreCodeChange val st) = agreed st.
Proof.
  destruct (typed_store_code val) as [Hdigits Hshort].
  unfold handleStoreCodeChange.
  destruct (8 <? length val)%nat;
    [| cbn [storeCode storeName setStoreCode realName phone socialId wristSize agreed];
       auto 10].
  destruct (match_six_digits val) as [code |] eqn:Hcode;
    [| cbn [storeCode storeName setStoreCode realName phone socialId wristSize agreed];
       auto 10].
  destruct (match_six_digits_spec val code Hcode) as [Hsix Hcodedigits].
  destruct (clearError_is_setErrors "storeCode" (setStoreCode code st)) as [e1 ->].
  destruct (match_store_name (possibleName val code)) as [found |] eqn:Hname.
  - destruct (clearError_is_setErrors "storeName"
                (setStoreName found (setErrors e1 (setStoreCode code st)))) as [e2 ->].
    cbn [storeCode storeName setStoreCode setStoreName setErrors
         realName phone socialId wristSize agreed].
    destruct (match_store_name_spec _ _ Hname) as (c & pre & Hfound & Hnospace).
    assert (Hlen : (2 <= length found)%nat).
    { rewrite Hfound. cbn [length]. rewrite length_app.
      change (length store_suffix) with 2%nat. lia. }
    split; [exact Hcodedigits |]. split; [lia |]. split; [| auto].
    right. split; [exact Hnospace |]. split; [exact Hlen |].
    apply (named_store_passes found); [exact Hnospace | lia | reflexivity].
  - destruct (2 <=? length (first_part (possibleName val code)))%nat eqn:Hpart.
    + destruct (clearError_is_setErrors "storeName"
                  (setStoreName (first_part (possibleName val code))
                     (setErrors e1 (setStoreCode code st)))) as [e2 ->].
      cbn [storeCode storeName setStoreCode setStoreName setErrors
           realName phone socialId wristSize agreed].
      apply Nat.leb_le in Hpart.
      split; [exact Hcodedigits |]. split; [lia |]. split; [| auto].
      right. split; [apply first_part_no_space |]. split; [exact Hpart |].
      apply (named_store_passes (first_part (possibleName val code)));
        [apply first_part_no_space | lia | reflexivity].
    + cbn [storeCode storeName setStoreCode setStoreName setErrors
           realName phone socialId wristSize agreed].
      split; [exact Hcodedigits |]. split; [lia |]. auto 10.
Qed.

Lemma clearError_get (field : string) (st : FormState) :
  List.NoDup (map fst (errors st)) ->
  List.NoDup (map fst (errors (clearError field st)))
  /\ forall k,
       Obj.get k (errors (clearError field st))
       = if String.eqb k field then squash (Obj.get k (errors st))
         else Obj.get k (errors st).
Proof. exact (clearErrorIf_step true field st). Qed.

(** X16. A value of more than eight code units in which six digits stand
    in a row is read as a pasted address: the store code becomes the
    leftmost six digits in a row, which pass the rule of the store code;
    when what remains holds a name that ends with the store suffix, that
    name becomes the store name; and the message of the store code, when
    there was one that is not the empty text, is gone. *)
Theorem pasted_store_is_recognised (val code : jsstring) (st : FormState) :
  (8 < length val)%nat ->
  match_six_digits val = Some code ->
  storeCode (handleStoreCodeChange val st) = code
  /\ storeCode_fails (handleStoreCodeChange val st) = false
  /\ (forall found,
        match_store_name (possibleName val code) = Some found ->
        storeName (handleStoreCodeChange val st) = found
        /\ exists c pre, found = c :: pre ++ store_suffix)
  /\ (List.NoDup (map fst (errors st)) ->
      Obj.get "storeCode" (errors (handleStoreCodeChange val st))
      = squash (Obj.get "storeCode" (errors st))).
Proof.
  intros Hlong Hcode.
  destruct (match_six_digits_spec val code Hcode) as [Hsix Hdigits].
  apply Nat.ltb_lt in Hlong.
  unfold handleStoreCodeChange. rewrite Hlong, Hcode.
  set (st1 := clearError "storeCode" (setStoreCode code st)).
  assert (Hcode1 : storeCode st1 = code).
  { unfold st1. destruct (clearError_is_setErrors "storeCode" (setStoreCode code st))
      as [e ->]. reflexivity. }
  assert (Herr1 : List.NoDup (map fst (errors st)) ->
                  List.NoDup (map fst (errors st1))
                  /\ Obj.get "storeCode" (errors st1)
                     = squash (Obj.get "storeCode" (errors st))).
  { intros Hnodup.
    destruct (clearError_get "storeCode" (setStoreCode code st) Hnodup) as [H1 G1].
    split; [exact H1 |]. rewrite G1. reflexivity. }
  assert (Hnamed : forall name,
            storeCode (clearError "storeName" (setStoreName name st1)) = code
            /\ storeName (clearError "storeName" (setStoreName name st1)) = name
            /\ (List.NoDup (map fst (errors st)) ->
                Obj.get "storeCode"
                  (errors (clearError "storeName" (setStoreName name st1)))
                = squash (Obj.get "storeCode" (errors st)))).
  { intros name. split; [| split].
    - destruct (clearError_is_setErrors "storeName" (setStoreName name st1)) as [e ->].
      exact Hcode1.
    - destruct (clearError_is_setErrors "storeName" (setStoreName name st1)) as [e ->].
      reflexivity.
    - intros Hnodup. destruct (Herr1 Hnodup) as [H1 G1].
      destruct (clearError_get "storeName" (setStoreName name st1) H1) as [_ G2].
      rewrite G2. exact G1. }
  assert (Hpass : forall st', storeCode st' = code -> storeCode_fails st' = false).
  { intros st' Heq. unfold storeCode_fails, test_six_digits.
    rewrite Heq, Hsix, Hdigits. reflexivity. }
  destruct (match_store_name (possibleName val code)) as [found |] eqn:Hname.
  - destruct (Hnamed found) as (Hc & Hn & He).
    split; [exact Hc |]. split; [apply Hpass, Hc |]. split; [| exact He].
    intros found' [= <-]. split; [exact Hn |].
    destruct (match_store_name_spec _ _ Hname) as (c & pre & Hfound & _).
    exists c, pre. exact Hfound.
  - destruct (2 <=? length (first_part (possibleName val code)))%nat.
    + destruct (Hnamed (first_part (possibleName val code))) as (Hc & Hn & He).
      split; [exact Hc |]. split; [apply Hpass, Hc |]. split; [| exact He].
      intros found' Habsurd. discriminate Habsurd.
    + split; [exact Hcode1 |]. split; [apply Hpass, Hcode1 |].
      split; [intros found' Habsurd; discriminate Habsurd |].
      intros Hnodup. exact (proj2 (Herr1 Hnodup)).
Qed.

Example pasted_map_text :
  storeCode (handleStoreCodeChange (u16 "7-11 鑫泰門市 (123456) 台北市")
               Sample.unfinished) = u16 "123456"
  /\ storeName (handleStoreCodeChange (u16 "7-11 鑫泰門市 (123456) 台北市")
                  Sample.unfinished) = u16 "鑫泰門市"
  /\ storeName (handleStoreCodeChange (u16 "店號 654321 大安 台北") Sample.unfinished)
     = u16 "大安"
  /\ storeCode (handleStoreCodeChange (u16 "12a34b56789") Sample.unfinished)
     = u16 "123456".
Proof. repeat split; vm_compute; reflexivity. Qed.

Lemma pasted_store_is_recognised_witness :
  (8 < length More.pastedAddress)%nat
  /\ match_six_digits More.pastedAddress = Some (u16 "123456")
  /\ is_Some (Obj.get "storeCode" (errors More.rejected))
  /\ storeCode (handleStoreCodeChange More.pastedAddress More.rejected) = u16 "123456"
  /\ storeName (handleStoreCodeChange More.pastedAddress More.rejected)
     = u16 "鑫泰門市"
  /\ Obj.get "storeCode"
       (errors (handleStoreCodeChange More.pastedAddress More.rejected)) = None.
Proof.
  assert (Hlong : (8 < length More.pastedAddress)%nat)
    by (apply Nat.ltb_lt; vm_compute; reflexivity).
  assert (Hcode : match_six_digits More.pastedAddress = Some (u16 "123456"))
    by (vm_compute; reflexivity).
  assert (Hnodup : List.NoDup (map fst (errors More.rejected))).
  { apply NoDup_ListNoDup. apply (bool_decide_unpack _). vm_compute. exact I. }
  destruct (pasted_store_is_recognised More.pastedAddress (u16 "123456")
              More.rejected Hlong Hcode) as (Hstored & _ & Hname & Hmessage).
  split; [exact Hlong |]. split; [exact Hcode |].
  split; [vm_compute; eexists; reflexivity |].
  split; [exact Hstored |]. split.
  - apply (Hname (u16 "鑫泰門市")). vm_compute. reflexivity.
  - rewrite (Hmessage Hnodup). vm_compute. reflexivity.
Defined.

Lemma draft_round_trip_witness :
  wristSize Sample.filled <> []
  /\ exists st',
       mount Sample.customPolicy (snd (autoSave Sample.filled Sample.world0)) = inr st'
       /\ wristSize st' = wristSize Sample.filled
       /\ totalPrice Sample.customPolicy st'
          = Math_max (of_Z 0) (baseTotal Sample.customPolicy st').
Proof.
  assert (Hsize : wristSize Sample.filled <> []) by (vm_compute; discriminate).
  split; [exact Hsize |].
  destruct (draft_round_trip Sample.customPolicy Sample.filled Sample.world0)
    as (st' & Hmount & _ & _ & _ & _ & _ & _ & _ & Hkept & _ & _ & Hprice).
  exists st'. split; [exact Hmount |]. split; [exact (Hkept Hsize) | exact Hprice].
Defined.
